(** * Incremental crawl-and-resume pipeline of the auction scrapers

    A shallow embedding of [auction_scraper.py] (module [Menzies]) and of
    [deutscherandhackett_scraper.py] (module [DH]).

    The page fetcher ([crawler.arun]), the HTML parser (BeautifulSoup) and the
    file system are collaborators of the scripts.  They appear here as an
    environment: what the crawler answers for a URL, what each selector of the
    scripts finds in a page, in which order concurrent lot fetches finish, and
    whether a write to the output file goes through.  The control flow on top
    of them -- guards, loops, [try]/[except], the mutation of the auction
    dictionaries shared between lists -- is the scripts' own.

    Not modelled: time ([asyncio.sleep]), logging, and exceptions outside
    [Exception] (cancellation, interrupts).  Texts are strings of bytes;
    dictionaries are records with the keys the scripts write. *)

From Stdlib Require Import Ascii.
From stdpp Require Import base list strings gmap pretty sorting.

(** ** Python runtime: exceptions, state, strings *)

Module Py.

(** The exceptions the scripts can meet.  All of them derive from
    [Exception], so [except Exception] catches each. *)
Inductive exn : Type :=
| OSError
| JSONDecodeError
| TypeError
| ValueError
| AttributeError
| UnboundLocalError
| CrawlerError.

(** How a call ends: with a value, with an exception, or not within the
    number of loop iterations granted to it. *)
Inductive outcome (A : Type) : Type :=
| Ok (a : A)
| Raise (e : exn)
| Diverge.
Arguments Ok {A} a.
Arguments Raise {A} e.
Arguments Diverge {A}.

(** Computations over a store [St]; the store survives an exception. *)
Definition M (St A : Type) : Type := St -> outcome A * St.

Definition ret {St A} (a : A) : M St A := fun s => (Ok a, s).

Definition bind {St A B} (m : M St A) (k : A -> M St B) : M St B :=
  fun s =>
    match m s with
    | (Ok a, s') => k a s'
    | (Raise e, s') => (Raise e, s')
    | (Diverge, s') => (Diverge, s')
    end.

Definition raise {St A} (e : exn) : M St A := fun s => (Raise e, s).

(** [try: body  except Exception as e: handler] *)
Definition try_except {St A} (body : M St A) (handler : exn -> M St A) : M St A :=
  fun s =>
    match body s with
    | (Raise e, s') => handler e s'
    | r => r
    end.

(** [for x in xs: body x] *)
Fixpoint for_each {St A} (xs : list A) (body : A -> M St unit) : M St unit :=
  match xs with
  | [] => ret tt
  | x :: xs' => bind (body x) (fun _ => for_each xs' body)
  end.

(** Truth value of a string and of a list. *)
Definition truthy (s : string) : bool := negb (String.eqb s "").

Definition nonempty {A} (l : list A) : bool :=
  match l with [] => false | _ :: _ => true end.

(** [s.startswith(p)] *)
Definition startswith (p s : string) : bool := String.prefix p s.

(** [s.replace(old, new)] for a non-empty [old]: occurrences are replaced
    from the left and do not overlap.  [skip] counts the characters of the
    occurrence just replaced that are still to be passed over. *)
Fixpoint replace_from (old new : string) (skip : nat) (s : string) : string :=
  match s with
  | "" => ""
  | String c s' =>
      match skip with
      | S k => replace_from old new k s'
      | O =>
          if String.prefix old s
          then new +:+ replace_from old new (String.length old - 1) s'
          else String c (replace_from old new 0 s')
      end
  end.

Definition replace (old new s : string) : string := replace_from old new 0 s.

(** [needle in s] *)
Fixpoint contains (needle s : string) : bool :=
  String.prefix needle s ||
  match s with
  | "" => false
  | String _ s' => contains needle s'
  end.

(** [range(lo, hi)] and [str(n)] for a natural number. *)
Definition range (lo hi : nat) : list nat := seq lo (hi - lo).

Definition str (n : nat) : string := pretty n.

(** [l.sort(key=key, reverse=True)] with string keys: the stable sort that
    puts larger keys first and keeps elements with equal keys in their
    original order. *)
Fixpoint insert_desc {A} (key : A -> string) (x : A) (l : list A) : list A :=
  match l with
  | [] => [x]
  | y :: l' =>
      if String.ltb (key x) (key y) then y :: insert_desc key x l' else x :: l
  end.

Definition sort_desc {A} (key : A -> string) (l : list A) : list A :=
  foldr (insert_desc key) [] l.

End Py.

Import Py.

Notation "'let*' x ':=' m 'in' k" := (bind m (fun x => k))
  (at level 10, x name, m at level 100, k at level 200).

(** ** Data model: the dictionaries the scripts build *)

Module Lot.
(** A lot dictionary.  [price] is the Python value stored under ["price"]
    ([None] for Python's [None]); [auctionUrl] is [None] while the key is
    absent.  [extra] holds the keys only one site has
    (signage, provenance, condition). *)
Record t : Type := mk {
  artist : string;
  title : string;
  medium : string;
  size : string;
  extra : list (string * string);
  price : option string;
  url : string;
  auctionUrl : option string
}.

(** [{**lot, "auctionUrl": base_url}] *)
Definition stamp (base_url : string) (l : t) : t :=
  mk (artist l) (title l) (medium l) (size l) (extra l) (price l) (url l)
     (Some base_url).
End Lot.

Module Auction.
(** An auction dictionary.  [extra] holds the keys only one site has
    (sale_total; location and sale_number). *)
Record t : Type := mk {
  url : string;
  title : string;
  year : string;
  date : string;
  extra : list (string * string);
  lots : list Lot.t
}.

(** [auction["lots"] = v] *)
Definition set_lots (v : list Lot.t) (a : t) : t :=
  mk (url a) (title a) (year a) (date a) (extra a) v.
End Auction.

(** ** The world of a run *)

(** What [json.load] can give back: a list of auction dictionaries with
    the keys the scripts write, some other value that has a length (an
    object, a string, a list none of whose elements is an object; [empty]
    when it has no element), or a value without one (a number, a boolean,
    null).  A list of objects that lack some of the keys is not among the
    values of the model. *)
Inductive json : Type :=
| JAuctions (l : list Auction.t)
| JOther (empty : bool)
| JScalar.

(** The output file: absent, present but not openable, present with text
    that is not JSON, or present with a JSON value. *)
Inductive file : Type :=
| NoFile
| Unreadable
| Garbled
| Json (v : json).

(** What [crawler.arun] does for a URL: raise, or return a result with its
    [success] flag and its [html]. *)
Inductive fetch_result : Type :=
| FetchRaises
| Fetched (success : bool) (html : string).

(** What happens to a write of the output file: it goes through, [open]
    raises, or [json.dump] raises after the file was truncated. *)
Inductive write_result : Type :=
| Written
| OpenFails
| DumpFails.

(** Location of an auction dictionary in the store. *)
Abbreviation loc := nat (only parsing).

Record state : Type := mkState {
  heap : list Auction.t;          (* the auction dictionaries, by location *)
  fetched : list string;          (* URLs given to crawler.arun, oldest first *)
  disk : file;                    (* the output file *)
  saves : list (list Auction.t)   (* collections given to save_progress, oldest first *)
}.

Definition Run (A : Type) : Type := M state A.

(** Reading and writing the store. *)

Definition get_state : Run state := fun s => (Ok s, s).

Definition diverge {A} : Run A := fun s => (Diverge, s).

(** A new dictionary object. *)
Definition alloc (a : Auction.t) : Run loc :=
  fun s =>
    (Ok (length (heap s)),
     mkState (heap s ++ [a]) (fetched s) (disk s) (saves s)).

Fixpoint alloc_all (l : list Auction.t) : Run (list loc) :=
  match l with
  | [] => ret []
  | a :: l' =>
      let* r := alloc a in
      let* rs := alloc_all l' in
      ret (r :: rs)
  end.

(** [auction[...]] for reading. *)
Definition deref (r : loc) : Run Auction.t :=
  fun s =>
    match heap s !! r with
    | Some a => (Ok a, s)
    | None => (Raise TypeError, s)
    end.

(** [auction["lots"] = v] *)
Definition assign_lots (r : loc) (v : list Lot.t) : Run unit :=
  fun s =>
    match heap s !! r with
    | Some a =>
        (Ok tt,
         mkState (<[r := Auction.set_lots v a]> (heap s)) (fetched s) (disk s) (saves s))
    | None => (Raise TypeError, s)
    end.

(** The dictionaries a list of references denotes in a store. *)
Definition view (h : list Auction.t) (refs : list loc) : list Auction.t :=
  omap (fun r => h !! r) refs.

(** [refs.sort(key=lambda x: x["year"], reverse=True)] *)
Definition year_at (h : list Auction.t) (r : loc) : string :=
  from_option Auction.year "" (h !! r).

Definition sort_by_year (refs : list loc) : Run (list loc) :=
  fun s => (Ok (sort_desc (year_at (heap s)) refs), s).

(** ** Concurrent fan-out: [asyncio.gather] *)

(** A task that has finished: it returned a value or raised. *)
Inductive settled (A : Type) : Type :=
| Returned (a : A)
| Raised (e : exn).
Arguments Returned {A} a.
Arguments Raised {A} e.

(** The tasks run to completion one after the other in the order [order]
    names them; a task's result is stored in the slot of its position in
    [tasks].  An entry of [order] that names no pending task is passed over.
    The fetches of one fan-out are therefore logged in the order its tasks
    finish; the log of a fan-out is to be read up to that order. *)
Fixpoint run_tasks {A} (tasks : list (Run A)) (order : list nat)
    (slots : list (option (settled A))) : Run (list (option (settled A))) :=
  match order with
  | [] => ret slots
  | i :: order' =>
      match tasks !! i, slots !! i with
      | Some t, Some None =>
          fun s =>
            match t s with
            | (Ok a, s') => run_tasks tasks order' (<[i := Some (Returned a)]> slots) s'
            | (Raise e, s') => run_tasks tasks order' (<[i := Some (Raised e)]> slots) s'
            | (Diverge, s') => (Diverge, s')
            end
      | _, _ => run_tasks tasks order' slots
      end
  end.

(** [await asyncio.gather( *tasks, return_exceptions=True)]: every task runs;
    the tasks named by [order] finish first, in that order, the others after
    them; the results come back in the order of [tasks]. *)
Definition gather_settled {A} (tasks : list (Run A)) (order : list nat)
    : Run (list (settled A)) :=
  let n := length tasks in
  let* slots := run_tasks tasks (order ++ seq 0 n) (replicate n None) in
  ret (omap id slots).

(** [await asyncio.gather( *tasks)]: the results come back in the order of
    [tasks] too, but the first exception a task raises, in the order the
    tasks finish, is raised by [gather] itself. *)
Fixpoint run_tasks_strict {A} (tasks : list (Run A)) (order : list nat)
    (slots : list (option A)) : Run (list (option A)) :=
  match order with
  | [] => ret slots
  | i :: order' =>
      match tasks !! i, slots !! i with
      | Some t, Some None =>
          let* a := t in
          run_tasks_strict tasks order' (<[i := Some a]> slots)
      | _, _ => run_tasks_strict tasks order' slots
      end
  end.

Definition gather {A} (tasks : list (Run A)) (order : list nat) : Run (list A) :=
  let n := length tasks in
  let* slots := run_tasks_strict tasks (order ++ seq 0 n) (replicate n None) in
  ret (omap id slots).

(** The collaborators of a run that both scripts share.  During one run
    the crawler's answer depends on the URL only; between two runs it may
    change, each run having its own world. *)
Record world : Type := mkWorld {
  site : string -> fetch_result;      (* the crawler's answer for a URL *)
  completion : string -> list nat;    (* for the fan-out of a page URL: the order in which its tasks finish *)
  write : nat -> write_result         (* the fate of the n-th write of the output file, counted from 0 *)
}.

(** [result = await crawler.arun(url=url)] *)
Definition arun (W : world) (url : string) : Run (bool * string) :=
  fun s =>
    let s' := mkState (heap s) (fetched s ++ [url]) (disk s) (saves s) in
    match site W url with
    | FetchRaises => (Raise CrawlerError, s')
    | Fetched success html => (Ok (success, html), s')
    end.

(** [with open(filename, "w") as f: json.dump(data, f)] *)
Definition write_file (W : world) (data : list Auction.t) : Run unit :=
  fun s =>
    let s' := mkState (heap s) (fetched s) (disk s) (saves s ++ [data]) in
    match write W (length (saves s)) with
    | Written => (Ok tt, mkState (heap s) (fetched s) (Json (JAuctions data)) (saves s ++ [data]))
    | OpenFails => (Raise OSError, s')
    | DumpFails => (Raise OSError, mkState (heap s) (fetched s) Garbled (saves s ++ [data]))
    end.

(** [f"${n:,}"] *)
Fixpoint group3 (seen : nat) (rev_digits : string) : string :=
  match rev_digits with
  | "" => ""
  | String c rest =>
      match seen with
      | 3 => String ","%char (String c (group3 1 rest))
      | _ => String c (group3 (S seen) rest)
      end
  end.

Definition format_price (n : Z) : string :=
  "$" +:+ (if (n <? 0)%Z then "-" else "")
      +:+ String.rev (group3 0 (String.rev (pretty (Z.abs_N n)))).

(** ** auction_scraper.py *)

Module Menzies.

Definition site_root : string := "https://www.menziesartbrands.com".
Definition results_url : string := "https://www.menziesartbrands.com/auction/results".

(** *** What the selectors find *)

(** A [div.pageCatalogue] of the results page, with the outcome of every
    query the script makes on it (texts are [get_text(strip=True)]). *)
Record catalogue : Type := mkCatalogue {
  date_elem : option string;      (* find("p", class_="pageCatDesc") *)
  year_anchor : option string;    (* find_previous("a", id=re.compile(r"year-\d+"))["id"] *)
  prev_h2 : option string;        (* find_previous("h2") *)
  prev_h3 : option string;        (* find_previous("h3") *)
  own_text : string;              (* the catalogue's own text *)
  title_h3 : option string;       (* find("h3", class_="pageCatTitle") *)
  title_h4 : option string;       (* find("h4") *)
  title_h2 : option string;       (* find("h2") *)
  total_li : option string;       (* find("li", string=re.compile("Sale Total:", re.I)) *)
  total_p : option string;        (* find("p", string=re.compile("Sale Total:", re.I)) *)
  button_href : option string;    (* find("a", class_="buTTon", href=True)["href"] *)
  details_href : option string    (* find("a", href=re.compile(r"/catalogue-details/"))["href"] *)
}.

(** A [div.pageListing] row of an auction page. *)
Record row : Type := mkRow {
  lot_link : option string        (* find("a", class_="buTTon", href=re.compile(r"/items/\d+"))["href"] *)
}.

Record auction_page : Type := mkAuctionPage {
  lot_rows : list row;            (* select("div.pageListing") *)
  nav_hrefs : list string         (* href of every a[href] inside div.pageListingNav *)
}.

(** A [<p>] as the price loops see it. *)
Record para : Type := mkPara {
  sold_for : bool;                (* find("strong", string=re.compile(r"Sold For:", re.I)) finds one *)
  result_hammer : bool;           (* find("strong", string=re.compile(r"Result Hammer:", re.I)) finds one *)
  price_spans : list string       (* texts of find_all("span", class_="price") *)
}.

Record title_para : Type := mkTitlePara {
  italic : option string;         (* title_p.find("i") *)
  medium_size_lines : option (list string)
      (* title_p.find_next("p"): its non-blank lines, stripped *)
}.

Record artist_para : Type := mkArtistPara {
  artist_text : string;
  title_p : option title_para     (* artist_p.find_next("p") *)
}.

Record description : Type := mkDescription {
  artist_p : option artist_para;  (* description_div.find("p") *)
  description_paras : list para   (* description_div.find_all("p") *)
}.

Record lot_page : Type := mkLotPage {
  description_div : option description;   (* find("div", class_="pageLotDescriptionTxt") *)
  details_div : option (list para)        (* find("div", class_="pageLotDetails") and its find_all("p") *)
}.

(** The library functions of the script, and its three page shapes. *)
Record env : Type := mkEnv {
  urljoin : string -> string -> string;
  int_of : string -> option Z;               (* int(text); None for ValueError *)
  year_search : string -> option string;     (* re.search(r"\b(202[0-5]|201[5-9])\b", text), group 1 *)
  catalogue_divs : string -> list catalogue; (* soup.select("div.pageCatalogue") *)
  auction_page_of : string -> auction_page;
  lot_page_of : string -> lot_page
}.

Section Script.
Variable W : world.
Variable E : env.

(** *** load_existing_data *)

Definition read_file : Run json :=
  fun s =>
    match disk s with
    | NoFile => (Ok (JAuctions []), s)          (* os.path.exists is False *)
    | Unreadable => (Raise OSError, s)          (* open raises *)
    | Garbled => (Raise JSONDecodeError, s)     (* json.load raises *)
    | Json JScalar => (Raise TypeError, s)      (* len(data) raises *)
    | Json v => (Ok v, s)
    end.

Definition load_existing_data : Run json :=
  try_except read_file (fun _ => ret (JAuctions [])).

(** *** scrape_past_auctions *)

Definition valid_years : gset string :=
  list_to_set (str <$> range 2015 2026).

Definition year_set (year : option string) : bool :=
  match year with Some y => truthy y | None => false end.

(** The text of the first of [elems] that is there and holds a year. *)
Fixpoint first_year (elems : list (option string)) : option string :=
  match elems with
  | [] => None
  | None :: rest => first_year rest
  | Some text :: rest =>
      match year_search E text with
      | Some y => Some y
      | None => first_year rest
      end
  end.

Definition date_text_of (c : catalogue) : string :=
  from_option id "" (date_elem c).

Definition resolve_year (c : catalogue) : option string :=
  let year :=
    match date_elem c with
    | Some date_text => year_search E date_text
    | None => None
    end in
  if year_set year then year
  else
    match year_anchor c with
    | Some anchor_id => Some (replace "year-" "" anchor_id)
    | None =>
        match first_year [prev_h2 c; prev_h3 c; Some (own_text c)] with
        | Some y => Some y
        | None => year
        end
    end.

(** [a or b] on results of [find]. *)
Definition or_else {A} (a b : option A) : option A :=
  match a with Some _ => a | None => b end.

Definition in_valid_years (year : option string) : bool :=
  match year with
  | Some y => bool_decide (y ∈ valid_years)
  | None => false
  end.

(** The detail-page URL of a catalogue, [""] when it has no link. *)
Definition link_url (c : catalogue) : string :=
  let auction_url :=
    from_option id "" (or_else (button_href c) (details_href c)) in
  if startswith "/" auction_url then urljoin E site_root auction_url
  else auction_url.

(** The dictionary appended for a catalogue. *)
Definition new_record (c : catalogue) (year auction_url : string) : Auction.t :=
  let title :=
    from_option id "No title found"
      (or_else (title_h3 c) (or_else (title_h4 c) (title_h2 c))) in
  let date :=
    if truthy (date_text_of c) then date_text_of c else "No date found" in
  let sale_total :=
    match or_else (total_li c) (total_p c) with
    | Some t => replace "Sale Total: " "" t
    | None => "No sale total found"
    end in
  Auction.mk auction_url title year date [("sale_total", sale_total)] [].

(** One turn of the [for catalogue in catalogue_divs] loop; the three
    [continue]s leave [auctions_data] as it is. *)
Definition visit_catalogue (existing_urls : gset string)
    (auctions_data : list Auction.t) (c : catalogue) : list Auction.t :=
  let year := resolve_year c in
  if negb (in_valid_years year) then auctions_data
  else
    let auction_url := link_url c in
    if negb (truthy auction_url) then auctions_data
    else if bool_decide (auction_url ∈ existing_urls) then auctions_data
    else
      auctions_data ++ [new_record c (from_option id "" year) auction_url].

Definition collect (existing_urls : gset string) (divs : list catalogue)
    : list Auction.t :=
  foldl (visit_catalogue existing_urls) [] divs.

Definition scrape_past_auctions (url : string)
    (existing_urls : option (gset string)) : Run (list Auction.t) :=
  try_except
    (let existing_urls := from_option id ∅ existing_urls in
     let* result := arun W url in
     if negb result.1 then ret []
     else
       let divs := catalogue_divs E result.2 in
       if negb (nonempty divs) then ret []
       else ret (sort_desc Auction.year (collect existing_urls divs)))
    (fun _ => ret []).

(** *** scrape_lot_details *)

(** The price text of a span, turned into the stored price. *)
Definition price_of_span (span_text : string) : option string :=
  match int_of E (replace "," "" span_text) with
  | Some price_num => Some (format_price price_num)
  | None => None
  end.

(** [for p in details_div.find_all("p")]: the loop stops at the first
    "Sold For:" paragraph that has a price span. *)
Fixpoint sold_for_price (paras : list para) : option string :=
  match paras with
  | [] => None
  | p :: rest =>
      if sold_for p then
        match price_spans p with
        | span :: _ => price_of_span span
        | [] => sold_for_price rest
        end
      else sold_for_price rest
  end.

(** [for p in description_div.find_all("p")], for "Result Hammer:". *)
Fixpoint result_hammer_price (paras : list para) : option string :=
  match paras with
  | [] => None
  | p :: rest =>
      if result_hammer p then
        match price_spans p with
        | span :: _ => price_of_span span
        | [] => result_hammer_price rest
        end
      else result_hammer_price rest
  end.

Definition find_sold_price (page : lot_page) : option string :=
  let sold_price :=
    match details_div page with
    | Some paras => sold_for_price paras
    | None => None
    end in
  match sold_price, description_div page with
  | None, Some d => result_hammer_price (description_paras d)
  | _, _ => sold_price
  end.

(** Artist, title, medium and size.  [title_p] is assigned only under
    [if description_div and artist_p]; with a description that has no
    [<p>], reading it in [if description_div and title_p] raises. *)
Definition describe (page : lot_page)
    : outcome (string * string * string * string) :=
  match description_div page with
  | None => Ok ("Unknown Artist", "Unknown Title", "Unknown Medium", "Not specified")
  | Some d =>
      match artist_p d with
      | None => Raise UnboundLocalError
      | Some ap =>
          let artist := artist_text ap in
          match title_p ap with
          | None => Ok (artist, "Unknown Title", "Unknown Medium", "Not specified")
          | Some tp =>
              let title := from_option id "Unknown Title" (italic tp) in
              match medium_size_lines tp with
              | None => Ok (artist, title, "Unknown Medium", "Not specified")
              | Some lines =>
                  let medium := from_option id "Unknown Medium" (lines !! 0) in
                  let size := from_option id "Not specified" (lines !! 1) in
                  Ok (artist, title, medium, size)
              end
          end
      end
  end.

Definition lot_of_page (lot_url : string) (page : lot_page)
    : Run (option Lot.t) :=
  match describe page with
  | Ok (artist, title, medium, size) =>
      match find_sold_price page with
      | None => ret None
      | Some sold_price =>
          ret (Some (Lot.mk artist title medium size [] (Some sold_price)
                       lot_url None))
      end
  | Raise e => raise e
  | Diverge => diverge
  end.

Definition scrape_lot_details (lot_url : string) : Run (option Lot.t) :=
  try_except
    (let lot_url :=
       if startswith "/" lot_url then urljoin E site_root lot_url
       else lot_url in
     let* result := arun W lot_url in
     if negb result.1 then ret None
     else lot_of_page lot_url (lot_page_of E result.2))
    (fun _ => ret None).

(** *** scrape_auction_details *)

(** [f"{base_url}?page={page}" if page > 1 else base_url] *)
Definition page_url (base_url : string) (page : nat) : string :=
  if decide (1 < page) then base_url +:+ "?page=" +:+ str page
  else base_url.

(** [soup.select_one("div.pageListingNav a[href*='page={}']".format(page + 1))] *)
Definition next_page (pg : auction_page) (page : nat) : bool :=
  existsb (contains ("page=" +:+ str (page + 1))) (nav_hrefs pg).

(** [for row in lot_rows]: one task per row that has a lot link. *)
Definition row_tasks (rows : list row) : list (Run (option Lot.t)) :=
  omap (fun r =>
          match lot_link r with
          | Some href => Some (scrape_lot_details (urljoin E site_root href))
          | None => None
          end) rows.

(** [[lot for lot in lot_details if lot and not isinstance(lot, Exception)]] *)
Definition valid_lots (lot_details : list (settled (option Lot.t))) : list Lot.t :=
  omap (fun r =>
          match r with
          | Returned (Some lot) => Some lot
          | _ => None
          end) lot_details.

(** The [while True] loop; [fuel] bounds the number of pages walked. *)
Fixpoint page_loop (fuel : nat) (base_url : string) (page : nat)
    (all_lots : list Lot.t) : Run (list Lot.t) :=
  match fuel with
  | O => diverge
  | S fuel' =>
      let url := page_url base_url page in
      let* result := arun W url in
      if negb result.1 then ret all_lots
      else
        let pg := auction_page_of E result.2 in
        if negb (nonempty (lot_rows pg)) then ret all_lots
        else
          let* lot_details :=
            gather_settled (row_tasks (lot_rows pg)) (completion W url) in
          let all_lots :=
            all_lots ++ (Lot.stamp base_url <$> valid_lots lot_details) in
          if negb (next_page pg page) then ret all_lots
          else page_loop fuel' base_url (page + 1) all_lots
  end.

(** The handler logs [base_url], which is bound once the dictionary has
    been read: the model is of calls on an auction dictionary of the
    store, as [main] makes them. *)
Definition scrape_auction_details (fuel : nat) (auction : loc) : Run bool :=
  try_except
    (let* a := deref auction in
     if nonempty (Auction.lots a) then ret true
     else
       let base_url := Auction.url a in
       let* all_lots := page_loop fuel base_url 1 [] in
       let* _ := assign_lots auction all_lots in
       ret true)
    (fun _ => ret false).

(** *** save_progress *)

Definition save_progress (auctions_data : list loc) : Run unit :=
  try_except
    (let* s := get_state in
     write_file W (view (heap s) auctions_data))
    (fun _ => ret tt).

(** *** main *)

(** The body of [for auction in new_auctions]. *)
Definition process_auction (fuel : nat) (auctions_data : list loc)
    (auction : loc) : Run unit :=
  let* success := scrape_auction_details fuel auction in
  save_progress auctions_data.

Definition main (fuel : nat) : Run unit :=
  let* loaded := load_existing_data in
  match loaded with
  | JAuctions records =>
      let* existing_data := alloc_all records in
      let existing_urls : gset string := list_to_set (Auction.url <$> records) in
      let* found := scrape_past_auctions results_url (Some existing_urls) in
      let* new_auctions := alloc_all found in
      let* auctions_data := sort_by_year (existing_data ++ new_auctions) in
      for_each new_auctions (process_auction fuel auctions_data)
  | JOther true =>
      (* nothing to iterate over in the set comprehension; discovery
         runs, then [existing_data + new_auctions] raises *)
      let* found := scrape_past_auctions results_url (Some ∅) in
      raise TypeError
  | _ => raise TypeError   (* [auction["url"]] raises in the set comprehension *)
  end.

End Script.
End Menzies.

(** ** deutscherandhackett_scraper.py *)

Module DH.

Definition site_root : string := "https://www.deutscherandhackett.com".
Definition past_url : string := "https://www.deutscherandhackett.com/auctions/past".

(** *** What the selectors find *)

(** An element that follows a year heading, up to the next [h3]. *)
Record sibling : Type := mkSibling {
  views_row : bool;                       (* "views-row" is among its classes *)
  auction_link : option (string * string);
      (* find("a", href=True): its href and its text *)
  location_div : option (option string);
      (* find("div", class_="field-name-field-auction-location"), and in it
         the text of find("div", class_="field-item") when there is one *)
  date_div : option (option string);      (* the same for the date span *)
  sale_div : option (option string)       (* the same for the sale number *)
}.

Record heading : Type := mkHeading {
  heading_text : string;                  (* get_text(strip=True).strip() *)
  siblings : list sibling
}.

(** A [div.views-row] of an auction page. *)
Record row : Type := mkRow {
  sold_price_div : bool;                  (* find("div", class_="field-price-sold") finds one *)
  lot_link : option string                (* the href of the first link to "/auction/lot/" *)
}.

(** A lot page: for each field, the text the script reads when the
    elements it looks for are there. *)
Record lot_page : Type := mkLotPage {
  artist_p : option string;
  title_div : option string;
  medium_p : option string;
  size_p : option string;
  signed_p : option string;
  provenance_p : option string;
  condition_p : option string;
  price_div : option string               (* find("div", class_="field-price-sold"), stripped text *)
}.

Record env : Type := mkEnv {
  isdigit : string -> bool;
  int_of : string -> option Z;            (* int(text); None for ValueError *)
  strip : string -> string;
  year_headings : string -> list heading; (* soup.select("h3") *)
  lot_rows : string -> list row;          (* soup.select("div.views-row") *)
  lot_page_of : string -> lot_page
}.

(** [s.split(sep)[0]] for a non-empty [sep]. *)
Fixpoint before (sep s : string) : string :=
  match s with
  | "" => ""
  | String c s' => if String.prefix sep s then "" else String c (before sep s')
  end.

Section Script.
Variable W : world.
Variable E : env.

(** *** scrape_past_auctions *)

(** [div.find(...).get_text(strip=True) if div else default] *)
Definition field_text (div : option (option string)) (default : string)
    : outcome string :=
  match div with
  | None => Ok default
  | Some (Some text) => Ok text
  | Some None => Raise AttributeError
  end.

(** One turn of the [while next_element] loop. *)
Definition visit_sibling (year : string) (auctions_data : list Auction.t)
    (el : sibling) : outcome (list Auction.t) :=
  if negb (views_row el) then Ok auctions_data
  else
    match auction_link el with
    | None => Ok auctions_data
    | Some (href, title) =>
        if contains "/auctions/past" href then Ok auctions_data
        else
          let url :=
            if startswith "/" href then site_root +:+ href else href in
          match field_text (location_div el) "No location found" with
          | Ok location =>
              match field_text (date_div el) "No date found" with
              | Ok date =>
                  match field_text (sale_div el) "No sale number found" with
                  | Ok sale_number =>
                      Ok (auctions_data ++
                            [Auction.mk url title year date
                               [("location", location);
                                ("sale_number", sale_number)] []])
                  | Raise e => Raise e
                  | Diverge => Diverge
                  end
              | Raise e => Raise e
              | Diverge => Diverge
              end
          | Raise e => Raise e
          | Diverge => Diverge
          end
    end.

Fixpoint visit_siblings (year : string) (auctions_data : list Auction.t)
    (els : list sibling) : outcome (list Auction.t) :=
  match els with
  | [] => Ok auctions_data
  | el :: rest =>
      match visit_sibling year auctions_data el with
      | Ok auctions_data' => visit_siblings year auctions_data' rest
      | other => other
      end
  end.

(** [for year_heading in year_headings], with its [break]. *)
Fixpoint visit_headings (auctions_data : list Auction.t)
    (hs : list heading) : outcome (list Auction.t) :=
  match hs with
  | [] => Ok auctions_data
  | h :: rest =>
      let year := heading_text h in
      let stop :=
        if isdigit E year then
          match int_of E year with
          | Some n => Ok (bool_decide (n ≤ 2014)%Z)
          | None => Raise ValueError
          end
        else Ok false in
      match stop with
      | Ok true => Ok auctions_data
      | Ok false =>
          match visit_siblings year auctions_data (siblings h) with
          | Ok auctions_data' => visit_headings auctions_data' rest
          | other => other
          end
      | Raise e => Raise e
      | Diverge => Diverge
      end
  end.

Definition lift {A} (o : outcome A) : Run A := fun s => (o, s).

Definition scrape_past_auctions (url : string) : Run (list Auction.t) :=
  try_except
    (let* result := arun W url in
     if negb result.1 then ret []
     else lift (visit_headings [] (year_headings E result.2)))
    (fun _ => ret []).

(** *** scrape_lot_details *)

Definition lot_of_page (lot_url : string) (page : lot_page) : option Lot.t :=
  let sold_price :=
    match price_div page with
    | Some text => Some (strip E (replace "Sold for" "" (before "in" text)))
    | None => None
    end in
  match sold_price with
  | Some price =>
      if truthy price then
        Some (Lot.mk
                (from_option id "Unknown Artist" (artist_p page))
                (from_option id "Unknown Title" (title_div page))
                (from_option id "Unknown Medium" (medium_p page))
                (from_option id "Not specified" (size_p page))
                [("signage", from_option id "No signage found" (signed_p page));
                 ("provenance", from_option id "Not specified" (provenance_p page));
                 ("condition", from_option id "Not specified" (condition_p page))]
                (Some price) lot_url None)
      else None
  | None => None
  end.

Definition scrape_lot_details (lot_url : string) : Run (option Lot.t) :=
  try_except
    (let lot_url :=
       if startswith "/" lot_url then site_root +:+ lot_url else lot_url in
     let* result := arun W lot_url in
     if negb result.1 then ret None
     else ret (lot_of_page lot_url (lot_page_of E result.2)))
    (fun _ => ret None).

(** *** scrape_auction_details *)

Definition row_tasks (rows : list row) : list (Run (option Lot.t)) :=
  omap (fun r =>
          if sold_price_div r then
            match lot_link r with
            | Some href => Some (scrape_lot_details href)
            | None => None
            end
          else None) rows.

Definition scrape_auction_details (auction : loc) : Run bool :=
  try_except
    (let* a := deref auction in
     if nonempty (Auction.lots a) then ret true
     else
       let* result := arun W (Auction.url a) in
       if negb result.1 then ret false
       else
         let* lot_details :=
           gather (row_tasks (lot_rows E result.2))
                  (completion W (Auction.url a)) in
         let* _ :=
           assign_lots auction
             (Lot.stamp (Auction.url a) <$> omap id lot_details) in
         ret true)
    (fun _ => ret false).

(** *** save_progress *)

Definition save_progress (auctions_data : list loc) : Run unit :=
  let* s := get_state in
  write_file W (view (heap s) auctions_data).

(** *** main *)

Definition process_auction (auctions_data : list loc) (auction : loc)
    : Run unit :=
  let* success := scrape_auction_details auction in
  save_progress auctions_data.

(** [json.load] of the output file, outside any [try]. *)
Definition read_file : Run json :=
  fun s =>
    match disk s with
    | NoFile | Unreadable => (Raise OSError, s)
    | Garbled => (Raise JSONDecodeError, s)
    | Json v => (Ok v, s)
    end.

Definition main : Run unit :=
  let* s := get_state in
  let* auctions_data :=
    match disk s with
    | NoFile =>
        let* found := scrape_past_auctions past_url in
        let* auctions_data := alloc_all found in
        let* _ := save_progress auctions_data in
        ret auctions_data
    | _ =>
        let* loaded := read_file in
        match loaded with
        | JAuctions records => alloc_all records
        | JOther true => ret []
        | _ => raise TypeError
        end
    end in
  for_each auctions_data (process_auction auctions_data).

End Script.
End DH.

(** ** individual_auction_scraper.py *)

Module Individual.

Definition auction_url : string :=
  "https://www.deutscherandhackett.com/81-important-australian-indigenous-art".

Definition auction : Auction.t :=
  Auction.mk auction_url
    "Beyond Sacred: Aboriginal Art, The Laverty Collection" "2015"
    "8 March 2015" [("location", "Sydney"); ("sale_number", "38")] [].

Section Script.
Variable W : world.
Variable E : DH.env.

(** [scrape_lot_details], [scrape_auction_details] and [save_progress] are
    those of deutscherandhackett_scraper.py; the detail stage logs one more
    warning. *)
Definition main : Run unit :=
  let* auction := alloc auction in
  let auctions_data := [auction] in
  let* success := DH.scrape_auction_details W E auction in
  DH.save_progress W auctions_data.

End Script.
End Individual.

(** ** json_to_csv.py *)

(** The body of the [with open(csv_filename, "w")] block, on a snapshot
    that is a list of objects.  Dictionaries are finite maps from keys to
    texts; the script reads them through [get] with the default [""], so a
    key that is absent and a key with an empty text give the same cell, and
    so does the [None] the [csv] module writes as an empty text.  The table
    is the list of the rows handed to the writer, each a list of cells. *)
Module CSV.

Definition auction_fields : list string :=
  ["url"; "title"; "year"; "location"; "date"; "sale_number"].

Definition lot_fields : list string :=
  ["artist"; "title"; "medium"; "size"; "signage"; "provenance"; "condition";
   "price"; "url"; "auctionUrl"].

Definition headers : list string := auction_fields ++ lot_fields.

(** The dictionaries as [json.load] gives them back. *)
Definition auction_dict (a : Auction.t) : gmap string string :=
  <["url" := Auction.url a]>
    (<["title" := Auction.title a]>
       (<["year" := Auction.year a]>
          (<["date" := Auction.date a]> (list_to_map (Auction.extra a))))).

Definition lot_dict (l : Lot.t) : gmap string string :=
  let named : gmap string string :=
    <["artist" := Lot.artist l]>
      (<["title" := Lot.title l]>
         (<["medium" := Lot.medium l]>
            (<["size" := Lot.size l]>
               (<["price" := from_option id "" (Lot.price l)]>
                  (<["url" := Lot.url l]> (list_to_map (Lot.extra l))))))) in
  match Lot.auctionUrl l with
  | Some u => <["auctionUrl" := u]> named
  | None => named
  end.

(** [d.get(field, "")] *)
Definition get (d : gmap string string) (field : string) : string :=
  from_option id "" (d !! field).

(** [{field: d.get(field, "") for field in fields}] *)
Definition pick (fields : list string) (d : gmap string string)
    : gmap string string :=
  list_to_map ((λ field, (field, get d field)) <$> fields).

(** [writer.writerow(row)]: one cell per header, in the order of the
    headers. *)
Definition cells (row : gmap string string) : list string :=
  get row <$> headers.

(** [for lot in auction.get("lots", [])], with
    [row = {**auction_base, **lot_data}]: the keys of the lot win. *)
Definition write_lots (auction_base : gmap string string)
    (written : list (list string)) (lots : list Lot.t) : list (list string) :=
  foldl (λ written lot,
           let lot_data := pick lot_fields (lot_dict lot) in
           written ++ [cells (lot_data ∪ auction_base)])
        written lots.

(** [for auction in auctions_data] *)
Definition write_auctions (written : list (list string))
    (auctions_data : list Auction.t) : list (list string) :=
  foldl (λ written auction,
           write_lots (pick auction_fields (auction_dict auction)) written
             (Auction.lots auction))
        written auctions_data.

(** [writer.writeheader()], then the loops. *)
Definition table_of (auctions_data : list Auction.t) : list (list string) :=
  write_auctions [headers] auctions_data.

End CSV.

(** ** Vocabulary of the statements *)

(** A store with [log] more fetches and nothing else changed. *)
Definition add_fetched (log : list string) (s : state) : state :=
  mkState (heap s) (fetched s ++ log) (disk s) (saves s).

(** [m] ends with [r] from every store, and all it does to the store is
    fetch. *)
Definition returns {A} (m : Run A) (r : outcome A) : Prop :=
  ∃ log, ∀ s, m s = (r, add_fetched log s).

(** The empty store, and the lot a task yields when it runs on its own. *)
Definition blank : state := mkState [] [] NoFile [].

Definition yield {A} (task : Run (option A)) : option A :=
  match (task blank).1 with
  | Ok v => v
  | _ => None
  end.

(** The outcome of a task that has finished. *)
Definition outcome_of {A} (v : settled A) : outcome A :=
  match v with
  | Returned a => Ok a
  | Raised e => Raise e
  end.

(** The world in which lot fetches finish in the order of their rows. *)
Definition orderly (fetch : string -> fetch_result) : world :=
  mkWorld fetch (λ _, []) (λ _, Written).

(** A result slot of a fan-out is empty or holds the result of its own
    task; [filled] says the slot at a position is no longer empty. *)
Definition slot_for {A} (slot : option A) (v : A) : Prop :=
  slot = None ∨ slot = Some v.

Definition filled {A} (slots : list (option A)) (i : nat) : Prop :=
  ∃ v, slots !! i = Some (Some v).

(** The dictionary at a location after a call. *)
Definition record_at {A} (r : loc) (res : outcome A * state) : option Auction.t :=
  heap res.2 !! r.

(** Descending order of the keys, and of the years of auctions. *)
Definition key_desc {A} (key : A -> string) (a b : A) : Prop :=
  String.le (key b) (key a).

Definition year_desc : Auction.t -> Auction.t -> Prop := key_desc Auction.year.

(** The same on the years read as numbers: the year of [a] is not before
    the year of [b]. *)
Definition not_before (a b : Auction.t) : Prop :=
  ∃ n m, Auction.year a = str n ∧ Auction.year b = str m ∧ m ≤ n.

(** A lot as the detail stage must leave it in the auction at [auction_url]:
    a price that is there and not empty, and the back-reference. *)
Definition lot_ok (auction_url : string) (l : Lot.t) : Prop :=
  (∃ p, Lot.price l = Some p ∧ p ≠ "") ∧ Lot.auctionUrl l = Some auction_url.

Definition lots_ok (a : Auction.t) : Prop :=
  Forall (lot_ok (Auction.url a)) (Auction.lots a).

Module MenziesSpec.
Import Menzies.

(** How the crawler's answers [fetch] shape the walk over the pages of an
    auction from [page] on: the pages whose rows are read, and whether the
    walk ends without an exception. *)
Inductive walk (fetch : string -> fetch_result) (E : env) (base_url : string)
    : nat -> list string -> bool -> Prop :=
| walk_raises page :
    fetch (page_url base_url page) = FetchRaises ->
    walk fetch E base_url page [] false
| walk_failed page html :
    fetch (page_url base_url page) = Fetched false html ->
    walk fetch E base_url page [] true
| walk_no_rows page html :
    fetch (page_url base_url page) = Fetched true html ->
    lot_rows (auction_page_of E html) = [] ->
    walk fetch E base_url page [] true
| walk_last page html :
    fetch (page_url base_url page) = Fetched true html ->
    lot_rows (auction_page_of E html) ≠ [] ->
    next_page (auction_page_of E html) page = false ->
    walk fetch E base_url page [html] true
| walk_next page html htmls completes :
    fetch (page_url base_url page) = Fetched true html ->
    lot_rows (auction_page_of E html) ≠ [] ->
    next_page (auction_page_of E html) page = true ->
    walk fetch E base_url (page + 1) htmls completes ->
    walk fetch E base_url page (html :: htmls) completes.

Section Vocabulary.
Variable W : world.
Variable E : env.

(** The catalogues of the results page as the crawler delivers it. *)
Definition listing (url : string) : list catalogue :=
  match site W url with
  | Fetched true html => catalogue_divs E html
  | _ => []
  end.

(** A catalogue that passes the three guards of the loop. *)
Definition kept (existing_urls : gset string) (c : catalogue) : bool :=
  in_valid_years (resolve_year E c)
  && truthy (link_url E c)
  && negb (bool_decide (link_url E c ∈ existing_urls)).

Definition record_of (c : catalogue) : Auction.t :=
  new_record c (from_option id "" (resolve_year E c)) (link_url E c).

(** The lots one auction page contributes: for each row with a lot
    link, in row order, what its task yields on its own. *)
Definition page_lots (base_url html : string) : list Lot.t :=
  Lot.stamp base_url <$>
    omap yield (row_tasks W E (lot_rows (auction_page_of E html))).

(** The dictionary of an auction once the detail stage has run on it
    alone. *)
Definition finished (fuel : nat) (a : Auction.t) : Auction.t :=
  from_option id a
    (record_at 0 (scrape_auction_details W E fuel 0
                    (mkState [a] [] NoFile []))).

(** The detail stage comes back for an auction within [fuel] pages. *)
Definition settles (fuel : nat) (a : Auction.t) : Prop :=
  (scrape_auction_details W E fuel 0 (mkState [a] [] NoFile [])).1 ≠ Diverge.

(** The walk over the pages of an auction reads fewer than [fuel] pages. *)
Definition bounded (fuel : nat) (a : Auction.t) : Prop :=
  ∃ htmls completes,
    walk (site W) E (Auction.url a) 1 htmls completes ∧ length htmls < fuel.

(** What discovery returns in a run that loaded [records]. *)
Definition discovered (records : list Auction.t) : list Auction.t :=
  sort_desc Auction.year
    (collect E (list_to_set (Auction.url <$> records))
       (listing results_url)).

(** The store of a run after [k] of the auctions [found] have been
    through the detail stage, above the dictionaries [pre] that were
    there before, and the collection at that moment. *)
Definition heap_after (fuel : nat) (pre found : list Auction.t) (k : nat)
    : list Auction.t :=
  pre ++ (finished fuel <$> take k found) ++ drop k found.

Definition collection_after (fuel : nat) (records found : list Auction.t)
    (k : nat) : list Auction.t :=
  sort_desc Auction.year
    (records ++ (finished fuel <$> take k found) ++ drop k found).

(** The output file holds the collection of the last call of
    [save_progress], if its write went through. *)
Definition last_save_on_disk (s : state) : Prop :=
  ∀ snap,
    last (saves s) = Some snap ->
    write W (length (saves s) - 1) = Written ->
    disk s = Json (JAuctions snap).

End Vocabulary.
End MenziesSpec.

Module DHSpec.
Import DH.

Section Vocabulary.
Variable W : world.
Variable E : env.

(** The lots the auction page contributes, in row order. *)
Definition page_lots (base_url html : string) : list Lot.t :=
  Lot.stamp base_url <$> omap yield (row_tasks W E (lot_rows E html)).

End Vocabulary.
End DHSpec.

(** Whole runs and discovery on deutscherandhackett_scraper.py. *)
Module DHRun.
Import DH.

Section Vocabulary.
Variable W : world.
Variable E : env.

(** A heading at which the loop over the headings stops, and one whose
    rows it reads. *)
Definition stops (h : heading) : Prop :=
  isdigit E (heading_text h) = true
  ∧ ∃ n, int_of E (heading_text h) = Some n ∧ (n ≤ 2014)%Z.

Definition passes (h : heading) : Prop :=
  isdigit E (heading_text h) = false
  ∨ ∃ n, int_of E (heading_text h) = Some n ∧ (2014 < n)%Z.

(** A row with a link the loop accepts, in which one of the three fields
    is there without the element that holds its text. *)
Definition malformed (el : sibling) : Prop :=
  views_row el = true
  ∧ (∃ href title,
       auction_link el = Some (href, title)
       ∧ contains "/auctions/past" href = false)
  ∧ (location_div el = Some None
     ∨ date_div el = Some None
     ∨ sale_div el = Some None).

(** What holds of every record of a discovery over the headings [hs]. *)
Definition record_ok (hs : list heading) (a : Auction.t) : Prop :=
  Auction.lots a = []
  ∧ startswith "/" (Auction.url a) = false
  ∧ (fst <$> Auction.extra a) = ["location"; "sale_number"]
  ∧ ∃ h, h ∈ hs ∧ Auction.year a = heading_text h ∧ ¬ stops h.

(** What discovery returns. *)
Definition discovered : list Auction.t :=
  match (scrape_past_auctions W E past_url blank).1 with
  | Ok found => found
  | _ => []
  end.

(** The dictionary of an auction once the detail stage has run on it
    alone. *)
Definition finished (a : Auction.t) : Auction.t :=
  from_option id a
    (record_at 0 (scrape_auction_details W E 0 (mkState [a] [] NoFile []))).

(** The collection after [k] of its auctions have been through the detail
    stage. *)
Definition collection_after (found : list Auction.t) (k : nat)
    : list Auction.t :=
  (finished <$> take k found) ++ drop k found.

End Vocabulary.
End DHRun.

(** The rows of json_to_csv.py. *)
Module CSVSpec.
Import CSV.

(** The cells written for a lot of an auction. *)
Definition row_of (a : Auction.t) (l : Lot.t) : list string :=
  cells (pick lot_fields (lot_dict l) ∪ pick auction_fields (auction_dict a)).

(** The text under a key among the keys only one site has. *)
Definition extra_text (extra : list (string * string)) (key : string) : string :=
  from_option id "" (list_to_map (M := gmap string string) extra !! key).

End CSVSpec.

(** ** A small site to run the scripts on *)

Module Sample.

(** Stand-ins for the library functions, good for the texts below:
    [urljoin] for hrefs that are absolute paths or absolute URLs, [int]
    for strings of decimal digits, the year pattern for texts in which a
    year of the range does not touch another word character. *)
Definition urljoin (base href : string) : string :=
  if startswith "/" href then base +:+ href else href.

Fixpoint digits (s : string) (acc : Z) : option Z :=
  match s with
  | "" => Some acc
  | String c s' =>
      let n := nat_of_ascii c in
      if (48 <=? n) && (n <=? 57)
      then digits s' (10 * acc + Z.of_nat (n - 48))%Z
      else None
  end.

Definition int_of (s : string) : option Z :=
  if truthy s then digits s 0 else None.

Definition year_search (text : string) : option string :=
  List.find (fun y => contains y text) (str <$> range 2015 2026).

Definition root : string := Menzies.site_root.
Definition url_a : string := root +:+ "/catalogue-details/a".
Definition url_c : string := root +:+ "/catalogue-details/c".

(** The results page: sales of 2016, 2012 and 2020. *)
Definition catalogue_of (date title href : string) : Menzies.catalogue :=
  Menzies.mkCatalogue (Some date) None None None title (Some title) None None
    (Some "Sale Total: $5,000") None (Some href) None.

Definition menzies_catalogues : list Menzies.catalogue :=
  [catalogue_of "12 May 2016" "Sale A" "/catalogue-details/a";
   catalogue_of "3 March 2012" "Sale B" "/catalogue-details/b";
   catalogue_of "7 June 2020" "Sale C" "/catalogue-details/c"].

(** Sale A has two pages: five rows, then two. *)
Definition menzies_auction_page (html : string) : Menzies.auction_page :=
  if String.eqb html "a-1" then
    Menzies.mkAuctionPage
      (Menzies.mkRow ∘ Some <$>
         ["/items/1"; "/items/2"; "/items/3"; "/items/4"; "/items/5"])
      ["/catalogue-details/a?page=2"]
  else if String.eqb html "a-2" then
    Menzies.mkAuctionPage
      (Menzies.mkRow ∘ Some <$> ["/items/6"; "/items/7"])
      ["/catalogue-details/a?page=1"]
  else Menzies.mkAuctionPage [] [].

(** A lot page with a "Sold For:" price; the page of lot 7 has none. *)
Definition menzies_lot_page (html : string) : Menzies.lot_page :=
  Menzies.mkLotPage
    (Some (Menzies.mkDescription
             (Some (Menzies.mkArtistPara ("Artist of " +:+ html)
                      (Some (Menzies.mkTitlePara (Some ("Title of " +:+ html))
                               (Some ["oil on canvas"; "50 x 60 cm"])))))
             []))
    (Some [Menzies.mkPara false false [];
           Menzies.mkPara true false
             (if String.eqb html "lot-7" then [] else ["1,200"])]).

Definition menzies_env : Menzies.env :=
  Menzies.mkEnv urljoin int_of year_search
    (fun _ => menzies_catalogues) menzies_auction_page menzies_lot_page.

(** The crawler on a good day: everything is delivered but lot 3, whose
    fetch raises, and sale C, whose page cannot be fetched at all. *)
Definition pages : list (string * fetch_result) :=
  [(Menzies.results_url, Fetched true "results");
   (url_a, Fetched true "a-1");
   (url_a +:+ "?page=2", Fetched true "a-2");
   (root +:+ "/items/1", Fetched true "lot-1");
   (root +:+ "/items/2", Fetched true "lot-2");
   (root +:+ "/items/4", Fetched true "lot-4");
   (root +:+ "/items/5", Fetched true "lot-5");
   (root +:+ "/items/6", Fetched true "lot-6");
   (root +:+ "/items/7", Fetched true "lot-7")].

Definition lookup_page (table : list (string * fetch_result)) (url : string)
    : fetch_result :=
  match List.find (fun p => String.eqb p.1 url) table with
  | Some p => p.2
  | None => FetchRaises
  end.

Definition healthy : string -> fetch_result := lookup_page pages.

(** The same day, but the second page of sale A comes back as a failure. *)
Definition flaky : string -> fetch_result :=
  lookup_page ((url_a +:+ "?page=2", Fetched false "") :: pages).

(** Lot fetches finish last-submitted first; every write goes through. *)
Definition reversed (_ : string) : list nat := [4; 3; 2; 1; 0].
Definition in_order (_ : string) : list nat := [].
Definition all_written (_ : nat) : write_result := Written.

Definition sale (url title year date : string) (lots : list Lot.t)
    : Auction.t :=
  Auction.mk url title year date [("sale_total", "$5,000")] lots.

Definition lot_of (n : string) : Lot.t :=
  Lot.mk ("Artist of lot-" +:+ n) ("Title of lot-" +:+ n) "oil on canvas"
    "50 x 60 cm" [] (Some "$1,200") (root +:+ "/items/" +:+ n) (Some url_a).

Definition store (h : list Auction.t) : state := mkState h [] NoFile [].

Definition good_day : world := mkWorld healthy reversed all_written.
Definition bad_day : world := mkWorld flaky reversed all_written.

(** Sale A and sale C as discovery records them, the lots of sale A, and
    a sale of an earlier run. *)
Definition sale_a : Auction.t := sale url_a "Sale A" "2016" "12 May 2016" [].
Definition sale_c : Auction.t := sale url_c "Sale C" "2020" "7 June 2020" [].

Definition first_page_lots : list Lot.t :=
  [lot_of "1"; lot_of "2"; lot_of "4"; lot_of "5"].
Definition all_lots : list Lot.t := first_page_lots ++ [lot_of "6"].

Definition old_sale : Auction.t :=
  sale (root +:+ "/catalogue-details/old") "Old sale" "2018" "1 May 2018"
    [Lot.mk "An artist" "A title" "oil" "1 x 1 cm" [] (Some "$10")
       (root +:+ "/items/0") (Some (root +:+ "/catalogue-details/old"))].

(** The output file of a run that was stopped after its first save:
    sale C has failed, sale A has not had its turn; both are in the file,
    without lots. *)
Definition interrupted : state :=
  mkState [] [] (Json (JAuctions [sale_c; old_sale; sale_a])) [].

Definition resumed : state :=
  mkState [] [] (Json (JAuctions [old_sale])) [].

(** A Deutscher and Hackett auction page with three rows, two of them
    sold, and the lot pages behind them. *)
Definition strip_spaces (s : string) : string :=
  let fix lstrip s :=
    match s with
    | String " " s' => lstrip s'
    | _ => s
    end in
  String.rev (lstrip (String.rev (lstrip s))).

Definition dh_env : DH.env :=
  DH.mkEnv (fun s => match int_of s with Some _ => true | None => false end)
    int_of strip_spaces
    (fun _ => [])
    (fun _ => [DH.mkRow true (Some "/auction/lot/1");
               DH.mkRow false (Some "/auction/lot/2");
               DH.mkRow true (Some "/auction/lot/3")])
    (fun html =>
       DH.mkLotPage (Some ("Artist of " +:+ html)) (Some "A title") None None
         None None None (Some "Sold for $2,440 in Melbourne")).

Definition dh_url : string := DH.site_root +:+ "/81-important-art".

Definition dh_sale : Auction.t :=
  Auction.mk dh_url "Important art" "2015" "8 March 2015"
    [("location", "Sydney"); ("sale_number", "38")] [].

Definition dh_lot : Lot.t :=
  Lot.mk "Artist of lot-1" "A title" "Unknown Medium" "Not specified"
    [("signage", "No signage found"); ("provenance", "Not specified");
     ("condition", "Not specified")]
    (Some "$2,440") (DH.site_root +:+ "/auction/lot/1") (Some dh_url).

Definition dh_interrupted : state :=
  mkState [] [] (Json (JAuctions [dh_sale])) [].

Definition dh_pages : string -> fetch_result :=
  lookup_page
    [(dh_url, Fetched true "auction");
     (DH.site_root +:+ "/auction/lot/1", Fetched true "lot-1");
     (DH.site_root +:+ "/auction/lot/3", Fetched false "")].

Definition dh_day : world := mkWorld dh_pages reversed all_written.

End Sample.

(** ** Pages and files for the edge cases *)

Module Edge.
Import Sample.

(** A catalogue without a date line, filed under the anchor of 2014, whose
    own text names 2016. *)
Definition misfiled : Menzies.catalogue :=
  Menzies.mkCatalogue None (Some "year-2014") (Some "Results 2016") None
    "Sale of 2016" (Some "Sale D") None None None None
    (Some "/catalogue-details/d") None.

(** A lot page whose description has no paragraph, with a price among the
    details. *)
Definition bare_description : Menzies.lot_page :=
  Menzies.mkLotPage (Some (Menzies.mkDescription None []))
    (Some [Menzies.mkPara true false ["3,500"]]).

(** A lot page whose first "Sold For:" span is not a number; a later one
    is, and the description has a "Result Hammer:" price. *)
Definition mistyped_price : Menzies.lot_page :=
  Menzies.mkLotPage
    (Some (Menzies.mkDescription
             (Some (Menzies.mkArtistPara "An artist" None))
             [Menzies.mkPara false true ["900"]]))
    (Some [Menzies.mkPara true false [];
           Menzies.mkPara true false ["POA"; "1,000"];
           Menzies.mkPara true false ["2,000"]]).

Definition edge_env (page : Menzies.lot_page) : Menzies.env :=
  Menzies.mkEnv urljoin int_of year_search (fun _ => []) menzies_auction_page
    (fun _ => page).

Definition delivers (html : string) : world :=
  mkWorld (fun _ => Fetched true html) in_order all_written.

Definition down : world :=
  mkWorld (fun _ => Fetched false "") in_order all_written.

(** A disk on which [json.dump] fails, and an output file that holds
    an empty JSON object. *)
Definition disk_full : world := mkWorld healthy in_order (fun _ => DumpFails).
Definition not_a_list : state := mkState [] [] (Json (JOther true)) [].

(** A past-auctions page of Deutscher and Hackett: a heading for 2016,
    one for 2014, and after it one for 2015. *)
Definition dh_row (href title : string) : DH.sibling :=
  DH.mkSibling true (Some (href, title)) (Some (Some "Melbourne"))
    (Some (Some "1 May 2016")) (Some (Some "44")).

Definition dh_broken_row : DH.sibling :=
  DH.mkSibling true (Some ("/broken", "Broken")) (Some None) None None.

Definition dh_headings : list DH.heading :=
  [DH.mkHeading "2016" [dh_row "/sale-44" "Sale 44"];
   DH.mkHeading "2014" [dh_row "/sale-30" "Sale 30"];
   DH.mkHeading "2015" [dh_row "/sale-38" "Sale 38"]].

Definition dh_broken_headings : list DH.heading :=
  [DH.mkHeading "2016"
     [dh_row "/sale-44" "Sale 44"; dh_broken_row; dh_row "/sale-45" "Sale 45"]].

Definition dh_env_with (hs : list DH.heading) : DH.env :=
  DH.mkEnv (DH.isdigit dh_env) (DH.int_of dh_env) (DH.strip dh_env)
    (fun _ => hs) (DH.lot_rows dh_env) (DH.lot_page_of dh_env).

Definition dh_sale_44 : Auction.t :=
  Auction.mk (DH.site_root +:+ "/sale-44") "Sale 44" "2016" "1 May 2016"
    [("location", "Melbourne"); ("sale_number", "44")] [].

Definition dh_disk_locked : world :=
  mkWorld dh_pages in_order (fun _ => OpenFails).
End Edge.

(** ** Sorting *)

Section Sorting.
Context {A : Type} (key : A -> string).

Lemma ltb_false_le (x y : string) : String.ltb x y = false -> String.le y x.
Proof.
  unfold String.ltb, String.le, String.leb.
  rewrite (String.compare_antisym y x).
  destruct (String.compare x y); simpl; intros; done.
Qed.

Lemma ltb_true_le (x y : string) : String.ltb x y = true -> String.le x y.
Proof.
  unfold String.ltb, String.le, String.leb.
  destruct (String.compare x y); simpl; intros; done.
Qed.

Lemma ltb_true_ne (x y : string) : String.ltb x y = true -> x ≠ y.
Proof.
  unfold String.ltb. intros H ->.
  pose proof (String.compare_antisym y y) as Ha.
  destruct (String.compare y y); done.
Qed.

Lemma insert_desc_perm (x : A) (l : list A) : insert_desc key x l ≡ₚ x :: l.
Proof.
  induction l as [|y l IH]; simpl; [done|].
  destruct (String.ltb (key x) (key y)); [|done].
  rewrite IH. apply Permutation_swap.
Qed.

Lemma sort_desc_perm (l : list A) : sort_desc key l ≡ₚ l.
Proof.
  induction l as [|x l IH]; simpl; [done|].
  unfold sort_desc in *. simpl. rewrite insert_desc_perm. by rewrite IH.
Qed.

Lemma insert_desc_sorted (x : A) (l : list A) :
  StronglySorted (key_desc key) l ->
  StronglySorted (key_desc key) (insert_desc key x l).
Proof.
  induction 1 as [|y l Hs IH Hall]; simpl.
  - repeat constructor.
  - destruct (String.ltb (key x) (key y)) eqn:Hlt.
    + constructor; [done|].
      rewrite insert_desc_perm. constructor; [|done].
      by apply ltb_true_le.
    + constructor; [by constructor|].
      assert (key_desc key x y) as Hxy by (by apply ltb_false_le).
      constructor; [done|].
      eapply Forall_impl; [exact Hall|].
      intros z Hz. unfold key_desc in *. by etrans.
Qed.

Lemma sort_desc_sorted (l : list A) :
  StronglySorted (key_desc key) (sort_desc key l).
Proof.
  induction l as [|x l IH]; [constructor|].
  by apply insert_desc_sorted.
Qed.

(** Elements with the same key keep their order. *)
Lemma insert_desc_stable (k : string) (x : A) (l : list A) :
  filter (λ a, key a = k) (insert_desc key x l)
  = filter (λ a, key a = k) (x :: l).
Proof.
  induction l as [|y l IH]; simpl; [done|].
  destruct (String.ltb (key x) (key y)) eqn:Hlt; [|done].
  apply ltb_true_ne in Hlt.
  rewrite (filter_cons _ y), IH, !filter_cons.
  repeat case_decide; congruence.
Qed.

Lemma sort_desc_stable (k : string) (l : list A) :
  filter (λ a, key a = k) (sort_desc key l) = filter (λ a, key a = k) l.
Proof.
  induction l as [|x l IH]; [done|].
  unfold sort_desc in *. simpl.
  rewrite insert_desc_stable, !filter_cons, IH. done.
Qed.

Lemma sort_desc_cons (x : A) (l : list A) :
  sort_desc key (x :: l) = insert_desc key x (sort_desc key l).
Proof. reflexivity. Qed.

Lemma insert_desc_fmap {B} (f : B -> A) (x : B) (m : list B) :
  f <$> insert_desc (key ∘ f) x m = insert_desc key (f x) (f <$> m).
Proof.
  induction m as [|y m IHm]; [done|].
  rewrite fmap_cons. simpl.
  destruct (String.ltb (key (f x)) (key (f y))); [|done].
  by rewrite fmap_cons, IHm.
Qed.

Lemma sort_desc_fmap {B} (f : B -> A) (l : list B) :
  f <$> sort_desc (key ∘ f) l = sort_desc key (f <$> l).
Proof.
  induction l as [|x l IH]; [done|].
  rewrite fmap_cons, (sort_desc_cons (f x)), <- IH, <- insert_desc_fmap.
  done.
Qed.

End Sorting.

Lemma filter_none {A} (P : A -> Prop) `{!∀ x, Decision (P x)} (l : list A) :
  (∀ x, x ∈ l -> ¬ P x) -> filter P l = [].
Proof.
  induction l as [|x l IH]; intros Hl; [done|].
  rewrite filter_cons_False by (apply Hl; left).
  apply IH. intros y Hy. apply Hl. by right.
Qed.

(** ** Discovery: [Menzies.scrape_past_auctions] *)

Section Discovery.
Import Menzies MenziesSpec.
Context (W : world) (E : env).

Lemma truthy_ne (s : string) : truthy s = true ↔ s ≠ "".
Proof.
  unfold truthy. rewrite negb_true_iff.
  destruct (String.eqb_spec s ""); split; intros; congruence.
Qed.

(** The loop appends, in document order, the records of the catalogues
    that pass its guards. *)
Lemma visit_catalogue_kept K acc c :
  visit_catalogue E K acc c
  = if kept E K c then acc ++ [record_of E c] else acc.
Proof.
  unfold visit_catalogue, kept, record_of.
  destruct (in_valid_years (resolve_year E c)); simpl; [|done].
  destruct (truthy (link_url E c)); simpl; [|done].
  by destruct (bool_decide (link_url E c ∈ K)).
Qed.

Lemma collect_from K acc divs :
  foldl (visit_catalogue E K) acc divs
  = acc ++ (record_of E <$> filter (λ c, kept E K c) divs).
Proof.
  revert acc. induction divs as [|c divs IH]; intros acc; simpl.
  - by rewrite app_nil_r.
  - rewrite IH, visit_catalogue_kept, filter_cons.
    destruct (kept E K c) eqn:Hk.
    + rewrite decide_True by done. by rewrite fmap_cons, <- app_assoc.
    + rewrite decide_False; [done|]. intros [].
Qed.

Lemma collect_kept K divs :
  collect E K divs = record_of E <$> filter (λ c, kept E K c) divs.
Proof. unfold collect. by rewrite collect_from. Qed.

(** What the stage returns, in terms of the page as delivered. *)
Lemma scrape_past_auctions_listing url K s :
  ∃ s',
    scrape_past_auctions W E url K s
    = (Ok (sort_desc Auction.year
             (collect E (from_option id ∅ K) (listing W E url))), s').
Proof.
  unfold scrape_past_auctions, listing, try_except, bind, arun.
  destruct (site W url) as [|[] html]; simpl; eauto.
  destruct (catalogue_divs E html); simpl; eauto.
Qed.

Lemma in_valid_years_range year :
  in_valid_years year = true ->
  ∃ y n, year = Some y ∧ y = str n ∧ (2015 ≤ n ≤ 2025).
Proof.
  destruct year as [y|]; simpl; [|done].
  rewrite bool_decide_eq_true. unfold valid_years, range.
  rewrite elem_of_list_to_set, list_elem_of_fmap.
  intros (n & -> & Hn%elem_of_seq). exists (str n), n.
  split_and!; [done|done|lia|lia].
Qed.

Lemma kept_record K c :
  kept E K c = true ->
  (∃ n, 2015 ≤ n ≤ 2025 ∧ Auction.year (record_of E c) = str n)
  ∧ Auction.url (record_of E c) ≠ ""
  ∧ (Auction.url (record_of E c) ∉ K)
  ∧ Auction.lots (record_of E c) = [].
Proof.
  unfold kept. rewrite !andb_true_iff, negb_true_iff, bool_decide_eq_false.
  intros [[Hy Hu] HK]. apply in_valid_years_range in Hy as (y & n & Hy & -> & Hn).
  unfold record_of. rewrite Hy. simpl. split_and!; [eauto|by apply truthy_ne|done|done].
Qed.

Lemma elem_of_collect K divs a :
  a ∈ collect E K divs ↔ ∃ c, c ∈ divs ∧ kept E K c = true ∧ a = record_of E c.
Proof.
  rewrite collect_kept, list_elem_of_fmap. split.
  - intros (c & -> & Hc%list_elem_of_filter). destruct Hc as [Hk Hc].
    exists c. split_and!; [done| |done]. by destruct (kept E K c).
  - intros (c & Hc & Hk & ->). exists c. split; [done|].
    apply list_elem_of_filter. split; [by rewrite Hk|done].
Qed.

(** C3.  Whatever the set of known URLs and whatever the results page,
    discovery returns records whose URL is not among the known ones; and
    run again on the same page with the URLs it returned added to the
    known ones, it returns nothing. *)
Theorem discovery_idempotent
    (url : string) (existing_urls : option (gset string)) (s : state) :
  ∃ out s',
    scrape_past_auctions W E url existing_urls s = (Ok out, s')
    ∧ (∀ a, a ∈ out -> Auction.url a ∉ from_option id ∅ existing_urls)
    ∧ ∀ s2,
        (scrape_past_auctions W E url
           (Some (list_to_set (Auction.url <$> out)
                    ∪ from_option id ∅ existing_urls)) s2).1
        = Ok [].
Proof.
  set (K := from_option id ∅ existing_urls).
  destruct (scrape_past_auctions_listing url existing_urls s) as [s' Hrun].
  fold K in Hrun. eexists _, s'. split; [exact Hrun|]. split.
  - intros a. rewrite sort_desc_perm, elem_of_collect.
    intros (c & _ & Hk & ->). by apply kept_record in Hk as (_ & _ & ? & _).
  - intros s2.
    destruct (scrape_past_auctions_listing url
                (Some (list_to_set
                         (Auction.url <$>
                            sort_desc Auction.year (collect E K (listing W E url)))
                       ∪ K)) s2) as [s2' ->].
    simpl. set (K' := _ ∪ K).
    assert (filter (λ c, kept E K' c) (listing W E url) = []) as Hnone.
    { apply filter_none. intros c Hc Hk'.
      destruct (kept E K' c) eqn:Hkept; [|done].
      destruct (kept E K c) eqn:HkeptK.
      - apply kept_record in Hkept as (_ & _ & Hnot & _). apply Hnot.
        apply elem_of_union_l, elem_of_list_to_set, list_elem_of_fmap.
        exists (record_of E c). split; [done|].
        rewrite sort_desc_perm. apply elem_of_collect. eauto.
      - unfold kept in *.
        apply andb_true_iff in Hkept as [Hyu Hnot].
        rewrite Hyu in HkeptK. simpl in HkeptK.
        apply negb_true_iff, bool_decide_eq_false in Hnot.
        apply negb_false_iff, bool_decide_eq_true in HkeptK.
        apply Hnot, elem_of_union_r, HkeptK. }
    by rewrite collect_kept, Hnone.
Qed.

(** For the years of the range, the order of the strings is the order of
    the numbers. *)
Lemma year_strings_ordered n m :
  2015 ≤ n ≤ 2025 -> 2015 ≤ m ≤ 2025 -> String.le (str m) (str n) -> m ≤ n.
Proof.
  assert (List.forallb
            (λ n, List.forallb
                    (λ m, implb (String.leb (str m) (str n)) (m <=? n))
                    (seq 2015 11))
            (seq 2015 11) = true) as Hall by (vm_compute; reflexivity).
  intros Hn Hm Hle. rewrite List.forallb_forall in Hall.
  specialize (Hall n). rewrite List.forallb_forall in Hall.
  assert (implb (String.leb (str m) (str n)) (m <=? n) = true) as Himp.
  { apply Hall; apply in_seq; lia. }
  unfold String.le in Hle. destruct (String.leb (str m) (str n)); [|done].
  simpl in Himp. by apply Nat.leb_le.
Qed.

Lemma StronglySorted_among {A} (R R' : A -> A -> Prop) (P : A -> Prop) l :
  StronglySorted R l ->
  Forall P l ->
  (∀ x y, P x -> P y -> R x y -> R' x y) ->
  StronglySorted R' l.
Proof.
  intros Hs Hp Himp. induction Hs as [|x l Hs IH Hx]; [constructor|].
  apply Forall_cons in Hp as [Hpx Hpl]. constructor; [by apply IH|].
  apply Forall_forall. intros y Hy.
  apply Himp; [done| |].
  - by eapply Forall_forall in Hpl.
  - by eapply Forall_forall in Hx.
Qed.

(** C8.  Each record discovery returns has a year between 2015 and 2025,
    a URL that is not empty and no lots; a catalogue whose year is not
    resolved, is out of that range, or that has no URL adds nothing to the
    list; and the records come back by descending year (as strings, and so
    as numbers), those of one year in the order of their catalogues on the
    page. *)
Theorem discovery_output
    (url : string) (existing_urls : option (gset string)) (s : state) :
  ∃ out s',
    scrape_past_auctions W E url existing_urls s = (Ok out, s')
    ∧ (∀ a, a ∈ out ->
         (∃ n, 2015 ≤ n ≤ 2025 ∧ Auction.year a = str n)
         ∧ Auction.url a ≠ "" ∧ Auction.lots a = [])
    ∧ (∀ c acc,
         resolve_year E c = None
         ∨ (∃ y, resolve_year E c = Some y ∧ ¬ ∃ n, 2015 ≤ n ≤ 2025 ∧ y = str n)
         ∨ link_url E c = "" ->
         visit_catalogue E (from_option id ∅ existing_urls) acc c = acc)
    ∧ StronglySorted year_desc out
    ∧ StronglySorted not_before out
    ∧ ∀ y,
        filter (λ a, Auction.year a = y) out
        = filter (λ a, Auction.year a = y)
            (record_of E <$>
               filter (λ c, kept E (from_option id ∅ existing_urls) c)
                 (listing W E url)).
Proof.
  set (K := from_option id ∅ existing_urls).
  destruct (scrape_past_auctions_listing url existing_urls s) as [s' Hrun].
  fold K in Hrun. eexists _, s'. split; [exact Hrun|]. split_and!.
  - intros a. rewrite sort_desc_perm, elem_of_collect.
    intros (c & _ & Hk & ->). apply kept_record in Hk. tauto.
  - intros c acc Hc. rewrite visit_catalogue_kept.
    destruct (kept E K c) eqn:Hk; [|done]. exfalso.
    pose proof Hk as (Hy & Hu & _)%kept_record.
    unfold kept in Hk. apply andb_true_iff in Hk as [[Hk _]%andb_true_iff _].
    apply in_valid_years_range in Hk as (y & n & Hy' & -> & Hn).
    destruct Hc as [Hc|[(y' & Hc & Hno)|Hc]].
    + congruence.
    + rewrite Hy' in Hc. injection Hc as <-. apply Hno. eauto.
    + by apply Hu.
  - apply sort_desc_sorted.
  - eapply (StronglySorted_among _ _
              (λ a, ∃ n, 2015 ≤ n ≤ 2025 ∧ Auction.year a = str n));
      [apply sort_desc_sorted| |].
    + apply Forall_forall. intros a. rewrite sort_desc_perm, elem_of_collect.
      intros (c & _ & Hk & ->). apply kept_record in Hk as [Hy _]. exact Hy.
    + intros a b (n & Hn & Ha) (m & Hm & Hb) Hab. exists n, m.
      split_and!; [done|done|]. unfold key_desc in Hab. rewrite Ha, Hb in Hab.
      by apply year_strings_ordered.
  - intros y. by rewrite sort_desc_stable, collect_kept.
Qed.

End Discovery.

(** ** Computations that only fetch *)

Section Effects.

Lemma add_fetched_nil s : add_fetched [] s = s.
Proof. destruct s. unfold add_fetched. simpl. by rewrite app_nil_r. Qed.

Lemma add_fetched_app l1 l2 s :
  add_fetched l2 (add_fetched l1 s) = add_fetched (l1 ++ l2) s.
Proof. unfold add_fetched. simpl. by rewrite app_assoc. Qed.

Lemma returns_ret {A} (a : A) : returns (ret a) (Ok a).
Proof. exists []. intros s. by rewrite add_fetched_nil. Qed.

Lemma returns_raise {A} (e : exn) : returns (A := A) (raise e) (Raise e).
Proof. exists []. intros s. by rewrite add_fetched_nil. Qed.

Lemma returns_diverge {A} : returns (A := A) diverge Diverge.
Proof. exists []. intros s. by rewrite add_fetched_nil. Qed.

Lemma returns_bind {A B} (m : Run A) (k : A -> Run B) a r :
  returns m (Ok a) -> returns (k a) r -> returns (bind m k) r.
Proof.
  intros [l1 H1] [l2 H2]. exists (l1 ++ l2). intros s.
  unfold bind. by rewrite H1, H2, add_fetched_app.
Qed.

Lemma returns_bind_raise {A B} (m : Run A) (k : A -> Run B) e :
  returns m (Raise e) -> returns (bind m k) (Raise e).
Proof. intros [l1 H1]. exists l1. intros s. unfold bind. by rewrite H1. Qed.

Lemma returns_bind_diverge {A B} (m : Run A) (k : A -> Run B) :
  returns m Diverge -> returns (bind m k) Diverge.
Proof. intros [l1 H1]. exists l1. intros s. unfold bind. by rewrite H1. Qed.

Lemma returns_try_ok {A} (m : Run A) h a :
  returns m (Ok a) -> returns (try_except m h) (Ok a).
Proof. intros [l1 H1]. exists l1. intros s. unfold try_except. by rewrite H1. Qed.

Lemma returns_try_diverge {A} (m : Run A) h :
  returns m Diverge -> returns (try_except m h) Diverge.
Proof. intros [l1 H1]. exists l1. intros s. unfold try_except. by rewrite H1. Qed.

Lemma returns_try_raise {A} (m : Run A) h e r :
  returns m (Raise e) -> returns (h e) r -> returns (try_except m h) r.
Proof.
  intros [l1 H1] [l2 H2]. exists (l1 ++ l2). intros s.
  unfold try_except. by rewrite H1, H2, add_fetched_app.
Qed.

Lemma returns_arun W url :
  returns (arun W url)
    match site W url with
    | FetchRaises => Raise CrawlerError
    | Fetched success html => Ok (success, html)
    end.
Proof. exists [url]. intros s. unfold arun. by destruct (site W url). Qed.

Lemma returns_inj {A} (m : Run A) r r' : returns m r -> returns m r' -> r = r'.
Proof.
  intros [l H] [l' H']. specialize (H blank). rewrite H' in H. congruence.
Qed.

Lemma returns_yield {A} (task : Run (option A)) v :
  returns task (Ok v) -> yield task = v.
Proof. intros [l H]. unfold yield. by rewrite H. Qed.

(** *** The fan-out *)

Lemma slots_insert {A} (slots : list (option A)) vals i v :
  Forall2 slot_for slots vals -> vals !! i = Some v ->
  Forall2 slot_for (<[i := Some v]> slots) vals.
Proof.
  intros Hs Hv. rewrite <- (list_insert_id vals i v Hv).
  apply Forall2_insert; [done|by right].
Qed.

Lemma slots_full {A} (slots : list (option A)) vals :
  Forall2 slot_for slots vals ->
  (∀ i, i < length vals -> filled slots i) ->
  omap id slots = vals.
Proof.
  induction 1 as [|slot v slots vals Hsv Hrest IH]; intros Hfull; [done|].
  destruct (Hfull 0) as [v' Hv']; [simpl; lia|].
  simpl in Hv'. injection Hv' as ->.
  destruct Hsv as [?|[= ->]]; [done|]. simpl. f_equal.
  apply IH. intros i Hi. apply (Hfull (S i)). simpl. lia.
Qed.

Lemma run_tasks_returns {A} (tasks : list (Run A)) vals :
  Forall2 (λ t v, returns t (outcome_of v)) tasks vals ->
  ∀ order slots,
    Forall2 slot_for slots vals ->
    ∃ slots',
      returns (run_tasks tasks order slots) (Ok slots')
      ∧ Forall2 slot_for slots' vals
      ∧ ∀ i, filled slots i ∨ (i ∈ order ∧ i < length vals) -> filled slots' i.
Proof.
  intros Htasks order. induction order as [|i order IH]; intros slots Hslots.
  { exists slots. split_and!; [apply returns_ret|done|].
    intros i [?|[Hi _]]; [done|]. by apply elem_of_nil in Hi. }
  assert (∀ slots1,
            Forall2 slot_for slots1 vals ->
            (∀ j, filled slots j ∨ j = i ∧ j < length vals -> filled slots1 j) ->
            ∀ m, (∀ slots', returns (run_tasks tasks order slots1) (Ok slots') ->
                            returns m (Ok slots')) ->
            ∃ slots',
              returns m (Ok slots') ∧ Forall2 slot_for slots' vals
              ∧ ∀ j, filled slots j ∨ (j ∈ i :: order ∧ j < length vals) ->
                     filled slots' j) as Hstep.
  { intros slots1 Hslots1 Hfill m Hm.
    destruct (IH slots1 Hslots1) as (slots' & Hrun & Hfor & Hprog).
    exists slots'. split_and!; [by apply Hm|done|].
    intros j [Hj|[Hj Hlt]]; apply Hprog.
    - left. apply Hfill. by left.
    - apply elem_of_cons in Hj as [->|Hj]; [|by right].
      left. apply Hfill. by right. }
  simpl.
  destruct (tasks !! i) as [t|] eqn:Ht.
  - destruct (Forall2_lookup_l _ _ _ _ _ Htasks Ht) as (v & Hv & Htv).
    destruct (slots !! i) as [[old|]|] eqn:Hsl.
    + apply (Hstep slots); [done| |done].
      intros j [Hj|[-> _]]; [done|]. by exists old.
    + destruct v as [a|e]; simpl in Htv.
      * apply (Hstep (<[i := Some (Returned a)]> slots)).
        -- by apply slots_insert.
        -- intros j [[w Hj]|[-> _]].
           ++ exists w. rewrite list_lookup_insert_ne; [done|congruence].
           ++ exists (Returned a). apply list_lookup_insert_eq.
              by eapply lookup_lt_Some.
        -- intros slots' [l2 H2]. destruct Htv as [l1 H1].
           exists (l1 ++ l2). intros s.
           by rewrite H1, H2, add_fetched_app.
      * apply (Hstep (<[i := Some (Raised e)]> slots)).
        -- by apply slots_insert.
        -- intros j [[w Hj]|[-> _]].
           ++ exists w. rewrite list_lookup_insert_ne; [done|congruence].
           ++ exists (Raised e). apply list_lookup_insert_eq.
              by eapply lookup_lt_Some.
        -- intros slots' [l2 H2]. destruct Htv as [l1 H1].
           exists (l1 ++ l2). intros s.
           by rewrite H1, H2, add_fetched_app.
    + apply (Hstep slots); [done| |done].
      intros j [Hj|[-> Hlt]]; [done|].
      apply lookup_ge_None in Hsl.
      apply Forall2_length in Hslots. lia.
  - apply (Hstep slots); [done| |done].
    intros j [Hj|[-> Hlt]]; [done|].
    apply lookup_ge_None in Ht.
    apply Forall2_length in Htasks. unfold Run, M in *. lia.
Qed.

(** With [return_exceptions=True] the results are those of the tasks,
    in the order of the tasks, whatever the order in which they finish. *)
Lemma gather_settled_returns {A} (tasks : list (Run A)) vals order :
  Forall2 (λ t v, returns t (outcome_of v)) tasks vals ->
  returns (gather_settled tasks order) (Ok vals).
Proof.
  intros Htasks. unfold gather_settled.
  pose proof (Forall2_length _ _ _ Htasks) as Hlen.
  destruct (run_tasks_returns tasks vals Htasks
              (order ++ seq 0 (length tasks))
              (replicate (length tasks) None)) as (slots' & Hrun & Hfor & Hprog).
  { rewrite Hlen. clear. induction vals; constructor; [by left|done]. }
  eapply returns_bind; [exact Hrun|].
  rewrite (slots_full slots' vals Hfor); [apply returns_ret|].
  intros i Hi. apply Hprog. right. split; [|done].
  apply elem_of_app. right. apply elem_of_seq. lia.
Qed.

Lemma run_tasks_strict_returns {A} (tasks : list (Run A)) vals :
  Forall2 (λ t v, returns t (Ok v)) tasks vals ->
  ∀ order slots,
    Forall2 slot_for slots vals ->
    ∃ slots',
      returns (run_tasks_strict tasks order slots) (Ok slots')
      ∧ Forall2 slot_for slots' vals
      ∧ ∀ i, filled slots i ∨ (i ∈ order ∧ i < length vals) -> filled slots' i.
Proof.
  intros Htasks order. induction order as [|i order IH]; intros slots Hslots.
  { exists slots. split_and!; [apply returns_ret|done|].
    intros i [?|[Hi _]]; [done|]. by apply elem_of_nil in Hi. }
  pose proof (Forall2_length _ _ _ Htasks) as Hlen.
  pose proof (Forall2_length _ _ _ Hslots) as Hlen'.
  simpl.
  destruct (tasks !! i) as [t|] eqn:Ht;
    [destruct (slots !! i) as [[old|]|] eqn:Hsl|].
  2:{ destruct (Forall2_lookup_l _ _ _ _ _ Htasks Ht) as (v & Hv & Htv).
      destruct (IH (<[i := Some v]> slots)) as (slots' & Hrun & Hfor & Hprog);
        [by apply slots_insert|].
      exists slots'. split_and!; [by eapply returns_bind|done|].
      intros j [[w Hj]|[Hj Hlt]]; apply Hprog.
      - left. exists w. rewrite list_lookup_insert_ne; [done|congruence].
      - apply elem_of_cons in Hj as [->|Hj]; [|by right].
        left. exists v. apply list_lookup_insert_eq. by eapply lookup_lt_Some. }
  all: destruct (IH slots Hslots) as (slots' & Hrun & Hfor & Hprog);
    exists slots'; (split_and!; [done|done|]);
    intros j [Hj|[Hj Hlt]]; apply Hprog; [by left|];
    apply elem_of_cons in Hj as [->|Hj]; [|by right]; left.
  - by exists old.
  - apply lookup_ge_None in Hsl. lia.
  - apply lookup_ge_None in Ht. unfold Run, M in *. lia.
Qed.

(** Without [return_exceptions], and with tasks that do not raise, the
    same holds. *)
Lemma gather_returns {A} (tasks : list (Run A)) vals order :
  Forall2 (λ t v, returns t (Ok v)) tasks vals ->
  returns (gather tasks order) (Ok vals).
Proof.
  intros Htasks. unfold gather.
  pose proof (Forall2_length _ _ _ Htasks) as Hlen.
  destruct (run_tasks_strict_returns tasks vals Htasks
              (order ++ seq 0 (length tasks))
              (replicate (length tasks) None)) as (slots' & Hrun & Hfor & Hprog).
  { rewrite Hlen. clear. induction vals; constructor; [by left|done]. }
  eapply returns_bind; [exact Hrun|].
  rewrite (slots_full slots' vals Hfor); [apply returns_ret|].
  intros i Hi. apply Hprog. right. split; [|done].
  apply elem_of_app. right. apply elem_of_seq. lia.
Qed.

(** Tasks that each return what they yield on their own. *)
Lemma tasks_yield {A} (tasks : list (Run (option A))) :
  Forall (λ t, ∃ v, returns t (Ok v)) tasks ->
  Forall2 (λ t v, returns t (Ok v)) tasks (yield <$> tasks).
Proof.
  intros H. apply Forall2_fmap_r, Forall_Forall2_diag.
  eapply Forall_impl; [exact H|]. intros t [v Hv]. unfold compose.
  by rewrite (returns_yield t v Hv).
Qed.

Lemma tasks_yield_settled {A} (tasks : list (Run (option A))) :
  Forall (λ t, ∃ v, returns t (Ok v)) tasks ->
  Forall2 (λ t v, returns t (outcome_of v)) tasks
    ((λ t, Returned (yield t)) <$> tasks).
Proof.
  intros H. apply Forall2_fmap_r, Forall_Forall2_diag.
  eapply Forall_impl; [exact H|]. intros t [v Hv]. unfold compose, outcome_of.
  by rewrite (returns_yield t v Hv).
Qed.

End Effects.

(** ** The detail stage of auction_scraper.py *)

Section MenziesDetail.
Import Menzies MenziesSpec.
Context (W : world) (E : env).

Lemma format_price_nonempty n : format_price n ≠ "".
Proof. unfold format_price. simpl. discriminate. Qed.

Lemma price_of_span_nonempty t p : price_of_span E t = Some p -> p ≠ "".
Proof.
  unfold price_of_span. destruct (int_of E _); [|done].
  intros [= <-]. apply format_price_nonempty.
Qed.

Lemma find_sold_price_nonempty page p : find_sold_price E page = Some p -> p ≠ "".
Proof.
  assert (∀ paras, sold_for_price E paras = Some p -> p ≠ "") as Hsold.
  { induction paras as [|q paras IH]; simpl; [done|].
    destruct (sold_for q); [|done].
    destruct (price_spans q); [done|]. apply price_of_span_nonempty. }
  assert (∀ paras, result_hammer_price E paras = Some p -> p ≠ "") as Hhammer.
  { induction paras as [|q paras IH]; simpl; [done|].
    destruct (result_hammer q); [|done].
    destruct (price_spans q); [done|]. apply price_of_span_nonempty. }
  unfold find_sold_price.
  destruct (details_div page) as [paras|].
  - destruct (sold_for_price E paras) eqn:Hp.
    + intros [= <-]. by eapply Hsold.
    + destruct (description_div page); [apply Hhammer|done].
  - destruct (description_div page); [apply Hhammer|done].
Qed.

(** A lot task comes back from every store with a lot or with nothing;
    a lot it returns has a price. *)
Lemma scrape_lot_details_returns lot_url :
  ∃ v, returns (scrape_lot_details W E lot_url) (Ok v)
       ∧ ∀ lot, v = Some lot ->
           (∃ p, Lot.price lot = Some p ∧ p ≠ "") ∧ Lot.auctionUrl lot = None.
Proof.
  unfold scrape_lot_details.
  set (u := if startswith "/" lot_url then _ else _).
  pose proof (returns_arun W u) as Hfetch.
  destruct (site W u) as [|[] html].
  - exists None. split; [|done].
    eapply returns_try_raise; [by apply returns_bind_raise|apply returns_ret].
  - unfold lot_of_page.
    destruct (describe (lot_page_of E html)) as [[[[artist title] medium] size]|e|] eqn:Hd.
    + destruct (find_sold_price E (lot_page_of E html)) as [p|] eqn:Hp.
      * eexists. split.
        -- apply returns_try_ok. eapply returns_bind; [exact Hfetch|]. simpl.
           rewrite Hd, Hp. apply returns_ret.
        -- intros lot [= <-]. simpl. split; [|done].
           exists p. split; [done|]. by eapply find_sold_price_nonempty.
      * exists None. split; [|done].
        apply returns_try_ok. eapply returns_bind; [exact Hfetch|]. simpl.
        rewrite Hd, Hp. apply returns_ret.
    + exists None. split; [|done].
      eapply returns_try_raise; [|apply returns_ret].
      eapply returns_bind; [exact Hfetch|]. simpl. rewrite Hd.
      apply returns_raise.
    + exfalso. unfold describe in Hd.
      repeat (match type of Hd with
              | match ?x with _ => _ end = _ => destruct x
              end; try done).
  - exists None. split; [|done].
    apply returns_try_ok. eapply returns_bind; [exact Hfetch|]. apply returns_ret.
Qed.

Lemma row_tasks_return rows :
  Forall (λ t, ∃ v, returns t (Ok v)) (row_tasks W E rows).
Proof.
  apply Forall_forall. intros t Ht. unfold row_tasks in Ht.
  apply list_elem_of_omap in Ht as (r & _ & Hr).
  destruct (lot_link r); [|done]. injection Hr as <-.
  destruct (scrape_lot_details_returns (urljoin E site_root s)) as (v & Hv & _).
  eauto.
Qed.

Lemma row_tasks_priced rows lot :
  lot ∈ omap yield (row_tasks W E rows) ->
  (∃ p, Lot.price lot = Some p ∧ p ≠ "") ∧ Lot.auctionUrl lot = None.
Proof.
  intros (t & Ht & Hy)%list_elem_of_omap. unfold row_tasks in Ht.
  apply list_elem_of_omap in Ht as (r & _ & Hr).
  destruct (lot_link r); [|done]. injection Hr as <-.
  destruct (scrape_lot_details_returns (urljoin E site_root s)) as (v & Hv & Hp).
  apply Hp. by rewrite <- (returns_yield _ _ Hv).
Qed.

Lemma valid_lots_yield (tasks : list (Run (option Lot.t))) :
  valid_lots ((λ t, Returned (yield t)) <$> tasks) = omap yield tasks.
Proof.
  unfold valid_lots. induction tasks as [|t tasks IH]; [done|].
  csimpl. rewrite IH. by destruct (yield t).
Qed.

(** The fan-out of one page, whatever the order in which the tasks finish. *)
Lemma page_fan_out rows order :
  returns (gather_settled (row_tasks W E rows) order)
    (Ok ((λ t, Returned (yield t)) <$> row_tasks W E rows)).
Proof. apply gather_settled_returns, tasks_yield_settled, row_tasks_return. Qed.

Lemma nonempty_true {A} (l : list A) : l ≠ [] -> nonempty l = true.
Proof. by destruct l. Qed.

(** The loop follows the walk. *)
Lemma page_loop_walk base_url page htmls completes :
  walk (site W) E base_url page htmls completes ->
  ∀ fuel all_lots,
    length htmls < fuel ->
    returns (page_loop W E fuel base_url page all_lots)
      (if completes
       then Ok (all_lots ++ concat (page_lots W E base_url <$> htmls))
       else Raise CrawlerError).
Proof.
  induction 1 as [page Hsite|page html Hsite|page html Hsite Hrows
                 |page html Hsite Hrows Hnext
                 |page html htmls completes Hsite Hrows Hnext Hwalk IH];
    intros [|fuel] all_lots Hfuel; simpl in Hfuel; try lia; simpl;
    pose proof (returns_arun W (page_url base_url page)) as Hfetch;
    rewrite Hsite in Hfetch.
  - by apply returns_bind_raise.
  - eapply returns_bind; [exact Hfetch|]. simpl.
    rewrite app_nil_r. apply returns_ret.
  - eapply returns_bind; [exact Hfetch|]. simpl. rewrite Hrows. simpl.
    rewrite app_nil_r. apply returns_ret.
  - eapply returns_bind; [exact Hfetch|]. simpl.
    rewrite (nonempty_true _ Hrows). simpl.
    eapply returns_bind; [apply page_fan_out|].
    rewrite Hnext, valid_lots_yield. simpl. rewrite app_nil_r.
    apply returns_ret.
  - eapply returns_bind; [exact Hfetch|]. simpl.
    rewrite (nonempty_true _ Hrows). simpl.
    eapply returns_bind; [apply page_fan_out|].
    rewrite Hnext, valid_lots_yield. simpl.
    specialize (IH fuel (all_lots ++ page_lots W E base_url html)).
    destruct completes; [rewrite <- app_assoc in IH|]; apply IH; lia.
Qed.

(** The loop always ends in one of the three ways, and the lots it hands
    back are priced and stamped. *)
Lemma page_loop_returns fuel base_url :
  ∀ page all_lots,
    Forall (lot_ok base_url) all_lots ->
    ∃ res,
      returns (page_loop W E fuel base_url page all_lots) res
      ∧ ∀ lots, res = Ok lots -> Forall (lot_ok base_url) lots.
Proof.
  induction fuel as [|fuel IH]; intros page all_lots Hok; simpl.
  { exists Diverge. split; [apply returns_diverge|done]. }
  pose proof (returns_arun W (page_url base_url page)) as Hfetch.
  destruct (site W (page_url base_url page)) as [|[] html].
  - exists (Raise CrawlerError). split; [by apply returns_bind_raise|done].
  - simpl. destruct (nonempty (lot_rows (auction_page_of E html))) eqn:Hrows.
    + set (lots' := all_lots ++
                      (Lot.stamp base_url <$>
                         omap yield (row_tasks W E (lot_rows (auction_page_of E html))))).
      assert (Forall (lot_ok base_url) lots') as Hok'.
      { apply Forall_app. split; [done|]. apply Forall_fmap, Forall_forall.
        intros lot Hlot%row_tasks_priced. by destruct Hlot as [Hp _]. }
      destruct (next_page (auction_page_of E html) page) eqn:Hnext.
      * destruct (IH (page + 1) lots' Hok') as (res & Hres & Hlots).
        exists res. split; [|done].
        eapply returns_bind; [exact Hfetch|]. simpl. rewrite Hrows. simpl.
        eapply returns_bind; [apply page_fan_out|].
        by rewrite Hnext, valid_lots_yield.
      * exists (Ok lots'). split; [|by intros ? [= <-]].
        eapply returns_bind; [exact Hfetch|]. simpl. rewrite Hrows. simpl.
        eapply returns_bind; [apply page_fan_out|].
        rewrite Hnext, valid_lots_yield. apply returns_ret.
    + exists (Ok all_lots). split; [|by intros ? [= <-]].
      eapply returns_bind; [exact Hfetch|]. simpl. rewrite Hrows. apply returns_ret.
  - exists (Ok all_lots). split; [|by intros ? [= <-]].
    eapply returns_bind; [exact Hfetch|]. apply returns_ret.
Qed.

(** What the stage does to an auction without lots, given how its loop
    ends: the lots are assigned when the loop ends normally, and only then. *)
Lemma detail_run fuel r s a res :
  heap s !! r = Some a ->
  Auction.lots a = [] ->
  returns (page_loop W E fuel (Auction.url a) 1 []) res ->
  ∃ log,
    scrape_auction_details W E fuel r s
    = match res with
      | Ok all_lots =>
          (Ok true,
           mkState (<[r := Auction.set_lots all_lots a]> (heap s))
             (fetched s ++ log) (disk s) (saves s))
      | Raise _ => (Ok false, add_fetched log s)
      | Diverge => (Diverge, add_fetched log s)
      end.
Proof.
  intros Hr Hlots [log Hlog]. exists log.
  unfold scrape_auction_details, try_except, bind, deref.
  rewrite Hr, Hlots. simpl. rewrite Hlog.
  destruct res; [|done|done].
  unfold assign_lots. simpl. by rewrite Hr.
Qed.

Lemma detail_skip_run fuel r s a :
  heap s !! r = Some a ->
  Auction.lots a ≠ [] ->
  scrape_auction_details W E fuel r s = (Ok true, s).
Proof.
  intros Hr Hlots.
  unfold scrape_auction_details, try_except, bind, deref.
  rewrite Hr. destruct (Auction.lots a); done.
Qed.

(** C5.  Called on an auction whose lots are not empty, the detail stage
    returns true and leaves the whole store as it was: no URL is added to
    the fetches and the auction dictionary is the same. *)
Theorem detail_skip (fuel : nat) (r : loc) (s : state) (a : Auction.t) :
  heap s !! r = Some a ->
  Auction.lots a ≠ [] ->
  scrape_auction_details W E fuel r s = (Ok true, s)
  ∧ fetched (scrape_auction_details W E fuel r s).2 = fetched s
  ∧ record_at r (scrape_auction_details W E fuel r s) = Some a.
Proof.
  intros Hr Hlots. rewrite (detail_skip_run fuel r s a Hr Hlots).
  by split_and!.
Qed.

Lemma set_lots_url lots a : Auction.url (Auction.set_lots lots a) = Auction.url a.
Proof. done. Qed.

(** C6.  The detail stage keeps the lots of an auction well-formed: if
    every lot of the auction has a non-empty price and the auction's URL
    as [auctionUrl] before the call (as is the case when it has no lots),
    so it is after the call, however the call ends. *)
Theorem detail_lots_priced (fuel : nat) (r : loc) (s : state) (a : Auction.t) :
  heap s !! r = Some a ->
  lots_ok a ->
  ∃ a',
    record_at r (scrape_auction_details W E fuel r s) = Some a'
    ∧ Auction.url a' = Auction.url a
    ∧ lots_ok a'.
Proof.
  intros Hr Hok. unfold record_at.
  destruct (Auction.lots a) as [|l ls] eqn:Hlots.
  - destruct (page_loop_returns fuel (Auction.url a) 1 [])
      as (res & Hres & Hlots_ok); [constructor|].
    destruct (detail_run fuel r s a res Hr Hlots Hres) as [log ->].
    destruct res as [lots| |]; simpl; [|by exists a..].
    exists (Auction.set_lots lots a). split_and!; [|done|].
    + apply list_lookup_insert_eq. by eapply lookup_lt_Some.
    + unfold lots_ok. simpl. by apply Hlots_ok.
  - rewrite (detail_skip_run fuel r s a Hr); [by exists a|].
    by rewrite Hlots.
Qed.

(** A lot page without a resolved price gives no lot. *)
Lemma unpriced_lot_dropped lot_url html :
  site W (if startswith "/" lot_url then urljoin E site_root lot_url else lot_url)
  = Fetched true html ->
  find_sold_price E (lot_page_of E html) = None ->
  returns (scrape_lot_details W E lot_url) (Ok None).
Proof.
  intros Hsite Hprice.
  destruct (scrape_lot_details_returns lot_url) as (v & Hv & _).
  enough (v = None) as <- by done.
  destruct Hv as [log Hv]. specialize (Hv blank).
  unfold scrape_lot_details, try_except, bind, arun in Hv.
  rewrite Hsite in Hv. simpl in Hv. unfold lot_of_page in Hv.
  rewrite Hprice in Hv.
  apply (f_equal fst) in Hv.
  destruct (describe (lot_page_of E html)) as [[[[??]?]?]| |];
    simpl in Hv; congruence.
Qed.

End MenziesDetail.

(** ** The detail stage of deutscherandhackett_scraper.py *)

Section DHDetail.
Import DH DHSpec.
Context (W : world) (E : env).

Lemma dh_scrape_lot_details_returns lot_url :
  ∃ v, returns (scrape_lot_details W E lot_url) (Ok v).
Proof.
  unfold scrape_lot_details.
  set (u := if startswith "/" lot_url then _ else _).
  pose proof (returns_arun W u) as Hfetch.
  destruct (site W u) as [|[] html].
  - exists None.
    eapply returns_try_raise; [by apply returns_bind_raise|apply returns_ret].
  - eexists. apply returns_try_ok.
    eapply returns_bind; [exact Hfetch|]. apply returns_ret.
  - exists None. apply returns_try_ok.
    eapply returns_bind; [exact Hfetch|]. apply returns_ret.
Qed.

Lemma dh_row_tasks_return rows :
  Forall (λ t, ∃ v, returns t (Ok v)) (row_tasks W E rows).
Proof.
  apply Forall_forall. intros t Ht. unfold row_tasks in Ht.
  apply list_elem_of_omap in Ht as (r & _ & Hr).
  destruct (sold_price_div r); [|done].
  destruct (lot_link r); [|done]. injection Hr as <-.
  apply dh_scrape_lot_details_returns.
Qed.

(** The single page: the stage returns true exactly when the page is
    delivered with its success flag set, and then assigns the lots of the
    rows; otherwise the auction is left as it was. *)
Lemma dh_detail_run r s a :
  heap s !! r = Some a ->
  Auction.lots a = [] ->
  ∃ log,
    scrape_auction_details W E r s
    = match site W (Auction.url a) with
      | Fetched true html =>
          (Ok true,
           mkState
             (<[r := Auction.set_lots (page_lots W E (Auction.url a) html) a]>
                (heap s))
             (fetched s ++ log) (disk s) (saves s))
      | _ => (Ok false, add_fetched log s)
      end.
Proof.
  intros Hr Hlots.
  pose proof (returns_arun W (Auction.url a)) as [l1 Hfetch].
  unfold scrape_auction_details, try_except, bind, deref.
  rewrite Hr, Hlots. simpl. rewrite Hfetch.
  destruct (site W (Auction.url a)) as [|[] html]; simpl; [by exists l1| |by exists l1].
  destruct (gather_returns (row_tasks W E (lot_rows E html))
              (yield <$> row_tasks W E (lot_rows E html))
              (completion W (Auction.url a))) as [l2 Hgather].
  { apply tasks_yield, dh_row_tasks_return. }
  exists (l1 ++ l2). rewrite Hgather. unfold assign_lots. simpl. rewrite Hr.
  unfold page_lots. rewrite app_assoc.
  repeat f_equal. clear. induction (row_tasks W E (lot_rows E html)) as [|t ts IH];
    [done|]. csimpl. rewrite IH. by destruct (yield t).
Qed.

End DHDetail.

(** ** The detail stage under any completion order *)

Section FanOut.

Lemma menzies_walk_lots fetch order wr E fuel r s a htmls completes :
  heap s !! r = Some a ->
  Auction.lots a = [] ->
  MenziesSpec.walk fetch E (Auction.url a) 1 htmls completes ->
  length htmls < fuel ->
  ∃ s',
    Menzies.scrape_auction_details (mkWorld fetch order wr) E fuel r s
    = (Ok completes, s')
    ∧ heap s' !! r
      = Some (if completes
              then Auction.set_lots
                     (concat (MenziesSpec.page_lots (orderly fetch) E
                                (Auction.url a) <$> htmls)) a
              else a).
Proof.
  intros Hr Hlots Hwalk Hfuel.
  pose proof (page_loop_walk (mkWorld fetch order wr) E (Auction.url a) 1
                htmls completes Hwalk fuel [] Hfuel) as Hloop.
  destruct (detail_run _ E fuel r s a _ Hr Hlots Hloop) as [log ->].
  destruct completes; eexists; (split; [done|]); simpl; [|done].
  apply list_lookup_insert_eq. by eapply lookup_lt_Some.
Qed.

Lemma dh_page_lots fetch order wr E r s a :
  heap s !! r = Some a ->
  Auction.lots a = [] ->
  ∃ s',
    DH.scrape_auction_details (mkWorld fetch order wr) E r s
    = (Ok match fetch (Auction.url a) with
          | Fetched true _ => true
          | _ => false
          end, s')
    ∧ heap s' !! r
      = Some match fetch (Auction.url a) with
             | Fetched true html =>
                 Auction.set_lots
                   (DHSpec.page_lots (orderly fetch) E (Auction.url a) html) a
             | _ => a
             end.
Proof.
  intros Hr Hlots.
  destruct (dh_detail_run (mkWorld fetch order wr) E r s a Hr Hlots) as [log ->].
  simpl. destruct (fetch (Auction.url a)) as [|[] html];
    eexists; (split; [done|]); simpl; [done| |done].
  apply list_lookup_insert_eq. by eapply lookup_lt_Some.
Qed.

(** C4.  When the pages of an auction are walked to the end, the stage
    returns true and the lots of the auction are, page after page and
    within a page row after row, the lots of the tasks that yield one;
    a task that yields none leaves no gap and stops nothing.  The order
    in which the tasks of a page finish plays no part: the lots are those
    of the world in which they finish in row order.  First part:
    auction_scraper.py; second part: deutscherandhackett_scraper.py, with
    its single page; third part: in both scripts a lot task never raises,
    and returns from every store what it yields on its own. *)
Theorem fan_out_keeps_row_order :
  (∀ fetch order wr E fuel r s a htmls,
     heap s !! r = Some a ->
     Auction.lots a = [] ->
     MenziesSpec.walk fetch E (Auction.url a) 1 htmls true ->
     length htmls < fuel ->
     ∃ s',
       Menzies.scrape_auction_details (mkWorld fetch order wr) E fuel r s
       = (Ok true, s')
       ∧ heap s' !! r
         = Some (Auction.set_lots
                   (concat (MenziesSpec.page_lots (orderly fetch) E
                              (Auction.url a) <$> htmls)) a))
  ∧ (∀ fetch order wr E r s a html,
       heap s !! r = Some a ->
       Auction.lots a = [] ->
       fetch (Auction.url a) = Fetched true html ->
       ∃ s',
         DH.scrape_auction_details (mkWorld fetch order wr) E r s = (Ok true, s')
         ∧ heap s' !! r
           = Some (Auction.set_lots
                     (DHSpec.page_lots (orderly fetch) E (Auction.url a) html) a))
  ∧ (∀ W E E' rows rows' t s,
       t ∈ Menzies.row_tasks W E rows ∨ t ∈ DH.row_tasks W E' rows' ->
       (t s).1 = Ok (yield t)).
Proof.
  split_and!.
  - intros. by eapply (menzies_walk_lots _ _ _ _ _ _ _ _ _ true).
  - intros fetch order wr E r s a html Hr Hlots Hfetch.
    destruct (dh_page_lots fetch order wr E r s a Hr Hlots) as (s' & Hrun & Hrec).
    rewrite Hfetch in Hrun, Hrec. eauto.
  - intros W E E' rows rows' t s Ht.
    assert (∃ v, returns t (Ok v)) as [v Hv].
    { destruct Ht as [Ht|Ht].
      - by eapply Forall_forall in Ht; [|apply row_tasks_return].
      - by eapply Forall_forall in Ht; [|apply dh_row_tasks_return]. }
    rewrite (returns_yield t v Hv). destruct Hv as [log ->]. done.
Qed.

(** C1, as the scripts have it.  For an auction without lots:
    in auction_scraper.py, when the fetch of page one does not come back
    as a failure, the stage returns true exactly when the walk over the
    pages ends without a fetch that raises; when it returns false the
    lots stay empty; when it returns true the lots are those of the pages
    walked, and the walk stops before a page whose fetch comes back as a
    failure or that has no rows -- the lots are then those of the pages
    before it.  In deutscherandhackett_scraper.py the stage returns true
    exactly when the one page is delivered, assigns then the lots of all
    its rows, and leaves the lots empty otherwise. *)
Theorem detail_outcome :
  (∀ fetch order wr E fuel r s a htmls completes,
     heap s !! r = Some a ->
     Auction.lots a = [] ->
     (∀ html, fetch (Auction.url a) ≠ Fetched false html) ->
     MenziesSpec.walk fetch E (Auction.url a) 1 htmls completes ->
     length htmls < fuel ->
     ∃ s',
       Menzies.scrape_auction_details (mkWorld fetch order wr) E fuel r s
       = (Ok completes, s')
       ∧ heap s' !! r
         = Some (if completes
                 then Auction.set_lots
                        (concat (MenziesSpec.page_lots (orderly fetch) E
                                   (Auction.url a) <$> htmls)) a
                 else a))
  ∧ (∀ fetch order wr E r s a,
       heap s !! r = Some a ->
       Auction.lots a = [] ->
       ∃ s',
         DH.scrape_auction_details (mkWorld fetch order wr) E r s
         = (Ok match fetch (Auction.url a) with
               | Fetched true _ => true
               | _ => false
               end, s')
         ∧ heap s' !! r
           = Some match fetch (Auction.url a) with
                  | Fetched true html =>
                      Auction.set_lots
                        (DHSpec.page_lots (orderly fetch) E (Auction.url a) html) a
                  | _ => a
                  end).
Proof.
  split.
  - intros. by eapply menzies_walk_lots.
  - apply dh_page_lots.
Qed.

End FanOut.

(** ** The store: allocation, views, sorting of references *)

Section Store.

Lemma alloc_all_run l s :
  alloc_all l s
  = (Ok (seq (length (heap s)) (length l)),
     mkState (heap s ++ l) (fetched s) (disk s) (saves s)).
Proof.
  revert s. induction l as [|a l IH]; intros s.
  - simpl. unfold ret. destruct s. simpl. by rewrite app_nil_r.
  - simpl. unfold bind at 1. unfold alloc at 1. unfold bind at 1.
    rewrite IH. simpl. unfold ret.
    by rewrite length_app, Nat.add_1_r, <- app_assoc.
Qed.

Lemma view_app h r1 r2 : view h (r1 ++ r2) = view h r1 ++ view h r2.
Proof. apply omap_app. Qed.

Lemma view_cons h r refs a :
  h !! r = Some a -> view h (r :: refs) = a :: view h refs.
Proof. intros Hr. unfold view. simpl. by rewrite Hr. Qed.

Lemma view_seq pre X post :
  view (pre ++ X ++ post) (seq (length pre) (length X)) = X.
Proof.
  revert pre. induction X as [|x X IH]; intros pre; [done|].
  change (length (x :: X)) with (S (length X)). rewrite <- cons_seq.
  rewrite (view_cons _ _ _ x) by (by apply (list_lookup_middle pre (X ++ post))).
  f_equal. specialize (IH (pre ++ [x])).
  rewrite length_app, Nat.add_1_r, <- app_assoc in IH. exact IH.
Qed.

Lemma view_insert_other h r x refs :
  r ∉ refs -> view (<[r := x]> h) refs = view h refs.
Proof.
  unfold view. induction refs as [|r' refs IH]; intros Hr; [done|].
  apply not_elem_of_cons in Hr as [Hne Hr]. csimpl.
  by rewrite list_lookup_insert_ne, IH.
Qed.

Lemma insert_desc_ext {A} (key1 key2 : A -> string) x m :
  (∀ y, y ∈ x :: m -> key1 y = key2 y) ->
  insert_desc key1 x m = insert_desc key2 x m.
Proof.
  induction m as [|y m IH]; intros Hk; [done|]. simpl.
  rewrite (Hk x) by (left; done).
  rewrite (Hk y) by (right; left; done).
  destruct (String.ltb _ _); [|done]. f_equal. apply IH.
  intros z [->|Hz]%elem_of_cons; apply Hk; [left|do 2 right]; done.
Qed.

Lemma sort_desc_ext {A} (key1 key2 : A -> string) l :
  (∀ y, y ∈ l -> key1 y = key2 y) -> sort_desc key1 l = sort_desc key2 l.
Proof.
  induction l as [|x l IH]; intros Hk; [done|].
  rewrite !sort_desc_cons, IH by set_solver.
  apply insert_desc_ext. intros y Hy. apply Hk.
  by rewrite (sort_desc_perm key2 l) in Hy.
Qed.

Lemma view_insert_desc h r a m :
  h !! r = Some a ->
  Forall (λ r, r < length h) m ->
  view h (insert_desc (year_at h) r m)
  = insert_desc Auction.year a (view h m).
Proof.
  intros Hr. induction 1 as [|y m Hy Hm IH]; cbn [insert_desc].
  - by rewrite (view_cons _ _ _ a).
  - destruct (lookup_lt_is_Some_2 h y Hy) as [b Hb].
    rewrite (view_cons _ y m b Hb). cbn [insert_desc].
    unfold year_at at 1 2. rewrite Hr, Hb. cbn [from_option].
    destruct (String.ltb _ _).
    + by rewrite (view_cons _ y _ b Hb), IH.
    + by rewrite (view_cons _ r _ a Hr), (view_cons _ y m b Hb).
Qed.

(** Sorting the references by the year they point to sorts what they
    point to. *)
Lemma view_sort h refs :
  Forall (λ r, r < length h) refs ->
  view h (sort_desc (year_at h) refs) = sort_desc Auction.year (view h refs).
Proof.
  induction 1 as [|r refs Hr Hrefs IH]; [done|].
  destruct (lookup_lt_is_Some_2 h r Hr) as [a Ha].
  rewrite sort_desc_cons, (view_cons _ r refs a Ha), sort_desc_cons, <- IH.
  apply view_insert_desc; [done|].
  by rewrite sort_desc_perm.
Qed.

Lemma save_progress_run W data s :
  ∃ d,
    Menzies.save_progress W data s
    = (Ok tt, mkState (heap s) (fetched s) d (saves s ++ [view (heap s) data]))
    ∧ (write W (length (saves s)) = Written ->
       d = Json (JAuctions (view (heap s) data))).
Proof.
  unfold Menzies.save_progress, try_except, bind, get_state, write_file.
  destruct (write W (length (saves s))); simpl; eauto.
  - eexists. split; [done|]. done.
  - eexists. split; [done|]. done.
Qed.

Lemma bind_ok {A B} (m : Run A) (k : A -> Run B) s a s' :
  m s = (Ok a, s') -> bind m k s = k a s'.
Proof. unfold bind. by intros ->. Qed.

Lemma bind_diverge {A B} (m : Run A) (k : A -> Run B) s s' :
  m s = (Diverge, s') -> bind m k s = (Diverge, s').
Proof. unfold bind. by intros ->. Qed.

Lemma bind_raise {A B} (m : Run A) (k : A -> Run B) s e s' :
  m s = (Raise e, s') -> bind m k s = (Raise e, s').
Proof. unfold bind. by intros ->. Qed.

Lemma year_at_same h h' :
  Forall2 (λ x y, Auction.year x = Auction.year y) h h' ->
  ∀ r, year_at h r = year_at h' r.
Proof.
  intros Hh r. unfold year_at.
  destruct (h !! r) as [x|] eqn:Hx.
  - destruct (Forall2_lookup_l _ _ _ _ _ Hh Hx) as (y & -> & Hxy). done.
  - apply lookup_ge_None in Hx. rewrite (Forall2_length _ _ _ Hh) in Hx.
    apply lookup_ge_None in Hx. by rewrite Hx.
Qed.

End Store.

(** ** A run of auction_scraper.py *)

Section MenziesRun.
Import Menzies MenziesSpec.
Context (W : world) (E : env).

Lemma iso_lookup a : heap (mkState [a] [] NoFile []) !! 0 = Some a.
Proof. done. Qed.

(** In any store the detail stage does to an auction what it does to it
    alone, returns the same, and touches nothing else but the fetches. *)
Lemma detail_general fuel r s a :
  heap s !! r = Some a ->
  ∃ log,
    scrape_auction_details W E fuel r s
    = ((scrape_auction_details W E fuel 0 (mkState [a] [] NoFile [])).1,
       mkState (<[r := finished W E fuel a]> (heap s))
         (fetched s ++ log) (disk s) (saves s))
    ∧ ((∃ b, (scrape_auction_details W E fuel 0 (mkState [a] [] NoFile [])).1 = Ok b)
       ∨ (scrape_auction_details W E fuel 0 (mkState [a] [] NoFile [])).1 = Diverge)
    ∧ (finished W E fuel a = a
       ∨ ∃ lots, Auction.lots a = [] ∧ finished W E fuel a = Auction.set_lots lots a).
Proof.
  intros Hr. unfold finished, record_at.
  destruct (Auction.lots a) as [|l ls] eqn:Hlots.
  - destruct (page_loop_returns W E fuel (Auction.url a) 1 [])
      as (res & Hres & _); [constructor|].
    destruct (detail_run W E fuel r s a res Hr Hlots Hres) as [log ->].
    destruct (detail_run W E fuel 0 _ a res (iso_lookup a) Hlots Hres) as [log' ->].
    exists log. destruct res as [lots| |]; simpl.
    + split_and!; [done|by left; eexists|right; by exists lots].
    + rewrite (list_insert_id _ _ _ Hr). split_and!; [done|by left; eexists|by left].
    + rewrite (list_insert_id _ _ _ Hr). split_and!; [done|by right|by left].
  - assert (Auction.lots a ≠ []) as Hne by (by rewrite Hlots).
    rewrite (detail_skip_run W E fuel r s a Hr Hne).
    rewrite (detail_skip_run W E fuel 0 _ a (iso_lookup a) Hne). simpl.
    exists []. rewrite (list_insert_id _ _ _ Hr), app_nil_r.
    split_and!; [by destruct s|by left; eexists|by left].
Qed.

Lemma finished_year fuel a :
  Auction.year (finished W E fuel a) = Auction.year a.
Proof.
  destruct (detail_general fuel 0 _ a (iso_lookup a)) as (_ & _ & _ & [->|(lots & _ & ->)]);
    done.
Qed.

Lemma bounded_settles fuel a : bounded W E fuel a -> settles W E fuel a.
Proof.
  intros (htmls & completes & Hwalk & Hfuel). unfold settles.
  destruct (Auction.lots a) as [|l ls] eqn:Hlots.
  - pose proof (page_loop_walk W E _ _ _ _ Hwalk fuel [] Hfuel) as Hloop.
    destruct (detail_run W E fuel 0 _ a _ (iso_lookup a) Hlots Hloop) as [log ->].
    by destruct completes.
  - rewrite (detail_skip_run W E fuel 0 _ a (iso_lookup a)); [done|].
    by rewrite Hlots.
Qed.

Lemma heap_after_lookup fuel pre found k a :
  found !! k = Some a ->
  heap_after W E fuel pre found k !! (length pre + k) = Some a.
Proof.
  intros Hk. unfold heap_after.
  pose proof (lookup_lt_Some _ _ _ Hk) as Hlt.
  rewrite lookup_app_r by lia.
  rewrite lookup_app_r by (rewrite length_fmap, length_take; lia).
  rewrite length_fmap, length_take, lookup_drop.
  replace (k + (length pre + k - length pre - k `min` length found)) with k by lia.
  done.
Qed.

Lemma heap_after_step fuel pre found k a :
  found !! k = Some a ->
  <[length pre + k := finished W E fuel a]> (heap_after W E fuel pre found k)
  = heap_after W E fuel pre found (S k).
Proof.
  intros Hk. unfold heap_after.
  pose proof (lookup_lt_Some _ _ _ Hk) as Hlt.
  rewrite insert_app_r. f_equal.
  rewrite (take_S_r _ _ _ Hk), fmap_app, <- app_assoc.
  rewrite (drop_S _ _ _ Hk).
  assert (length (finished W E fuel <$> take k found) = k) as Hlen
    by (rewrite length_fmap, length_take; lia).
  transitivity
    (<[length (finished W E fuel <$> take k found) + 0 := finished W E fuel a]>
       ((finished W E fuel <$> take k found) ++ a :: drop (S k) found)).
  - by rewrite Hlen, Nat.add_0_r.
  - by rewrite insert_app_r.
Qed.

Lemma heap_after_years fuel pre found k r :
  year_at (heap_after W E fuel pre found k) r = year_at (pre ++ found) r.
Proof.
  apply year_at_same. unfold heap_after.
  apply Forall2_app; [by apply Forall_Forall2_diag, Forall_forall|].
  rewrite <- (take_drop k found) at 3.
  apply Forall2_app; [|by apply Forall_Forall2_diag, Forall_forall].
  apply Forall2_fmap_l, Forall_Forall2_diag, Forall_forall.
  intros a _. apply finished_year.
Qed.

Lemma heap_after_length fuel pre found k :
  length (heap_after W E fuel pre found k) = length pre + length found.
Proof.
  unfold heap_after. rewrite !length_app, length_fmap.
  rewrite <- (take_drop k found) at 3. rewrite length_app. lia.
Qed.

(** The loop over the new auctions, from the moment [k] of them are
    done: each turn that comes back adds one call of [save_progress], on
    the collection as it is then; the loop stops early only if the detail
    stage does not come back. *)
Lemma process_loop fuel pre found data :
  ∀ n k s,
    k + n = length found ->
    heap s = heap_after W E fuel pre found k ->
    ∃ j res s',
      for_each (seq (length pre + k) n) (process_auction W E fuel data) s
      = (res, s')
      ∧ j ≤ n
      ∧ saves s'
        = saves s
          ++ ((λ i, view (heap_after W E fuel pre found i) data) <$> seq (S k) j)
      ∧ ((res = Ok tt ∧ j = n
          ∧ heap s' = heap_after W E fuel pre found (k + n)
          ∧ (n ≠ 0 ∨ last_save_on_disk W s -> last_save_on_disk W s'))
         ∨ (res = Diverge ∧ ∃ a, a ∈ found ∧ ¬ settles W E fuel a)).
Proof.
  induction n as [|n IH]; intros k s Hkn Hheap.
  { exists 0, (Ok tt), s. simpl. rewrite app_nil_r, Nat.add_0_r.
    split_and!; [done|done|done|]. left. split_and!; [done|done|done|].
    by intros [?|?]. }
  destruct (lookup_lt_is_Some_2 found k) as [a Ha]; [lia|].
  pose proof (heap_after_lookup fuel pre found k a Ha) as Hlook.
  rewrite <- Hheap in Hlook.
  destruct (detail_general fuel _ s a Hlook) as (log & Hrun & Hres & _).
  rewrite Hheap, (heap_after_step fuel pre found k a Ha) in Hrun.
  rewrite <- cons_seq. cbn [for_each]. unfold process_auction at 1.
  destruct Hres as [[b Hb]|Hdiv].
  - rewrite Hb in Hrun.
    set (s1 := mkState _ _ _ _) in Hrun.
    destruct (save_progress_run W data s1) as (d & Hsave & Hd).
    set (s2 := mkState _ _ _ _) in Hsave.
    destruct (IH (S k) s2) as (j & res & s' & Hloop & Hj & Hsaves & Hend);
      [lia|done|].
    exists (S j), res, s'. split_and!.
    + erewrite bind_ok; [|erewrite bind_ok; [exact Hsave|exact Hrun]].
      by replace (S (length pre + k)) with (length pre + S k) by lia.
    + lia.
    + rewrite Hsaves. simpl. by rewrite <- app_assoc.
    + destruct Hend as [(-> & -> & Hh & Hdisk)|Hdiv]; [left|by right].
      split_and!; [done|done|by replace (k + S n) with (S k + n) by lia|].
      intros _. apply Hdisk. right.
      intros snap Hlast Hw. simpl in Hlast, Hw.
      rewrite last_snoc in Hlast. injection Hlast as <-.
      rewrite length_app, Nat.add_sub in Hw. simpl. by apply Hd.
  - rewrite Hdiv in Hrun.
    exists 0, Diverge. eexists. split_and!.
    + erewrite bind_diverge; [done|]. erewrite bind_diverge; [done|exact Hrun].
    + lia.
    + simpl. by rewrite app_nil_r.
    + right. split; [done|]. exists a. split; [by eapply list_elem_of_lookup_2|].
      unfold settles. intros Hs. by apply Hs.
Qed.

(** [load_existing_data] of auction_scraper.py comes back with a value
    from every state of the output file and leaves the store alone; the
    value is the empty list when the file is missing, cannot be opened or
    does not hold JSON, and the JSON value itself when that has a
    length. *)
Theorem load_never_fails (h : list Auction.t) (f : list string) (d : file)
    (sv : list (list Auction.t)) :
  ∃ v,
    load_existing_data (mkState h f d sv) = (Ok v, mkState h f d sv)
    ∧ match d with
      | NoFile | Unreadable | Garbled | Json JScalar => v = JAuctions []
      | Json (JAuctions records) => v = JAuctions records
      | Json (JOther empty) => v = JOther empty
      end.
Proof.
  unfold load_existing_data, try_except, read_file. simpl.
  destruct d as [| | |[records|empty|]]; simpl; eauto.
Qed.

Lemma load_run s v :
  (load_existing_data s).1 = Ok v -> load_existing_data s = (Ok v, s).
Proof.
  destruct s as [h f d sv]. intros Hv.
  destruct (load_never_fails h f d sv) as (v' & Hrun & _).
  rewrite Hrun in Hv |- *. simpl in Hv. congruence.
Qed.

Lemma scrape_past_auctions_run url K s :
  scrape_past_auctions W E url K s
  = (Ok (sort_desc Auction.year
           (collect E (from_option id ∅ K) (listing W E url))),
     add_fetched [url] s).
Proof.
  unfold scrape_past_auctions, listing, try_except, bind, arun, add_fetched.
  destruct (site W url) as [|[] html]; simpl; [done| |done].
  by destruct (catalogue_divs E html).
Qed.

(** The run up to its loop. *)
Lemma main_run fuel s records :
  (load_existing_data s).1 = Ok (JAuctions records) ->
  main W E fuel s
  = for_each
      (seq (length (heap s ++ records)) (length (discovered W E records)))
      (process_auction W E fuel
         (sort_desc (year_at ((heap s ++ records) ++ discovered W E records))
            (seq (length (heap s)) (length records)
             ++ seq (length (heap s ++ records))
                  (length (discovered W E records)))))
      (mkState ((heap s ++ records) ++ discovered W E records)
         (fetched s ++ [results_url]) (disk s) (saves s)).
Proof.
  intros Hload%load_run. unfold main.
  erewrite bind_ok by exact Hload. cbv beta iota.
  erewrite bind_ok by apply alloc_all_run.
  erewrite bind_ok by apply scrape_past_auctions_run.
  erewrite bind_ok by apply alloc_all_run.
  unfold sort_by_year. erewrite bind_ok by reflexivity.
  done.
Qed.

(** What a call of [save_progress] in the loop is given. *)
Lemma snapshot_view fuel h0 records found i :
  view (heap_after W E fuel (h0 ++ records) found i)
    (sort_desc (year_at ((h0 ++ records) ++ found))
       (seq (length h0) (length records)
        ++ seq (length (h0 ++ records)) (length found)))
  = collection_after W E fuel records found i.
Proof.
  rewrite length_app, <- seq_app.
  rewrite (sort_desc_ext _ (year_at (heap_after W E fuel (h0 ++ records) found i)))
    by (intros r _; symmetry; apply heap_after_years).
  rewrite view_sort.
  - unfold collection_after, heap_after. f_equal.
    rewrite <- app_assoc.
    rewrite <- (app_nil_r (records ++ _ ++ _)) at 1.
    rewrite <- (view_seq h0 (records ++ (finished W E fuel <$> take i found)
                               ++ drop i found) []) at 2.
    do 2 f_equal. rewrite !length_app, length_fmap.
    rewrite <- (take_drop i found) at 1. rewrite length_app. lia.
  - apply Forall_forall. intros r Hr%elem_of_seq.
    rewrite heap_after_length, length_app. lia.
Qed.

Lemma main_loop fuel s records :
  (load_existing_data s).1 = Ok (JAuctions records) ->
  ∃ j res s',
    main W E fuel s = (res, s')
    ∧ j ≤ length (discovered W E records)
    ∧ saves s'
      = saves s
        ++ (collection_after W E fuel records (discovered W E records) <$> seq 1 j)
    ∧ ((res = Ok tt ∧ j = length (discovered W E records)
        ∧ (discovered W E records ≠ [] -> last_save_on_disk W s'))
       ∨ (res = Diverge
          ∧ ∃ a, a ∈ discovered W E records ∧ ¬ settles W E fuel a)).
Proof.
  intros Hload. rewrite (main_run fuel s records Hload).
  set (found := discovered W E records).
  set (data := sort_desc _ _).
  set (s3 := mkState _ _ _ _).
  destruct (process_loop fuel (heap s ++ records) found data (length found) 0 s3)
    as (j & res & s' & Hloop & Hj & Hsaves & Hend).
  { done. }
  { unfold heap_after. by rewrite take_0, drop_0. }
  rewrite Nat.add_0_r in Hloop.
  exists j, res, s'. split_and!; [done|done| |].
  - rewrite Hsaves. simpl. f_equal. apply list_fmap_ext.
    intros _ i _. apply snapshot_view.
  - destruct Hend as [(-> & -> & _ & Hdisk)|Hdiv]; [left|by right].
    split_and!; [done|done|]. intros Hne. apply Hdisk. left.
    by destruct found.
Qed.

(** C7.  In a run in which the page walk of every discovered auction is
    shorter than the bound, [main] comes back, and [save_progress] has
    been called once after each of the N discovered auctions, failed or
    not: the k-th call was given the whole collection -- the loaded
    records and all N discovered auctions, the first k of them as the
    detail stage left them, the others still without lots -- sorted by
    year.  An auction whose detail stage returned false is left without
    lots.  If the last write went through, the output file holds the
    collection of the N-th call. *)
Theorem checkpoint_after_every_auction
    (fuel : nat) (s : state) (records : list Auction.t) :
  (load_existing_data s).1 = Ok (JAuctions records) ->
  Forall (bounded W E fuel) (discovered W E records) ->
  ∃ s',
    main W E fuel s = (Ok tt, s')
    ∧ saves s'
      = saves s
        ++ (collection_after W E fuel records (discovered W E records)
              <$> seq 1 (length (discovered W E records)))
    ∧ (∀ a, a ∈ discovered W E records ->
            (scrape_auction_details W E fuel 0 (mkState [a] [] NoFile [])).1
            = Ok false ->
            finished W E fuel a = a ∧ Auction.lots a = [])
    ∧ (discovered W E records ≠ [] -> last_save_on_disk W s').
Proof.
  intros Hload Hbounded.
  destruct (main_loop fuel s records Hload)
    as (j & res & s' & Hmain & Hj & Hsaves & Hend).
  destruct Hend as [(-> & -> & Hdisk)|(_ & a & Ha & Hno)].
  - exists s'. split_and!; [done|done| |done].
    intros a Ha Hfalse.
    assert (Auction.lots a = []) as Hlots.
    { unfold discovered in Ha. rewrite sort_desc_perm in Ha.
      apply elem_of_collect in Ha as (c & _ & Hk & ->).
      by apply kept_record in Hk as (_ & _ & _ & ?). }
    split; [|done]. unfold finished, record_at.
    destruct (page_loop_returns W E fuel (Auction.url a) 1 [])
      as (res & Hres & _); [constructor|].
    destruct (detail_run W E fuel 0 _ a res (iso_lookup a) Hlots Hres)
      as [log Hrun].
    rewrite Hrun in Hfalse |- *. by destruct res.
  - exfalso. apply Hno, bounded_settles.
    by eapply Forall_forall in Hbounded.
Qed.

(** C10.  Every collection given to [save_progress] during a run holds
    each record that was loaded at its start, as it was loaded. *)
Theorem loaded_records_kept
    (fuel : nat) (s : state) (records : list Auction.t) (snap : list Auction.t) :
  (load_existing_data s).1 = Ok (JAuctions records) ->
  snap ∈ drop (length (saves s)) (saves (main W E fuel s).2) ->
  records ⊆+ snap.
Proof.
  intros Hload.
  destruct (main_loop fuel s records Hload)
    as (j & res & s' & Hmain & Hj & Hsaves & _).
  rewrite Hmain. simpl. rewrite Hsaves, drop_app_length.
  intros (i & -> & _)%list_elem_of_fmap.
  unfold collection_after. rewrite sort_desc_perm.
  apply submseteq_inserts_r. done.
Qed.

(** An auction that was loaded without lots is without lots in every
    collection the run saves: the loop of [main] never reaches it. *)
Lemma loaded_without_lots_stays_so
    (fuel : nat) (s : state) (records : list Auction.t)
    (a : Auction.t) (snap : list Auction.t) :
  (load_existing_data s).1 = Ok (JAuctions records) ->
  a ∈ records ->
  Auction.lots a = [] ->
  snap ∈ drop (length (saves s)) (saves (main W E fuel s).2) ->
  ∃ a', a' ∈ snap ∧ a' = a ∧ Auction.lots a' = [].
Proof.
  intros Hload Ha Hlots.
  destruct (main_loop fuel s records Hload)
    as (j & res & s' & Hmain & Hj & Hsaves & _).
  rewrite Hmain. simpl. rewrite Hsaves, drop_app_length.
  intros (i & -> & _)%list_elem_of_fmap.
  exists a. split_and!; [|done|done].
  unfold collection_after. rewrite sort_desc_perm.
  apply elem_of_app. by left.
Qed.

End MenziesRun.

(** ** The scripts on the sample site *)

Section SampleRuns.
Import Sample.

Lemma walk_sale_a_good :
  MenziesSpec.walk healthy menzies_env url_a 1 ["a-1"; "a-2"] true.
Proof.
  eapply MenziesSpec.walk_next; [reflexivity|discriminate|reflexivity|].
  eapply MenziesSpec.walk_last; [reflexivity|discriminate|reflexivity].
Defined.

Lemma walk_sale_a_bad :
  MenziesSpec.walk flaky menzies_env url_a 1 ["a-1"] true.
Proof.
  eapply MenziesSpec.walk_next; [reflexivity|discriminate|reflexivity|].
  eapply MenziesSpec.walk_failed. reflexivity.
Defined.

Lemma walk_sale_c :
  MenziesSpec.walk healthy menzies_env url_c 1 [] false.
Proof. apply MenziesSpec.walk_raises. reflexivity. Defined.

(** Sale A already has a lot: nothing is fetched. *)
Lemma detail_skip_witness :
  Menzies.scrape_auction_details good_day menzies_env 5 0
    (store [Auction.set_lots [lot_of "1"] sale_a])
  = (Ok true, store [Auction.set_lots [lot_of "1"] sale_a])
  ∧ fetched (Menzies.scrape_auction_details good_day menzies_env 5 0
               (store [Auction.set_lots [lot_of "1"] sale_a])).2 = []
  ∧ record_at 0 (Menzies.scrape_auction_details good_day menzies_env 5 0
                   (store [Auction.set_lots [lot_of "1"] sale_a]))
    = Some (Auction.set_lots [lot_of "1"] sale_a).
Proof.
  apply (detail_skip good_day menzies_env 5 0
           (store [Auction.set_lots [lot_of "1"] sale_a])
           (Auction.set_lots [lot_of "1"] sale_a));
    [reflexivity|discriminate].
Defined.

(** Sale A gets its five priced lots; lot 7, without a price, is not
    among them. *)
Lemma detail_lots_priced_witness :
  lots_ok sale_a
  ∧ ∃ a',
      record_at 0 (Menzies.scrape_auction_details good_day menzies_env 5 0
                     (store [sale_a])) = Some a'
      ∧ Auction.url a' = Auction.url sale_a
      ∧ lots_ok a'.
Proof.
  split; [constructor|].
  apply (detail_lots_priced good_day menzies_env 5 0 (store [sale_a]) sale_a);
    [reflexivity|constructor].
Defined.

(** Five lot tasks on page one, the third of which fails, finishing in
    reverse order; two on page two. *)
Lemma fan_out_keeps_row_order_witness :
  (∃ s',
     Menzies.scrape_auction_details good_day menzies_env 5 0 (store [sale_a])
     = (Ok true, s')
     ∧ heap s' !! 0
       = Some (Auction.set_lots
                 [lot_of "1"; lot_of "2"; lot_of "4"; lot_of "5"; lot_of "6"]
                 sale_a))
  ∧ (∃ s',
       DH.scrape_auction_details dh_day dh_env 0 (store [dh_sale])
       = (Ok true, s')
       ∧ heap s' !! 0 = Some (Auction.set_lots [dh_lot] dh_sale)).
Proof.
  split.
  - exact (proj1 fan_out_keeps_row_order healthy reversed all_written
             menzies_env 5 0 (store [sale_a]) sale_a ["a-1"; "a-2"]
             eq_refl eq_refl walk_sale_a_good
             (le_S _ _ (le_S _ _ (le_n 3)))).
  - exact (proj1 (proj2 fan_out_keeps_row_order) dh_pages reversed
             all_written dh_env 0 (store [dh_sale]) dh_sale "auction"
             eq_refl eq_refl eq_refl).
Defined.

(** The second page of sale A comes back as a failure: the stage returns
    true and sale A holds the lots of its first page. *)
Lemma detail_outcome_witness :
  (∃ s',
     Menzies.scrape_auction_details bad_day menzies_env 5 0 (store [sale_a])
     = (Ok true, s')
     ∧ heap s' !! 0 = Some (Auction.set_lots first_page_lots sale_a))
  ∧ (∃ s',
       Menzies.scrape_auction_details good_day menzies_env 5 0 (store [sale_c])
       = (Ok false, s')
       ∧ heap s' !! 0 = Some sale_c)
  ∧ (∃ s',
       DH.scrape_auction_details dh_day dh_env 0 (store [dh_sale])
       = (Ok true, s')
       ∧ heap s' !! 0 = Some (Auction.set_lots [dh_lot] dh_sale)).
Proof.
  split_and!.
  - refine (proj1 detail_outcome flaky reversed all_written menzies_env
              5 0 (store [sale_a]) sale_a ["a-1"] true
              eq_refl eq_refl _ walk_sale_a_bad
              (le_S _ _ (le_S _ _ (le_S _ _ (le_n 2))))).
    intros html H. discriminate H.
  - refine (proj1 detail_outcome healthy reversed all_written menzies_env
              5 0 (store [sale_c]) sale_c [] false
              eq_refl eq_refl _ walk_sale_c
              (le_S _ _ (le_S _ _ (le_S _ _ (le_S _ _ (le_n 1)))))).
    intros html H. discriminate H.
  - exact (proj2 detail_outcome dh_pages reversed all_written dh_env
             0 (store [dh_sale]) dh_sale eq_refl eq_refl).
Defined.

(** Against C1 as stated: with the second page failing, the lots of sale A
    are neither empty nor those of all its pages, but those of the first
    page, and the stage has returned true. *)
Lemma detail_partial_prefix :
  let partial :=
    Menzies.scrape_auction_details bad_day menzies_env 5 0 (store [sale_a]) in
  let full :=
    Menzies.scrape_auction_details good_day menzies_env 5 0 (store [sale_a]) in
  flaky (Menzies.page_url url_a 2) = Fetched false ""
  ∧ partial.1 = Ok true
  ∧ record_at 0 full = Some (Auction.set_lots all_lots sale_a)
  ∧ record_at 0 partial = Some (Auction.set_lots first_page_lots sale_a)
  ∧ first_page_lots ≠ []
  ∧ first_page_lots ≠ all_lots.
Proof. vm_compute. split_and!; try reflexivity; discriminate. Qed.

(** A first run on the sample site: sale C fails, sale A succeeds, and
    there are two saves. *)
Lemma checkpoint_after_every_auction_witness :
  (Menzies.load_existing_data resumed).1 = Ok (JAuctions [old_sale])
  ∧ Forall (MenziesSpec.bounded good_day menzies_env 5)
      (MenziesSpec.discovered good_day menzies_env [old_sale])
  ∧ ∃ s',
      Menzies.main good_day menzies_env 5 resumed = (Ok tt, s')
      ∧ saves s'
        = saves resumed
          ++ (MenziesSpec.collection_after good_day menzies_env 5 [old_sale]
                (MenziesSpec.discovered good_day menzies_env [old_sale])
                <$> seq 1 (length (MenziesSpec.discovered good_day menzies_env
                                     [old_sale])))
      ∧ (∀ a, a ∈ MenziesSpec.discovered good_day menzies_env [old_sale] ->
              (Menzies.scrape_auction_details good_day menzies_env 5 0
                 (mkState [a] [] NoFile [])).1 = Ok false ->
              MenziesSpec.finished good_day menzies_env 5 a = a
              ∧ Auction.lots a = [])
      ∧ (MenziesSpec.discovered good_day menzies_env [old_sale] ≠ [] ->
         MenziesSpec.last_save_on_disk good_day s').
Proof.
  assert (MenziesSpec.discovered good_day menzies_env [old_sale]
          = [sale_c; sale_a]) as Hfound by (vm_compute; reflexivity).
  assert (Forall (MenziesSpec.bounded good_day menzies_env 5)
            (MenziesSpec.discovered good_day menzies_env [old_sale])) as Hb.
  { rewrite Hfound. repeat constructor.
    - exists [], false. split; [exact walk_sale_c|repeat constructor].
    - exists ["a-1"; "a-2"], true.
      split; [exact walk_sale_a_good|repeat constructor]. }
  split; [reflexivity|]. split; [exact Hb|].
  exact (checkpoint_after_every_auction good_day menzies_env 5 resumed
           [old_sale] eq_refl Hb).
Defined.

Lemma loaded_records_kept_witness :
  (Menzies.load_existing_data resumed).1 = Ok (JAuctions [old_sale])
  ∧ [sale_c; old_sale; Auction.set_lots all_lots sale_a]
    ∈ drop (length (saves resumed))
        (saves (Menzies.main good_day menzies_env 5 resumed).2)
  ∧ [old_sale] ⊆+ [sale_c; old_sale; Auction.set_lots all_lots sale_a].
Proof.
  assert ([sale_c; old_sale; Auction.set_lots all_lots sale_a]
          ∈ drop (length (saves resumed))
              (saves (Menzies.main good_day menzies_env 5 resumed).2)) as Hin.
  { vm_compute. apply list_elem_of_further, list_elem_of_here. }
  split; [reflexivity|]. split; [exact Hin|].
  exact (loaded_records_kept good_day menzies_env 5 resumed [old_sale] _
           eq_refl Hin).
Defined.

(** C2 on auction_scraper.py.  The output file holds sale C and sale A
    without lots.  The next run fetches the results page and nothing else:
    both sales are known, so they are not discovered and the detail stage
    is not called on them; nothing is saved and the file stays as it was,
    although the crawler would deliver the pages of sale A. *)
Theorem unfilled_auctions_not_retried :
  let run := Menzies.main good_day menzies_env 5 interrupted in
  sale_a ∈ [sale_c; old_sale; sale_a]
  ∧ Auction.lots sale_a = []
  ∧ run.1 = Ok tt
  ∧ fetched run.2 = [Menzies.results_url]
  ∧ saves run.2 = []
  ∧ disk run.2 = Json (JAuctions [sale_c; old_sale; sale_a])
  ∧ record_at 0 (Menzies.scrape_auction_details good_day menzies_env 5 0
                   (store [sale_a]))
    = Some (Auction.set_lots all_lots sale_a).
Proof.
  vm_compute. split_and!; try reflexivity.
  apply list_elem_of_further, list_elem_of_further, list_elem_of_here.
Qed.

(** The same situation in deutscherandhackett_scraper.py: the auction in
    the file without lots goes through the detail stage again.  The
    fetches of the two lot pages are read up to their order. *)
Lemma dh_unfilled_auction_retried :
  let run := DH.main dh_day dh_env dh_interrupted in
  run.1 = Ok tt
  ∧ fetched run.2
    ≡ₚ [dh_url; DH.site_root +:+ "/auction/lot/1"; DH.site_root +:+ "/auction/lot/3"]
  ∧ disk run.2 = Json (JAuctions [Auction.set_lots [dh_lot] dh_sale]).
Proof.
  vm_compute. split_and!; [reflexivity| |reflexivity].
  apply Permutation_skip, Permutation_swap.
Qed.

(** A snapshot that is not JSON stops deutscherandhackett_scraper.py,
    which reads it outside any [try]. *)
Lemma dh_garbled_snapshot_raises :
  (DH.main dh_day dh_env (mkState [] [] Garbled [])).1 = Raise JSONDecodeError.
Proof. reflexivity. Qed.

(** C9 on deutscherandhackett_scraper.py.  The output file is there but
    holds text that is not JSON, or cannot be opened.  On such a file
    [load_existing_data] of auction_scraper.py comes back with the empty
    list and leaves the store alone.  [main] of
    deutscherandhackett_scraper.py loads the file inline, outside any
    handler: the exception of [json.load], or of [open], reaches the
    caller of [main], before anything is fetched or saved, although the
    crawler would deliver the pages. *)
Theorem dh_corrupt_snapshot_raises :
  let corrupt := mkState [] [] Garbled [] in
  let locked := mkState [] [] Unreadable [] in
  Menzies.load_existing_data corrupt = (Ok (JAuctions []), corrupt)
  ∧ Menzies.load_existing_data locked = (Ok (JAuctions []), locked)
  ∧ DH.main dh_day dh_env corrupt = (Raise JSONDecodeError, corrupt)
  ∧ DH.main dh_day dh_env locked = (Raise OSError, locked)
  ∧ site dh_day dh_url = Fetched true "auction".
Proof. vm_compute. split_and!; reflexivity. Qed.

End SampleRuns.

(** * Further properties of the scripts *)

(** ** Discovery on auction_scraper.py *)

Section MenziesDiscoveryMore.
Import Menzies MenziesSpec.
Context (W : world) (E : env).

(** X1.  Discovery on auction_scraper.py fetches the results page once and
    never raises: when the crawler raises, reports a failure, or delivers
    a page without any catalogue, the result is the empty list and the
    store only gains the one fetch. *)
Theorem discovery_failure_is_empty
    (url : string) (existing_urls : option (gset string)) (s : state) :
  site W url = FetchRaises
  ∨ (∃ html, site W url = Fetched false html)
  ∨ (∃ html, site W url = Fetched true html ∧ catalogue_divs E html = []) ->
  scrape_past_auctions W E url existing_urls s = (Ok [], add_fetched [url] s).
Proof.
  intros H. unfold scrape_past_auctions, try_except, bind, arun, add_fetched.
  destruct H as [-> | [[html ->] | (html & -> & Hdivs)]]; simpl; try done.
  by rewrite Hdivs.
Qed.

(** X2.  Year resolution on auction_scraper.py: with no year in the date
    line, a preceding [year-N] anchor decides alone.  When its number is
    outside 2015-2025 the catalogue is passed over, whatever the headings
    before it and its own text say. *)
Theorem anchor_year_beats_headings
    (existing_urls : gset string) (acc : list Auction.t) (c : catalogue)
    (anchor_id : string) :
  date_elem c = None ∨ (∃ t, date_elem c = Some t ∧ year_search E t = None) ->
  year_anchor c = Some anchor_id ->
  replace "year-" "" anchor_id ∉ valid_years ->
  visit_catalogue E existing_urls acc c = acc.
Proof.
  intros Hdate Hanchor Hout. unfold visit_catalogue.
  assert (resolve_year E c = Some (replace "year-" "" anchor_id)) as ->.
  { unfold resolve_year. rewrite Hanchor.
    by destruct Hdate as [-> | (t & -> & ->)]. }
  simpl. by rewrite bool_decide_eq_false_2.
Qed.

End MenziesDiscoveryMore.

(** ** Lot pages and page walks on auction_scraper.py *)

Section MenziesLotMore.
Import Menzies MenziesSpec.
Context (W : world) (E : env).

Lemma price_of_span_formatted t p :
  price_of_span E t = Some p -> ∃ n, p = format_price n.
Proof.
  unfold price_of_span. destruct (int_of E _) as [n|]; [|done].
  intros [= <-]. by exists n.
Qed.

Lemma find_sold_price_formatted page p :
  find_sold_price E page = Some p -> ∃ n, p = format_price n.
Proof.
  assert (∀ paras, sold_for_price E paras = Some p -> ∃ n, p = format_price n)
    as Hsold.
  { induction paras as [|q paras IH]; simpl; [done|].
    destruct (sold_for q); [|done].
    destruct (price_spans q); [done|]. apply price_of_span_formatted. }
  assert (∀ paras, result_hammer_price E paras = Some p -> ∃ n, p = format_price n)
    as Hhammer.
  { induction paras as [|q paras IH]; simpl; [done|].
    destruct (result_hammer q); [|done].
    destruct (price_spans q); [done|]. apply price_of_span_formatted. }
  unfold find_sold_price.
  destruct (details_div page) as [paras|].
  - destruct (sold_for_price E paras) eqn:Hp.
    + intros [= <-]. by eapply Hsold.
    + destruct (description_div page); [apply Hhammer|done].
  - destruct (description_div page); [apply Hhammer|done].
Qed.

Lemma describe_settles page : describe page ≠ Diverge.
Proof.
  unfold describe.
  repeat (match goal with
          | |- match ?x with _ => _ end ≠ _ => destruct x
          end; try done).
Qed.

(** X3.  [scrape_lot_details] of auction_scraper.py always comes back
    with a value, and all it does to the store is one fetch, of the lot
    URL made absolute.  A lot it returns carries that URL, no back-reference
    yet, none of the keys of the other site, and a price of the form
    [f"${n:,}"] for an integer [n]. *)
Theorem lot_details_one_fetch (lot_url : string) (s : state) :
  let u :=
    if startswith "/" lot_url then urljoin E site_root lot_url else lot_url in
  ∃ v,
    scrape_lot_details W E lot_url s = (Ok v, add_fetched [u] s)
    ∧ ∀ lot,
        v = Some lot ->
        Lot.url lot = u
        ∧ Lot.extra lot = []
        ∧ Lot.auctionUrl lot = None
        ∧ ∃ n, Lot.price lot = Some (format_price n).
Proof.
  intros u. unfold scrape_lot_details, try_except, bind, arun. fold u.
  destruct (site W u) as [|[] html]; simpl.
  - by exists None.
  - unfold lot_of_page.
    pose proof (describe_settles (lot_page_of E html)) as Hset.
    destruct (describe (lot_page_of E html)) as [[[[artist title] medium] size]|e|];
      [|by exists None|done].
    destruct (find_sold_price E (lot_page_of E html)) as [p|] eqn:Hp.
    + eexists. split; [done|]. intros lot [= <-]. simpl.
      destruct (find_sold_price_formatted _ _ Hp) as [n ->]. eauto.
    + by exists None.
  - by exists None.
Qed.

(** X4.  A lot page whose description block has no paragraph yields no
    lot, even when a price is on the page: [title_p] is read before it is
    assigned, and the handler of the function turns the exception into
    [None]. *)
Theorem description_without_paragraph_drops_lot
    (lot_url html : string) (d : description) (s : state) :
  let u :=
    if startswith "/" lot_url then urljoin E site_root lot_url else lot_url in
  site W u = Fetched true html ->
  description_div (lot_page_of E html) = Some d ->
  artist_p d = None ->
  scrape_lot_details W E lot_url s = (Ok None, add_fetched [u] s).
Proof.
  intros u Hsite Hd Hp.
  unfold scrape_lot_details, try_except, bind, arun. fold u.
  rewrite Hsite. simpl. unfold lot_of_page, describe. by rewrite Hd, Hp.
Qed.

Lemma sold_for_price_skips pre rest :
  Forall (λ q, sold_for q = false ∨ price_spans q = []) pre ->
  sold_for_price E (pre ++ rest) = sold_for_price E rest.
Proof.
  induction 1 as [|q pre [Hq|Hq] _ IH]; simpl; [done|by rewrite Hq..|].
  rewrite Hq. by destruct (sold_for q).
Qed.

(** X5.  The search for a "Sold For:" price ends at the first such
    paragraph that has a price span.  If the text of that span is not an
    integer, later "Sold For:" paragraphs are not read, and the price is
    whatever the "Result Hammer:" search in the description gives. *)
Theorem mistyped_sold_for_ends_search
    (page : lot_page) (pre rest : list para) (p : para)
    (span : string) (spans : list string) :
  details_div page = Some (pre ++ p :: rest) ->
  Forall (λ q, sold_for q = false ∨ price_spans q = []) pre ->
  sold_for p = true ->
  price_spans p = span :: spans ->
  int_of E (replace "," "" span) = None ->
  find_sold_price E page
  = match description_div page with
    | Some d => result_hammer_price E (description_paras d)
    | None => None
    end.
Proof.
  intros Hdiv Hpre Hsold Hspans Hint. unfold find_sold_price.
  rewrite Hdiv, sold_for_price_skips by done. simpl.
  rewrite Hsold, Hspans. unfold price_of_span. rewrite Hint.
  by destruct (description_div page).
Qed.

Lemma string_app_length (a b : string) :
  String.length (a +:+ b) = String.length a + String.length b.
Proof. induction a; simpl; [done|]. by rewrite IHa. Qed.

(** X6.  The pages of one auction have pairwise different URLs: page 1 is
    the auction URL itself, page [n > 1] adds [?page=n]. *)
Theorem page_urls_distinct (base_url : string) (p q : nat) :
  1 ≤ p -> 1 ≤ q -> p ≠ q -> page_url base_url p ≠ page_url base_url q.
Proof.
  intros Hp Hq Hne Heq. apply Hne. revert Heq. unfold page_url.
  destruct (decide (1 < p)), (decide (1 < q)); intros Heq.
  - apply (inj (String.append base_url)) in Heq.
    apply (inj (String.append "?page=")) in Heq.
    by apply (inj pretty) in Heq.
  - apply (f_equal String.length) in Heq.
    rewrite string_app_length in Heq. simpl in Heq. lia.
  - apply (f_equal String.length) in Heq.
    rewrite string_app_length in Heq. simpl in Heq. lia.
  - lia.
Qed.

Lemma prefix_app (a b : string) : String.prefix a (a +:+ b) = true.
Proof.
  induction a as [|c a IH]; simpl; [by destruct b|].
  destruct (ascii_dec c c); [done|congruence].
Qed.

Lemma contains_prefix (needle s : string) :
  String.prefix needle s = true -> contains needle s = true.
Proof. intros H. destruct s; cbn [contains]; by rewrite H. Qed.

Lemma contains_app (needle pre suf : string) :
  contains needle (pre +:+ (needle +:+ suf)) = true.
Proof.
  induction pre as [|c pre IH].
  - change (contains needle (needle +:+ suf) = true).
    apply contains_prefix, prefix_app.
  - change (contains needle (String c (pre +:+ (needle +:+ suf))) = true).
    cbn [contains]. rewrite IH. apply orb_true_r.
Qed.

(** X7.  The test for a next page is a substring test on the links of the
    navigation block: any link whose href contains [page=] followed by the
    digits of the next page number counts, also when more digits follow. *)
Theorem next_page_is_substring_test
    (pg : auction_page) (page : nat) (pre suf : string) :
  pre +:+ (("page=" +:+ str (page + 1)) +:+ suf) ∈ nav_hrefs pg ->
  next_page pg page = true.
Proof.
  intros Hin. unfold next_page. apply existsb_exists.
  eexists. split; [by apply list_elem_of_In|]. apply contains_app.
Qed.

End MenziesLotMore.

(** ** Saving, loading and whole runs on auction_scraper.py *)

Section MenziesRunMore.
Import Menzies MenziesSpec.
Context (W : world) (E : env).

Lemma set_lots_same a : Auction.set_lots (Auction.lots a) a = a.
Proof. by destruct a. Qed.

(** X8.  Frame of the detail stage of auction_scraper.py, called on an
    auction dictionary of the store: it never raises, leaves the output
    file and the record of saves alone, only adds to the fetches, leaves
    every other dictionary as it was, and changes at most the lots of its
    own auction, and those only when it had none. *)
Theorem detail_stage_frame
    (fuel : nat) (r : loc) (s : state) (a : Auction.t) :
  heap s !! r = Some a ->
  let res := scrape_auction_details W E fuel r s in
  ((∃ b, res.1 = Ok b) ∨ res.1 = Diverge)
  ∧ disk res.2 = disk s
  ∧ saves res.2 = saves s
  ∧ fetched s `prefix_of` fetched res.2
  ∧ (∀ r', r' ≠ r -> heap res.2 !! r' = heap s !! r')
  ∧ ∃ lots,
      heap res.2 !! r = Some (Auction.set_lots lots a)
      ∧ (Auction.lots a ≠ [] -> lots = Auction.lots a).
Proof.
  intros Hr res. subst res.
  destruct (detail_general W E fuel r s a Hr) as (log & -> & Hres & Hfin).
  simpl. split_and!; [done|done|done|by eexists| |].
  - intros r' Hne. by rewrite list_lookup_insert_ne.
  - assert (r < length (heap s)) as Hlt by by eapply lookup_lt_Some.
    rewrite list_lookup_insert_eq by done.
    destruct Hfin as [-> | (lots & Hlots & ->)].
    + exists (Auction.lots a). by rewrite set_lots_same.
    + exists lots. split; [done|]. by rewrite Hlots.
Qed.

(** X9.  Round trip on auction_scraper.py: after a [save_progress] whose
    write goes through, [load_existing_data] gives back the collection that
    was saved. *)
Theorem save_then_load (data : list loc) (s : state) :
  write W (length (saves s)) = Written ->
  (load_existing_data (save_progress W data s).2).1
  = Ok (JAuctions (view (heap s) data)).
Proof.
  intros Hw. destruct (save_progress_run W data s) as (d & -> & Hd).
  rewrite (Hd Hw). reflexivity.
Qed.

(** X10.  A failed write in [save_progress] of auction_scraper.py is
    swallowed.  If [open] fails the file stays as it was; if [json.dump]
    fails the file is left truncated, and the next [load_existing_data]
    starts from the empty list: the earlier snapshot is lost. *)
Theorem failed_save_is_silent (data : list loc) (s : state) :
  write W (length (saves s)) ≠ Written ->
  (save_progress W data s).1 = Ok tt
  ∧ disk (save_progress W data s).2
    = (if write W (length (saves s)) is DumpFails then Garbled else disk s)
  ∧ (write W (length (saves s)) = DumpFails ->
     (load_existing_data (save_progress W data s).2).1 = Ok (JAuctions [])).
Proof.
  intros Hw.
  unfold save_progress, try_except, bind, get_state, write_file.
  destruct (write W (length (saves s))); done.
Qed.

(** X11.  [main] of auction_scraper.py never raises when the output file
    is absent, cannot be opened, does not hold JSON, holds a value without
    a length, or holds a list of auction dictionaries as the script writes
    them.  When the file holds an empty JSON object or an empty string,
    which [load_existing_data] hands on as it is, the run fetches the
    results page and then raises [TypeError] on
    [existing_data + new_auctions], saving nothing. *)
Theorem main_never_raises_on_auction_list (fuel : nat) (s : state) :
  ((∀ empty, disk s ≠ Json (JOther empty)) ->
   ∀ e, (main W E fuel s).1 ≠ Raise e)
  ∧ (disk s = Json (JOther true) ->
     main W E fuel s = (Raise TypeError, add_fetched [results_url] s)).
Proof.
  split; cycle 1.
  { intros Hd.
    assert (load_existing_data s = (Ok (JOther true), s)) as Hload.
    { unfold load_existing_data, try_except, read_file. by rewrite Hd. }
    unfold main. erewrite bind_ok by exact Hload. cbv beta iota.
    by erewrite bind_ok by apply scrape_past_auctions_run. }
  intros Hlist e Hraise.
  destruct (disk s) as [| | |[recs|empty|]] eqn:Hd;
    [..|by destruct (Hlist empty)|].
  all: exfalso.
  all: assert (∃ records, (load_existing_data s).1 = Ok (JAuctions records))
         as [records Hload]
         by (unfold load_existing_data, try_except, read_file; rewrite Hd;
             by eexists).
  all: destruct (main_loop W E fuel s records Hload)
         as (j & res & s' & Hrun & _ & _ & [(-> & _)|(-> & _)]).
  all: by rewrite Hrun in Hraise.
Qed.

Lemma main_no_new fuel s records :
  (load_existing_data s).1 = Ok (JAuctions records) ->
  discovered W E records = [] ->
  main W E fuel s
  = (Ok tt,
     mkState (heap s ++ records) (fetched s ++ [results_url]) (disk s) (saves s)).
Proof.
  intros Hload Hnone. rewrite (main_run W E fuel s records Hload), Hnone.
  simpl. by rewrite app_nil_r.
Qed.

(** X12.  When the results page cannot be had (the crawler raises or
    reports a failure, or the page has no catalogue), a run of
    auction_scraper.py ends normally without calling [save_progress]: the
    output file is neither created nor rewritten. *)
Theorem failed_discovery_leaves_file
    (fuel : nat) (s : state) (records : list Auction.t) :
  (load_existing_data s).1 = Ok (JAuctions records) ->
  site W results_url = FetchRaises
  ∨ (∃ html, site W results_url = Fetched false html)
  ∨ (∃ html, site W results_url = Fetched true html ∧ catalogue_divs E html = []) ->
  ∃ s',
    main W E fuel s = (Ok tt, s')
    ∧ fetched s' = fetched s ++ [results_url]
    ∧ saves s' = saves s
    ∧ disk s' = disk s.
Proof.
  intros Hload Hsite. rewrite (main_no_new fuel s records Hload).
  - by eexists.
  - unfold discovered, listing.
    by destruct Hsite as [-> | [[html ->] | (html & -> & ->)]].
Qed.

Lemma finished_url fuel a : Auction.url (finished W E fuel a) = Auction.url a.
Proof.
  destruct (detail_general W E fuel 0 _ a (iso_lookup a))
    as (_ & _ & _ & [->|(lots & _ & ->)]); done.
Qed.

Lemma load_disk s s' :
  disk s = disk s' -> (load_existing_data s).1 = (load_existing_data s').1.
Proof.
  intros Hd. unfold load_existing_data, try_except, read_file. rewrite Hd.
  by destruct (disk s') as [| | |[]].
Qed.

(** X13.  Every collection a run of auction_scraper.py saves is in
    descending order of the year texts, and the sequence of its years is
    the same in every save of the run: the sorted years of the loaded and
    the discovered auctions.  The detail stage never moves an auction. *)
Theorem snapshots_sorted_by_year
    (fuel : nat) (s : state) (records snap : list Auction.t) :
  (load_existing_data s).1 = Ok (JAuctions records) ->
  snap ∈ drop (length (saves s)) (saves (main W E fuel s).2) ->
  StronglySorted year_desc snap
  ∧ Auction.year <$> snap
    = sort_desc id (Auction.year <$> records ++ discovered W E records).
Proof.
  intros Hload Hsnap.
  destruct (main_loop W E fuel s records Hload)
    as (j & res & s' & Hrun & _ & Hsaves & _).
  rewrite Hrun in Hsnap. simpl in Hsnap.
  rewrite Hsaves, drop_app_length in Hsnap.
  apply list_elem_of_fmap in Hsnap as (i & -> & _).
  unfold collection_after. split; [apply sort_desc_sorted|].
  change Auction.year with (id ∘ Auction.year) at 1.
  rewrite (sort_desc_fmap id Auction.year). f_equal.
  rewrite !fmap_app, <- list_fmap_compose. f_equal.
  rewrite <- (take_drop i (discovered W E records)) at 3.
  rewrite fmap_app. f_equal.
  apply list_fmap_ext. intros ? a _. simpl. apply finished_year.
Qed.

End MenziesRunMore.

Section Rerun.
Import Menzies MenziesSpec.

(** X14.  A run of auction_scraper.py that comes back, with every write
    going through, leaves a file from which the next run loads the loaded
    and the new auctions; if the results page is still the same, that next
    run discovers nothing: it fetches the results page only and saves
    nothing, whatever the crawler would do for the auction pages. *)
Theorem second_run_fetches_no_auction
    (W W2 : world) (E : env) (fuel fuel2 : nat) (s : state)
    (records : list Auction.t) :
  (load_existing_data s).1 = Ok (JAuctions records) ->
  Forall (bounded W E fuel) (discovered W E records) ->
  (∀ n, write W n = Written) ->
  site W2 results_url = site W results_url ->
  ∃ s1 s2 records',
    main W E fuel s = (Ok tt, s1)
    ∧ (load_existing_data s1).1 = Ok (JAuctions records')
    ∧ records' ≡ₚ records ++ (finished W E fuel <$> discovered W E records)
    ∧ main W2 E fuel2 s1 = (Ok tt, s2)
    ∧ fetched s2 = fetched s1 ++ [results_url]
    ∧ saves s2 = saves s1
    ∧ disk s2 = disk s1.
Proof.
  intros Hload Hb Hw Hsite.
  assert (∀ recs, discovered W2 E recs = discovered W E recs) as Hsame.
  { intros recs. unfold discovered, listing. by rewrite Hsite. }
  set (found := discovered W E records) in *.
  assert (∃ s1 records',
            main W E fuel s = (Ok tt, s1)
            ∧ (load_existing_data s1).1 = Ok (JAuctions records')
            ∧ records' ≡ₚ records ++ (finished W E fuel <$> found))
    as (s1 & records' & Hrun & Hload1 & Hperm).
  { destruct (decide (found = [])) as [Hnone|Hsome].
    - eexists _, records. split; [by apply main_no_new|]. split.
      + rewrite <- Hload. by apply load_disk.
      + rewrite Hnone. simpl. by rewrite app_nil_r.
    - destruct (main_loop W E fuel s records Hload)
        as (j & res & s1 & Hrun & _ & Hsaves & [(-> & -> & Hdisk)|(_ & a & Ha & Hna)]).
      + fold found in Hsaves, Hdisk.
        exists s1, (collection_after W E fuel records found (length found)).
        split; [done|]. split.
        * specialize (Hdisk Hsome).
          assert (length found ≠ 0) as Hlen by by destruct found.
          unfold load_existing_data, try_except, read_file.
          rewrite (Hdisk (collection_after W E fuel records found (length found)));
            [done| |apply Hw].
          rewrite Hsaves, last_app.
          destruct (length found) as [|n] eqn:Hn; [done|].
          rewrite seq_S, fmap_app, last_app. done.
        * unfold collection_after. rewrite sort_desc_perm.
          by rewrite firstn_all, drop_all, app_nil_r.
      + exfalso. apply Hna, bounded_settles.
        by eapply (proj1 (Forall_forall _ _) Hb). }
  assert (discovered W2 E records' = []) as Hnone.
  { rewrite Hsame. unfold discovered. rewrite collect_kept.
    rewrite filter_none; [done|].
    intros c Hc Hkept. apply Is_true_true in Hkept.
    set (K := list_to_set (Auction.url <$> records) : gset string).
    set (K' := list_to_set (Auction.url <$> records') : gset string) in *.
    destruct (kept_record E K' c Hkept) as (_ & _ & Hnotin & _).
    apply Hnotin. unfold K'. apply elem_of_list_to_set, list_elem_of_fmap.
    exists (finished W E fuel (record_of E c)). split; [by rewrite finished_url|].
    rewrite Hperm. apply elem_of_app. right. apply list_elem_of_fmap.
    eexists. split; [done|]. unfold found, discovered.
    rewrite sort_desc_perm. apply elem_of_collect.
    exists c. split; [done|]. split; [|done].
    unfold kept in *. apply andb_true_iff in Hkept as [Hkept Hk'].
    rewrite Hkept. simpl. apply negb_true_iff, bool_decide_eq_false.
    apply negb_true_iff, bool_decide_eq_false in Hk'.
    intros Hin. apply Hk'. unfold K'.
    apply elem_of_list_to_set. rewrite Hperm, fmap_app. apply elem_of_app. left.
    by apply elem_of_list_to_set in Hin. }
  exists s1. eexists. exists records'.
  rewrite (main_no_new W2 E fuel2 s1 records' Hload1 Hnone).
  by split_and!.
Qed.

End Rerun.

(** ** Discovery on deutscherandhackett_scraper.py *)

Section DHDiscovery.
Import DH DHSpec DHRun.
Context (W : world) (E : env).

Lemma dh_visit_headings_stop acc pre h rest :
  stops E h ->
  visit_headings E acc (pre ++ h :: rest) = visit_headings E acc pre.
Proof.
  intros (Hdigit & n & Hint & Hle). revert acc.
  induction pre as [|h' pre IH]; intros acc.
  - simpl. rewrite Hdigit, Hint. by rewrite bool_decide_eq_true_2.
  - simpl. destruct (isdigit E (heading_text h')).
    + destruct (int_of E (heading_text h')) as [m|]; [|done].
      destruct (bool_decide (m ≤ 2014)%Z); [done|].
      destruct (visit_siblings _ _ _); [apply IH|done..].
    + destruct (visit_siblings _ _ _); [apply IH|done..].
Qed.

Lemma dh_visit_sibling_settles year acc el :
  visit_sibling year acc el ≠ Diverge.
Proof.
  assert (∀ div default, field_text div default ≠ Diverge) as Hfield.
  { by intros [[]|] default. }
  unfold visit_sibling.
  destruct (negb _); [done|].
  destruct (auction_link el) as [[href title]|]; [|done].
  destruct (contains _ _); [done|]. cbv zeta.
  pose proof (Hfield (location_div el) "No location found").
  destruct (field_text (location_div el) _); [|done..].
  pose proof (Hfield (date_div el) "No date found").
  destruct (field_text (date_div el) _); [|done..].
  pose proof (Hfield (sale_div el) "No sale number found").
  by destruct (field_text (sale_div el) _).
Qed.

Lemma dh_visit_siblings_settles year acc els :
  visit_siblings year acc els ≠ Diverge.
Proof.
  revert acc. induction els as [|el els IH]; intros acc; simpl; [done|].
  pose proof (dh_visit_sibling_settles year acc el).
  destruct (visit_sibling year acc el); [apply IH|done..].
Qed.

Lemma dh_visit_headings_settles acc hs : visit_headings E acc hs ≠ Diverge.
Proof.
  revert acc. induction hs as [|h hs IH]; intros acc; simpl; [done|].
  pose proof (dh_visit_siblings_settles (heading_text h) acc (siblings h)).
  destruct (isdigit E (heading_text h)).
  - destruct (int_of E (heading_text h)) as [n|]; [|done].
    destruct (bool_decide (n ≤ 2014)%Z); [done|].
    destruct (visit_siblings _ _ _); [apply IH|done..].
  - destruct (visit_siblings _ _ _); [apply IH|done..].
Qed.

Lemma dh_scrape_past_auctions_run url s :
  scrape_past_auctions W E url s
  = (Ok match site W url with
        | Fetched true html =>
            match visit_headings E [] (year_headings E html) with
            | Ok found => found
            | _ => []
            end
        | _ => []
        end, add_fetched [url] s).
Proof.
  unfold scrape_past_auctions, try_except, bind, arun, add_fetched, lift.
  destruct (site W url) as [|[] html]; simpl; [done| |done].
  pose proof (dh_visit_headings_settles [] (year_headings E html)).
  by destruct (visit_headings E [] (year_headings E html)).
Qed.

(** X15.  Discovery on deutscherandhackett_scraper.py stops at the first
    heading whose text is a number up to 2014: the headings after it are
    not read, whatever their years. *)
Theorem headings_after_stop_ignored
    (url html : string) (pre rest : list heading) (h : heading) (s : state) :
  site W url = Fetched true html ->
  year_headings E html = pre ++ h :: rest ->
  stops E h ->
  scrape_past_auctions W E url s
  = (Ok match visit_headings E [] pre with
        | Ok found => found
        | _ => []
        end, add_fetched [url] s).
Proof.
  intros Hsite Hhs Hstop.
  by rewrite dh_scrape_past_auctions_run, Hsite, Hhs, dh_visit_headings_stop.
Qed.

Lemma dh_malformed_raises year acc el :
  malformed el -> visit_sibling year acc el = Raise AttributeError.
Proof.
  intros (Hrow & (href & title & Hlink & Hpast) & Hfield).
  unfold visit_sibling. rewrite Hrow, Hlink, Hpast. simpl.
  destruct Hfield as [-> | [-> | ->]]; simpl; [done| |].
  - by destruct (location_div el) as [[]|].
  - by destruct (location_div el) as [[]|], (date_div el) as [[]|].
Qed.

Lemma dh_visit_siblings_app year acc pre rest acc' :
  visit_siblings year acc pre = Ok acc' ->
  visit_siblings year acc (pre ++ rest) = visit_siblings year acc' rest.
Proof.
  revert acc. induction pre as [|el pre IH]; intros acc; simpl.
  - by intros [= ->].
  - destruct (visit_sibling year acc el); [apply IH|done..].
Qed.

Lemma dh_visit_headings_app acc pre rest acc' :
  Forall (passes E) pre ->
  visit_headings E acc pre = Ok acc' ->
  visit_headings E acc (pre ++ rest) = visit_headings E acc' rest.
Proof.
  intros Hpre. revert acc.
  induction Hpre as [|h pre Hh _ IH]; intros acc; simpl.
  - by intros [= ->].
  - destruct Hh as [-> | (n & -> & Hlt)].
    + destruct (visit_siblings _ _ _); [apply IH|done..].
    + destruct (isdigit E (heading_text h)).
      * rewrite bool_decide_eq_false_2 by lia.
        destruct (visit_siblings _ _ _); [apply IH|done..].
      * destruct (visit_siblings _ _ _); [apply IH|done..].
Qed.

(** X16.  Discovery on deutscherandhackett_scraper.py is all or nothing.
    A row with an accepted link in which a field block lacks its inner
    element raises inside the loop, and the handler returns the empty
    list: the records collected before that row are dropped. *)
Theorem malformed_row_empties_discovery
    (url html : string) (hs_pre hs_rest : list heading) (h : heading)
    (els_pre els_rest : list sibling) (el : sibling)
    (acc acc' : list Auction.t) (s : state) :
  site W url = Fetched true html ->
  year_headings E html = hs_pre ++ h :: hs_rest ->
  Forall (passes E) hs_pre ->
  visit_headings E [] hs_pre = Ok acc ->
  passes E h ->
  siblings h = els_pre ++ el :: els_rest ->
  visit_siblings (heading_text h) acc els_pre = Ok acc' ->
  malformed el ->
  scrape_past_auctions W E url s = (Ok [], add_fetched [url] s).
Proof.
  intros Hsite Hhs Hpre Hacc Hh Hels Hacc' Hbad.
  rewrite dh_scrape_past_auctions_run, Hsite, Hhs.
  rewrite (dh_visit_headings_app _ _ _ _ Hpre Hacc).
  assert (visit_siblings (heading_text h) acc (siblings h)
          = Raise AttributeError) as Hraise.
  { rewrite Hels, (dh_visit_siblings_app _ _ _ _ _ Hacc'). simpl.
    by rewrite dh_malformed_raises. }
  simpl. destruct Hh as [-> | (n & -> & Hlt)].
  - by rewrite Hraise.
  - destruct (isdigit E (heading_text h)).
    + rewrite bool_decide_eq_false_2 by lia. by rewrite Hraise.
    + by rewrite Hraise.
Qed.

Lemma dh_visit_sibling_ok hs h acc el acc' :
  h ∈ hs -> ¬ stops E h ->
  Forall (record_ok E hs) acc ->
  visit_sibling (heading_text h) acc el = Ok acc' ->
  Forall (record_ok E hs) acc'.
Proof.
  intros Hin Hgo Hacc. unfold visit_sibling.
  destruct (negb _); [by intros [= <-]|].
  destruct (auction_link el) as [[href title]|]; [|by intros [= <-]].
  destruct (contains _ _); [by intros [= <-]|]. cbv zeta.
  destruct (field_text (location_div el) _); [|done..].
  destruct (field_text (date_div el) _); [|done..].
  destruct (field_text (sale_div el) _); [|done..].
  intros [= <-]. apply Forall_app. split; [done|].
  apply Forall_singleton. split_and!; simpl; [done| |done|by exists h].
  by destruct (startswith "/" href) eqn:Hslash.
Qed.

Lemma dh_visit_siblings_ok hs h els acc acc' :
  h ∈ hs -> ¬ stops E h ->
  Forall (record_ok E hs) acc ->
  visit_siblings (heading_text h) acc els = Ok acc' ->
  Forall (record_ok E hs) acc'.
Proof.
  intros Hin Hgo. revert acc.
  induction els as [|el els IH]; intros acc Hacc; simpl.
  - by intros [= <-].
  - destruct (visit_sibling _ acc el) as [acc1| |] eqn:Hel; [|done..].
    apply IH. by eapply dh_visit_sibling_ok.
Qed.

Lemma dh_visit_headings_ok hs0 hs acc out :
  hs ⊆ hs0 ->
  Forall (record_ok E hs0) acc ->
  visit_headings E acc hs = Ok out ->
  Forall (record_ok E hs0) out.
Proof.
  revert acc. induction hs as [|h hs IH]; intros acc Hsub Hacc; simpl.
  - by intros [= <-].
  - assert (h ∈ hs0) as Hin by (apply Hsub; left).
    assert (hs ⊆ hs0) as Hsub' by (intros x Hx; apply Hsub; by right).
    destruct (isdigit E (heading_text h)) eqn:Hdigit.
    + destruct (int_of E (heading_text h)) as [n|] eqn:Hint; [|done].
      destruct (bool_decide (n ≤ 2014)%Z) eqn:Hle; [by intros [= <-]|].
      apply bool_decide_eq_false in Hle.
      destruct (visit_siblings _ _ _) as [acc1| |] eqn:Hels; [|done..].
      apply IH; [done|]. eapply dh_visit_siblings_ok; [done| |done..].
      intros (_ & m & Hm & Hmle). rewrite Hint in Hm. by injection Hm as <-.
    + destruct (visit_siblings _ _ _) as [acc1| |] eqn:Hels; [|done..].
      apply IH; [done|]. eapply dh_visit_siblings_ok; [done| |done..].
      intros (Hd & _). congruence.
Qed.

(** X17.  Discovery on deutscherandhackett_scraper.py fetches once and
    never raises.  Every record it returns has no lots, a URL that is not
    site-relative, the two keys location and sale_number, and as its year
    the text of a heading of the page at which the loop did not stop. *)
Theorem dh_discovery_records (url : string) (s : state) :
  ∃ out,
    scrape_past_auctions W E url s = (Ok out, add_fetched [url] s)
    ∧ match site W url with
      | Fetched true html => Forall (record_ok E (year_headings E html)) out
      | _ => out = []
      end.
Proof.
  rewrite dh_scrape_past_auctions_run. eexists. split; [done|].
  destruct (site W url) as [|[] html]; [done| |done].
  destruct (visit_headings E [] (year_headings E html)) as [out| |] eqn:Hout;
    [|done..].
  by eapply dh_visit_headings_ok.
Qed.

End DHDiscovery.

(** ** Lot pages and the detail stage on deutscherandhackett_scraper.py *)

Section DHLot.
Import DH DHSpec DHRun.
Context (W : world) (E : env).

Lemma dh_lot_of_page_ok u page lot :
  lot_of_page E u page = Some lot ->
  Lot.url lot = u
  ∧ Lot.auctionUrl lot = None
  ∧ (fst <$> Lot.extra lot) = ["signage"; "provenance"; "condition"]
  ∧ ∃ text p,
      price_div page = Some text
      ∧ p = strip E (replace "Sold for" "" (before "in" text))
      ∧ p ≠ ""
      ∧ Lot.price lot = Some p.
Proof.
  unfold lot_of_page. destruct (price_div page) as [text|]; [|done].
  destruct (truthy _) eqn:Hp; [|done]. intros [= <-]. simpl.
  split_and!; [done..|]. eexists _, _. split_and!; [done..| |done].
  by apply truthy_ne.
Qed.

Lemma dh_scrape_lot_details_run lot_url s :
  scrape_lot_details W E lot_url s
  = (Ok match site W (if startswith "/" lot_url then site_root +:+ lot_url
                      else lot_url) with
        | Fetched true html =>
            lot_of_page E
              (if startswith "/" lot_url then site_root +:+ lot_url else lot_url)
              (lot_page_of E html)
        | _ => None
        end,
     add_fetched
       [if startswith "/" lot_url then site_root +:+ lot_url else lot_url] s).
Proof.
  unfold scrape_lot_details, try_except, bind, arun, add_fetched.
  by destruct (site W _) as [|[] html].
Qed.

(** X18.  [scrape_lot_details] of deutscherandhackett_scraper.py (and its
    copy in individual_auction_scraper.py) always comes back, with one
    fetch of the lot URL made absolute.  A lot it returns comes from a
    delivered page with a sold-price block; its price is the text before
    the first "in", without "Sold for", stripped, and is not empty. *)
Theorem dh_lot_details_one_fetch (lot_url : string) (s : state) :
  let u := if startswith "/" lot_url then site_root +:+ lot_url else lot_url in
  ∃ v,
    scrape_lot_details W E lot_url s = (Ok v, add_fetched [u] s)
    ∧ ∀ lot,
        v = Some lot ->
        Lot.url lot = u
        ∧ Lot.auctionUrl lot = None
        ∧ (fst <$> Lot.extra lot) = ["signage"; "provenance"; "condition"]
        ∧ ∃ html text,
            site W u = Fetched true html
            ∧ price_div (lot_page_of E html) = Some text
            ∧ Lot.price lot
              = Some (strip E (replace "Sold for" "" (before "in" text)))
            ∧ strip E (replace "Sold for" "" (before "in" text)) ≠ "".
Proof.
  intros u. rewrite dh_scrape_lot_details_run. fold u.
  eexists. split; [done|]. intros lot Hlot.
  destruct (site W u) as [|[] html]; [done| |done].
  destruct (dh_lot_of_page_ok _ _ _ Hlot) as (? & ? & ? & text & p & ? & -> & ? & ?).
  split_and!; [done..|]. by exists html, text.
Qed.



Lemma dh_detail_skip_run r s a :
  heap s !! r = Some a ->
  Auction.lots a ≠ [] ->
  scrape_auction_details W E r s = (Ok true, s).
Proof.
  intros Hr Hlots. unfold scrape_auction_details, try_except, bind, deref.
  rewrite Hr. by destruct (Auction.lots a).
Qed.

(** What the detail stage makes of an auction. *)
Lemma dh_finished_eq a :
  finished W E a
  = if nonempty (Auction.lots a) then a
    else match site W (Auction.url a) with
         | Fetched true html =>
             Auction.set_lots (page_lots W E (Auction.url a) html) a
         | _ => a
         end.
Proof.
  unfold finished, record_at.
  destruct (Auction.lots a) as [|l ls] eqn:Hlots.
  - destruct (dh_detail_run W E 0 _ a (iso_lookup a) Hlots) as [log ->].
    simpl. by destruct (site W (Auction.url a)) as [|[] html].
  - rewrite (dh_detail_skip_run 0 _ a (iso_lookup a)); [done|].
    by rewrite Hlots.
Qed.

(** In any store the detail stage does to an auction what it does to it
    alone, and touches nothing else but the fetches. *)
Lemma dh_detail_general r s a :
  heap s !! r = Some a ->
  ∃ b log,
    scrape_auction_details W E r s
    = (Ok b,
       mkState (<[r := finished W E a]> (heap s)) (fetched s ++ log)
         (disk s) (saves s)).
Proof.
  intros Hr. rewrite dh_finished_eq.
  destruct (Auction.lots a) as [|l ls] eqn:Hlots.
  - destruct (dh_detail_run W E r s a Hr Hlots) as [log ->]. simpl.
    destruct (site W (Auction.url a)) as [|[] html]; eexists _, log;
      try done; by rewrite (list_insert_id _ _ _ Hr).
  - rewrite (dh_detail_skip_run r s a Hr) by by rewrite Hlots.
    exists true, []. simpl. rewrite (list_insert_id _ _ _ Hr), app_nil_r.
    by destruct s.
Qed.


End DHLot.

(** ** Whole runs on deutscherandhackett_scraper.py and
       individual_auction_scraper.py *)

Section Progress.
Context (f : Auction.t -> Auction.t).

Lemma progress_lookup (pre found : list Auction.t) k a :
  found !! k = Some a ->
  (pre ++ (f <$> take k found) ++ drop k found) !! (length pre + k) = Some a.
Proof.
  intros Hk.
  pose proof (lookup_lt_Some _ _ _ Hk) as Hlt.
  rewrite lookup_app_r by lia.
  rewrite lookup_app_r by (rewrite length_fmap, length_take; lia).
  rewrite length_fmap, length_take, lookup_drop.
  replace (k + (length pre + k - length pre - k `min` length found)) with k by lia.
  done.
Qed.

Lemma progress_step (pre found : list Auction.t) k a :
  found !! k = Some a ->
  <[length pre + k := f a]> (pre ++ (f <$> take k found) ++ drop k found)
  = pre ++ (f <$> take (S k) found) ++ drop (S k) found.
Proof.
  intros Hk.
  pose proof (lookup_lt_Some _ _ _ Hk) as Hlt.
  rewrite insert_app_r. f_equal.
  rewrite (take_S_r _ _ _ Hk), fmap_app, <- app_assoc.
  rewrite (drop_S _ _ _ Hk).
  assert (length (f <$> take k found) = k) as Hlen
    by (rewrite length_fmap, length_take; lia).
  transitivity
    (<[length (f <$> take k found) + 0 := f a]>
       ((f <$> take k found) ++ a :: drop (S k) found)).
  - by rewrite Hlen, Nat.add_0_r.
  - by rewrite insert_app_r.
Qed.

Lemma progress_length (found : list Auction.t) k :
  length ((f <$> take k found) ++ drop k found) = length found.
Proof.
  rewrite length_app, length_fmap.
  rewrite <- (take_drop k found) at 3. by rewrite length_app.
Qed.

Lemma progress_view (pre found : list Auction.t) k :
  view (pre ++ (f <$> take k found) ++ drop k found)
    (seq (length pre) (length found))
  = (f <$> take k found) ++ drop k found.
Proof.
  rewrite <- (progress_length found k).
  rewrite <- (app_nil_r ((f <$> take k found) ++ drop k found)) at 1.
  apply view_seq.
Qed.

End Progress.

Section DHRunProofs.
Import DH DHSpec DHRun.
Context (W : world) (E : env).

Lemma dh_save_run data s :
  save_progress W data s
  = match write W (length (saves s)) with
    | Written =>
        (Ok tt,
         mkState (heap s) (fetched s) (Json (JAuctions (view (heap s) data)))
           (saves s ++ [view (heap s) data]))
    | OpenFails =>
        (Raise OSError,
         mkState (heap s) (fetched s) (disk s) (saves s ++ [view (heap s) data]))
    | DumpFails =>
        (Raise OSError,
         mkState (heap s) (fetched s) Garbled (saves s ++ [view (heap s) data]))
    end.
Proof.
  unfold save_progress, bind, get_state, write_file.
  by destruct (write W _).
Qed.

(** The loop over the collection while every write goes through. *)
Lemma dh_process_loop pre found :
  (∀ n, write W n = Written) ->
  ∀ n k s,
    k + n = length found ->
    heap s = pre ++ collection_after W E found k ->
    ∃ s',
      for_each (seq (length pre + k) n)
        (process_auction W E (seq (length pre) (length found))) s
      = (Ok tt, s')
      ∧ saves s'
        = saves s ++ (collection_after W E found <$> seq (S k) n)
      ∧ (n ≠ 0 ->
         disk s' = Json (JAuctions (collection_after W E found (k + n))))
      ∧ (n = 0 -> disk s' = disk s).
Proof.
  intros Hw. induction n as [|n IH]; intros k s Hkn Hheap.
  { exists s. simpl. by rewrite app_nil_r. }
  destruct (lookup_lt_is_Some_2 found k) as [a Ha]; [lia|].
  pose proof (progress_lookup (finished W E) pre found k a Ha) as Hlook.
  fold (collection_after W E found k) in Hlook. rewrite <- Hheap in Hlook.
  destruct (dh_detail_general W E _ s a Hlook) as (b & log & Hrun).
  rewrite Hheap in Hrun. unfold collection_after in Hrun.
  rewrite (progress_step (finished W E) pre found k a Ha) in Hrun.
  fold (collection_after W E found (S k)) in Hrun.
  set (s1 := mkState _ _ _ _) in Hrun.
  pose proof (dh_save_run (seq (length pre) (length found)) s1) as Hsave.
  rewrite Hw in Hsave. simpl in Hsave.
  unfold collection_after in Hsave. rewrite progress_view in Hsave.
  fold (collection_after W E found (S k)) in Hsave.
  set (s2 := mkState _ _ _ _) in Hsave.
  destruct (IH (S k) s2) as (s' & Hloop & Hsaves & Hdisk & Hsame);
    [lia|done|].
  exists s'. split_and!.
  - rewrite <- cons_seq. cbn [for_each]. unfold process_auction at 1.
    erewrite bind_ok; [|erewrite bind_ok; [exact Hsave|exact Hrun]].
    by replace (S (length pre + k)) with (length pre + S k) by lia.
  - rewrite Hsaves. simpl. by rewrite <- app_assoc.
  - intros _. destruct n as [|n].
    + rewrite Hsame by done. simpl. by rewrite Nat.add_1_r.
    + rewrite Hdisk by done. by replace (k + S (S n)) with (S k + S n) by lia.
  - done.
Qed.

Lemma dh_collection_done found :
  collection_after W E found (length found) = finished W E <$> found.
Proof.
  unfold collection_after. by rewrite firstn_all, drop_all, app_nil_r.
Qed.

Lemma dh_main_resume_run s records :
  disk s = Json (JAuctions records) ->
  main W E s
  = for_each (seq (length (heap s)) (length records))
      (process_auction W E (seq (length (heap s)) (length records)))
      (mkState (heap s ++ records) (fetched s) (disk s) (saves s)).
Proof.
  intros Hd. unfold main.
  erewrite bind_ok by reflexivity. rewrite Hd.
  erewrite bind_ok; [done|].
  erewrite bind_ok; [|unfold read_file; by rewrite Hd].
  cbv beta iota. by rewrite alloc_all_run, Hd.
Qed.

Lemma dh_discovered_run s :
  scrape_past_auctions W E past_url s
  = (Ok (discovered W E), add_fetched [past_url] s).
Proof.
  unfold discovered. by rewrite !dh_scrape_past_auctions_run.
Qed.

Lemma dh_main_fresh_run s :
  disk s = NoFile ->
  write W (length (saves s)) = Written ->
  main W E s
  = for_each (seq (length (heap s)) (length (discovered W E)))
      (process_auction W E (seq (length (heap s)) (length (discovered W E))))
      (mkState (heap s ++ discovered W E) (fetched s ++ [past_url])
         (Json (JAuctions (discovered W E))) (saves s ++ [discovered W E])).
Proof.
  intros Hd Hw. unfold main.
  erewrite bind_ok by reflexivity. rewrite Hd.
  erewrite bind_ok; [done|].
  erewrite bind_ok by apply dh_discovered_run.
  erewrite bind_ok by apply alloc_all_run.
  erewrite bind_ok; [done|].
  rewrite dh_save_run. simpl. rewrite Hw.
  pose proof (progress_view (finished W E) (heap s) (discovered W E) 0) as Hv.
  simpl in Hv. rewrite drop_0 in Hv. by rewrite Hv.
Qed.

(** X20.  A resumed run of deutscherandhackett_scraper.py whose writes go
    through visits every loaded auction in file order and saves after each
    one; the file ends with every auction finished.  An auction loaded
    without lots whose page is delivered gets the lots of that page. *)
Theorem dh_resume_retries_every_auction (s : state) (records : list Auction.t) :
  disk s = Json (JAuctions records) ->
  (∀ n, write W n = Written) ->
  ∃ s',
    main W E s = (Ok tt, s')
    ∧ saves s'
      = saves s ++ (collection_after W E records <$> seq 1 (length records))
    ∧ (records ≠ [] -> disk s' = Json (JAuctions (finished W E <$> records)))
    ∧ ∀ a html,
        a ∈ records ->
        Auction.lots a = [] ->
        site W (Auction.url a) = Fetched true html ->
        finished W E a = Auction.set_lots (page_lots W E (Auction.url a) html) a.
Proof.
  intros Hd Hw. rewrite (dh_main_resume_run s records Hd).
  destruct (dh_process_loop (heap s) records Hw (length records) 0
              (mkState (heap s ++ records) (fetched s) (disk s) (saves s)))
    as (s' & Hloop & Hsaves & Hdisk & _); [done| |].
  { simpl. unfold collection_after. by rewrite drop_0. }
  rewrite Nat.add_0_r in Hloop. exists s'. split_and!; [done|done| |].
  - intros Hne. rewrite Hdisk by by destruct records.
    simpl. by rewrite dh_collection_done.
  - intros a html _ Hlots Hsite. by rewrite dh_finished_eq, Hlots, Hsite.
Qed.

(** X21.  A first run of deutscherandhackett_scraper.py (no output file)
    saves the discovered auctions before any detail page is read, then
    once after each auction; the file ends with every discovered auction
    finished, and holds the empty list if none was discovered. *)
Theorem dh_fresh_start_saves_discovery_first (s : state) :
  disk s = NoFile ->
  (∀ n, write W n = Written) ->
  ∃ s',
    main W E s = (Ok tt, s')
    ∧ saves s'
      = saves s
        ++ discovered W E
           :: (collection_after W E (discovered W E)
                 <$> seq 1 (length (discovered W E)))
    ∧ disk s' = Json (JAuctions (finished W E <$> discovered W E)).
Proof.
  intros Hd Hw. rewrite (dh_main_fresh_run s Hd (Hw _)).
  set (found := discovered W E).
  destruct (dh_process_loop (heap s) found Hw (length found) 0
              (mkState (heap s ++ found) (fetched s ++ [past_url])
                 (Json (JAuctions found)) (saves s ++ [found])))
    as (s' & Hloop & Hsaves & Hdisk & Hsame); [done| |].
  { simpl. unfold collection_after. by rewrite drop_0. }
  rewrite Nat.add_0_r in Hloop. exists s'. split_and!; [done| |].
  - rewrite Hsaves. simpl. by rewrite <- app_assoc.
  - destruct found as [|a found'] eqn:Hfound.
    + by rewrite Hsame.
    + rewrite Hdisk by done. simpl (0 + _). by rewrite dh_collection_done.
Qed.

(** X22.  [main] of deutscherandhackett_scraper.py reads the output file
    outside any handler: a file that cannot be opened, does not hold JSON,
    or holds a value without a length stops the run with an exception
    before anything is fetched or saved. *)
Theorem dh_unusable_snapshot_stops_run (s : state) :
  disk s = Unreadable ∨ disk s = Garbled ∨ disk s = Json JScalar ->
  ∃ e, main W E s = (Raise e, s).
Proof.
  intros Hd. unfold main, bind, get_state, read_file, raise. cbv beta iota.
  destruct Hd as [Hd | [Hd | Hd]]; rewrite !Hd; by eexists.
Qed.

(** X23.  [save_progress] of deutscherandhackett_scraper.py has no
    handler: if the first write of a resumed run fails, the run ends with
    [OSError] after the first auction, the others are not visited. *)
Theorem dh_failed_save_aborts
    (s : state) (a : Auction.t) (records : list Auction.t) :
  disk s = Json (JAuctions (a :: records)) ->
  write W (length (saves s)) ≠ Written ->
  ∃ s',
    main W E s = (Raise OSError, s')
    ∧ saves s' = saves s ++ [finished W E a :: records]
    ∧ disk s'
      = (if write W (length (saves s)) is DumpFails then Garbled else disk s).
Proof.
  intros Hd Hw. rewrite (dh_main_resume_run s (a :: records) Hd).
  simpl length. rewrite <- cons_seq. cbn [for_each].
  unfold process_auction at 1.
  assert ((heap s ++ a :: records) !! length (heap s) = Some a) as Hlook.
  { by rewrite list_lookup_middle. }
  destruct (dh_detail_general W E (length (heap s))
              (mkState (heap s ++ a :: records) (fetched s) (disk s) (saves s))
              a Hlook) as (b & log & Hrun).
  simpl in Hrun.
  pose proof (progress_step (finished W E) (heap s) (a :: records) 0 a eq_refl)
    as Hstep.
  simpl in Hstep. rewrite Nat.add_0_r, drop_0 in Hstep.
  rewrite Hstep in Hrun.
  set (s1 := mkState (heap s ++ finished W E a :: records) (fetched s ++ log)
               (disk s) (saves s)) in *.
  pose proof (dh_save_run (seq (length (heap s)) (S (length records))) s1)
    as Hsave.
  assert (view (heap s1) (seq (length (heap s)) (S (length records)))
          = finished W E a :: records) as Hv
    by exact (progress_view (finished W E) (heap s) (a :: records) 1).
  rewrite Hv in Hsave. simpl in Hsave.
  destruct (write W (length (saves s))); [done| |].
  - erewrite bind_raise; [|erewrite bind_ok; [exact Hsave|exact Hrun]].
    by eexists.
  - erewrite bind_raise; [|erewrite bind_ok; [exact Hsave|exact Hrun]].
    by eexists.
Qed.

(** X24.  individual_auction_scraper.py writes its one auction whatever
    the detail stage returned: [save_progress] is called exactly once, with
    the auction as the stage left it, which is the auction without lots
    when its page was not delivered. *)
Theorem individual_run_always_saves (s : state) :
  ∃ s',
    Individual.main W E s
    = (if write W (length (saves s)) is Written then Ok tt else Raise OSError, s')
    ∧ saves s' = saves s ++ [[finished W E Individual.auction]]
    ∧ (write W (length (saves s)) = Written ->
       disk s' = Json (JAuctions [finished W E Individual.auction]))
    ∧ finished W E Individual.auction
      = match site W Individual.auction_url with
        | Fetched true html =>
            Auction.set_lots (page_lots W E Individual.auction_url html)
              Individual.auction
        | _ => Individual.auction
        end.
Proof.
  unfold Individual.main.
  erewrite bind_ok by reflexivity.
  assert ((heap s ++ [Individual.auction]) !! length (heap s)
          = Some Individual.auction) as Hlook.
  { by rewrite list_lookup_middle. }
  destruct (dh_detail_general W E (length (heap s))
              (mkState (heap s ++ [Individual.auction]) (fetched s) (disk s)
                 (saves s))
              _ Hlook) as (b & log & Hrun).
  simpl in Hrun.
  pose proof (progress_step (finished W E) (heap s) [Individual.auction] 0 _
                eq_refl) as Hstep.
  simpl in Hstep. rewrite Nat.add_0_r in Hstep. rewrite Hstep in Hrun.
  erewrite bind_ok by exact Hrun.
  rewrite dh_save_run. simpl.
  pose proof (progress_view (finished W E) (heap s) [Individual.auction] 1) as Hv.
  simpl in Hv. rewrite Hv.
  destruct (write W (length (saves s))); eexists;
    (split_and!; [done|done|done|by rewrite dh_finished_eq]).
Qed.

End DHRunProofs.

(** ** The table of json_to_csv.py *)

Section Table.
Import CSV CSVSpec.

Lemma write_lots_rows a written lots :
  write_lots (pick auction_fields (auction_dict a)) written lots
  = written ++ (row_of a <$> lots).
Proof.
  unfold write_lots. revert written.
  induction lots as [|l lots IH]; intros written; simpl.
  - by rewrite app_nil_r.
  - rewrite IH. by rewrite <- app_assoc.
Qed.

Lemma write_auctions_rows written auctions :
  write_auctions written auctions
  = written ++ (auctions ≫= λ a, row_of a <$> Auction.lots a).
Proof.
  unfold write_auctions. revert written.
  induction auctions as [|a auctions IH]; intros written; simpl.
  - by rewrite app_nil_r.
  - rewrite write_lots_rows, IH. by rewrite <- app_assoc.
Qed.

Lemma lookup_pick fields d f :
  pick fields d !! f
  = if bool_decide (f ∈ fields) then Some (get d f) else None.
Proof.
  unfold pick. induction fields as [|f0 fields IH]; csimpl; [done|].
  destruct (decide (f0 = f)) as [->|Hne].
  - rewrite lookup_insert_eq. rewrite bool_decide_eq_true_2; [done|left].
  - rewrite lookup_insert_ne by done. rewrite IH.
    apply (f_equal (λ b : bool, if b then Some (get d f) else None)).
    apply bool_decide_ext. rewrite elem_of_cons.
    split; [by right|by intros [?|?]].
Qed.

Lemma get_row a l h :
  get (pick lot_fields (lot_dict l) ∪ pick auction_fields (auction_dict a)) h
  = if bool_decide (h ∈ lot_fields) then get (lot_dict l) h
    else if bool_decide (h ∈ auction_fields) then get (auction_dict a) h
    else "".
Proof.
  unfold get at 1. rewrite lookup_union, !lookup_pick.
  by destruct (bool_decide (h ∈ lot_fields)),
    (bool_decide (h ∈ auction_fields)).
Qed.

Lemma row_of_cells a l :
  row_of a l
  = [Lot.url l; Lot.title l; Auction.year a;
     extra_text (Auction.extra a) "location"; Auction.date a;
     extra_text (Auction.extra a) "sale_number";
     Lot.artist l; Lot.title l; Lot.medium l; Lot.size l;
     extra_text (Lot.extra l) "signage";
     extra_text (Lot.extra l) "provenance";
     extra_text (Lot.extra l) "condition";
     from_option id "" (Lot.price l); Lot.url l;
     from_option id (extra_text (Lot.extra l) "auctionUrl") (Lot.auctionUrl l)].
Proof.
  unfold row_of, cells, headers.
  change (auction_fields ++ lot_fields)
    with ["url"; "title"; "year"; "location"; "date"; "sale_number"; "artist";
          "title"; "medium"; "size"; "signage"; "provenance"; "condition";
          "price"; "url"; "auctionUrl"].
  cbn [fmap list_fmap]. rewrite !get_row.
  repeat match goal with
         | |- context [bool_decide (?x ∈ ?fs)] =>
             let b := eval vm_compute in (bool_decide (x ∈ fs)) in
             change (bool_decide (x ∈ fs)) with b
         end.
  cbv iota.
  unfold get, extra_text, lot_dict, auction_dict.
  destruct (Lot.auctionUrl l); by simplify_map_eq.
Qed.

(** X25.  json_to_csv.py writes the header line, then one row per lot, in
    the order of the auctions and of their lots; an auction without lots
    contributes no row, and every row has the sixteen cells of the
    header. *)
Theorem csv_one_row_per_lot (auctions : list Auction.t) :
  table_of auctions
  = headers :: (auctions ≫= λ a, row_of a <$> Auction.lots a)
  ∧ length (table_of auctions)
    = S (sum_list (length ∘ Auction.lots <$> auctions))
  ∧ Forall (λ row, length row = 16) (table_of auctions).
Proof.
  unfold table_of. rewrite write_auctions_rows. split_and!; [done| |].
  - simpl. f_equal.
    induction auctions as [|a auctions IH]; csimpl; [done|].
    by rewrite length_app, length_fmap, IH.
  - apply Forall_cons. split; [done|].
    apply Forall_forall. intros row (a & (l & -> & _)%list_elem_of_fmap & _)%list_elem_of_bind.
    by rewrite row_of_cells.
Qed.

(** X26.  In a row of json_to_csv.py the keys of the lot win over those of
    the auction: the first two columns hold the URL and the title of the
    lot, so the row does not depend on the URL or the title of the
    auction. *)
Theorem csv_row_ignores_auction_url_and_title (a a' : Auction.t) (l : Lot.t) :
  Auction.year a = Auction.year a' ->
  Auction.date a = Auction.date a' ->
  Auction.extra a = Auction.extra a' ->
  row_of a l = row_of a' l
  ∧ row_of a l !! 0 = Some (Lot.url l)
  ∧ row_of a l !! 1 = Some (Lot.title l).
Proof.
  intros Hy Hd He. rewrite !row_of_cells. by rewrite Hy, Hd, He.
Qed.

(** X27.  On a collection whose auctions are as the detail stage leaves
    them, every row of json_to_csv.py has a non-empty price cell, and the
    URL of an auction of the collection in its last cell. *)
Theorem csv_rows_priced_and_linked (auctions : list Auction.t) :
  Forall lots_ok auctions ->
  Forall (λ row,
            (∃ p, row !! 13 = Some p ∧ p ≠ "")
            ∧ ∃ a, a ∈ auctions ∧ row !! 15 = Some (Auction.url a))
    (tail (table_of auctions)).
Proof.
  intros Hok. unfold table_of. rewrite write_auctions_rows. simpl.
  apply Forall_forall.
  intros row (a & (l & -> & Hl)%list_elem_of_fmap & Ha)%list_elem_of_bind.
  rewrite row_of_cells. simpl.
  pose proof (proj1 (Forall_forall _ _) Hok a Ha) as Hlots.
  destruct (proj1 (Forall_forall _ _) Hlots l Hl) as ((p & -> & Hp) & ->).
  split; [by exists p|by exists a].
Qed.

End Table.

(** ** The further properties on the sample site *)

Section EdgeRuns.
Import Sample Edge.

Lemma discovery_failure_is_empty_witness :
  (site Edge.down Menzies.results_url = FetchRaises
   ∨ (∃ html, site Edge.down Menzies.results_url = Fetched false html)
   ∨ (∃ html, site Edge.down Menzies.results_url = Fetched true html
              ∧ Menzies.catalogue_divs Sample.menzies_env html = []))
  ∧ Menzies.scrape_past_auctions Edge.down Sample.menzies_env
      Menzies.results_url None blank
    = (Ok [], add_fetched [Menzies.results_url] blank).
Proof.
  assert (site Edge.down Menzies.results_url = FetchRaises
   ∨ (∃ html, site Edge.down Menzies.results_url = Fetched false html)
   ∨ (∃ html, site Edge.down Menzies.results_url = Fetched true html
              ∧ Menzies.catalogue_divs Sample.menzies_env html = [])) as H.
  { right. left. by exists "". }
  split; [exact H|].
  exact (discovery_failure_is_empty Edge.down Sample.menzies_env
           Menzies.results_url None blank H).
Defined.

Lemma anchor_year_beats_headings_witness :
  Menzies.first_year Sample.menzies_env
    [Menzies.prev_h2 Edge.misfiled; Menzies.prev_h3 Edge.misfiled;
     Some (Menzies.own_text Edge.misfiled)] = Some "2016"
  ∧ Menzies.visit_catalogue Sample.menzies_env ∅ [] Edge.misfiled = [].
Proof.
  split; [reflexivity|].
  apply (anchor_year_beats_headings Sample.menzies_env ∅ [] Edge.misfiled
           "year-2014").
  - by left.
  - reflexivity.
  - apply (proj1 (bool_decide_eq_false _)). vm_compute. reflexivity.
Defined.

Lemma description_without_paragraph_drops_lot_witness :
  Menzies.find_sold_price (Edge.edge_env Edge.bare_description)
    Edge.bare_description = Some "$3,500"
  ∧ Menzies.scrape_lot_details (Edge.delivers "lot")
      (Edge.edge_env Edge.bare_description) "/items/9" blank
    = (Ok None, add_fetched [Sample.root +:+ "/items/9"] blank).
Proof.
  split; [reflexivity|].
  apply (description_without_paragraph_drops_lot (Edge.delivers "lot")
           (Edge.edge_env Edge.bare_description) "/items/9" "lot"
           (Menzies.mkDescription None []) blank); reflexivity.
Defined.

Lemma mistyped_sold_for_ends_search_witness :
  Menzies.sold_for_price (Edge.edge_env Edge.mistyped_price)
    [Menzies.mkPara true false ["2,000"]] = Some "$2,000"
  ∧ Menzies.find_sold_price (Edge.edge_env Edge.mistyped_price)
      Edge.mistyped_price = Some "$900".
Proof.
  split; [reflexivity|].
  apply (mistyped_sold_for_ends_search (Edge.edge_env Edge.mistyped_price)
           Edge.mistyped_price [Menzies.mkPara true false []]
           [Menzies.mkPara true false ["2,000"]]
           (Menzies.mkPara true false ["POA"; "1,000"]) "POA" ["1,000"]);
    try reflexivity.
  constructor; [by right|constructor].
Defined.

Lemma page_urls_distinct_witness :
  Menzies.page_url Sample.url_a 1 ≠ Menzies.page_url Sample.url_a 2.
Proof. apply (page_urls_distinct Sample.url_a 1 2); lia. Defined.

Lemma next_page_is_substring_test_witness :
  Menzies.next_page
    (Menzies.mkAuctionPage [] ["/catalogue-details/a?page=20"]) 1 = true.
Proof.
  apply (next_page_is_substring_test
           (Menzies.mkAuctionPage [] ["/catalogue-details/a?page=20"]) 1
           "/catalogue-details/a?" "0").
  by apply list_elem_of_singleton.
Defined.

Lemma detail_stage_frame_witness :
  let res :=
    Menzies.scrape_auction_details good_day menzies_env 5 0 (store [sale_a]) in
  ((∃ b, res.1 = Ok b) ∨ res.1 = Diverge)
  ∧ disk res.2 = disk (store [sale_a])
  ∧ saves res.2 = saves (store [sale_a])
  ∧ fetched (store [sale_a]) `prefix_of` fetched res.2
  ∧ (∀ r', r' ≠ 0 -> heap res.2 !! r' = heap (store [sale_a]) !! r')
  ∧ ∃ lots,
      heap res.2 !! 0 = Some (Auction.set_lots lots sale_a)
      ∧ (Auction.lots sale_a ≠ [] -> lots = Auction.lots sale_a).
Proof.
  exact (detail_stage_frame good_day menzies_env 5 0 (store [sale_a]) sale_a
           eq_refl).
Defined.

Lemma save_then_load_witness :
  write good_day (length (saves (store [sale_a]))) = Written
  ∧ (Menzies.load_existing_data
       (Menzies.save_progress good_day [0] (store [sale_a])).2).1
    = Ok (JAuctions [sale_a]).
Proof.
  split; [reflexivity|].
  exact (save_then_load good_day [0] (store [sale_a]) eq_refl).
Defined.

Lemma failed_save_is_silent_witness :
  disk resumed = Json (JAuctions [old_sale])
  ∧ (Menzies.save_progress Edge.disk_full [] resumed).1 = Ok tt
  ∧ disk (Menzies.save_progress Edge.disk_full [] resumed).2 = Garbled
  ∧ (write Edge.disk_full (length (saves resumed)) = DumpFails ->
     (Menzies.load_existing_data
        (Menzies.save_progress Edge.disk_full [] resumed).2).1
     = Ok (JAuctions [])).
Proof.
  split; [reflexivity|].
  apply (failed_save_is_silent Edge.disk_full [] resumed). discriminate.
Defined.

Lemma failed_discovery_leaves_file_witness :
  ∃ s',
    Menzies.main Edge.down menzies_env 5 resumed = (Ok tt, s')
    ∧ fetched s' = fetched resumed ++ [Menzies.results_url]
    ∧ saves s' = saves resumed
    ∧ disk s' = disk resumed.
Proof.
  apply (failed_discovery_leaves_file Edge.down menzies_env 5 resumed
           [old_sale]); [reflexivity|].
  right. left. by exists "".
Defined.

Lemma good_day_bounded :
  Forall (MenziesSpec.bounded good_day menzies_env 5)
    (MenziesSpec.discovered good_day menzies_env [old_sale]).
Proof.
  assert (MenziesSpec.discovered good_day menzies_env [old_sale]
          = [sale_c; sale_a]) as -> by (vm_compute; reflexivity).
  repeat constructor.
  - exists [], false. split; [exact walk_sale_c|repeat constructor].
  - exists ["a-1"; "a-2"], true.
    split; [exact walk_sale_a_good|repeat constructor].
Defined.

Lemma second_run_fetches_no_auction_witness :
  ∃ s1 s2 records',
    Menzies.main good_day menzies_env 5 resumed = (Ok tt, s1)
    ∧ (Menzies.load_existing_data s1).1 = Ok (JAuctions records')
    ∧ records'
      ≡ₚ [old_sale]
         ++ (MenziesSpec.finished good_day menzies_env 5
               <$> MenziesSpec.discovered good_day menzies_env [old_sale])
    ∧ Menzies.main bad_day menzies_env 3 s1 = (Ok tt, s2)
    ∧ fetched s2 = fetched s1 ++ [Menzies.results_url]
    ∧ saves s2 = saves s1
    ∧ disk s2 = disk s1.
Proof.
  apply (second_run_fetches_no_auction good_day bad_day menzies_env 5 3
           resumed [old_sale]); [reflexivity|exact good_day_bounded|done|].
  reflexivity.
Defined.

Lemma snapshots_sorted_by_year_witness :
  StronglySorted year_desc
    [Sample.sale_c; Sample.old_sale; Auction.set_lots Sample.all_lots Sample.sale_a]
  ∧ Auction.year
      <$> [Sample.sale_c; Sample.old_sale;
           Auction.set_lots Sample.all_lots Sample.sale_a]
    = sort_desc id
        (Auction.year
           <$> [Sample.old_sale]
               ++ MenziesSpec.discovered Sample.good_day Sample.menzies_env
                    [Sample.old_sale]).
Proof.
  apply (snapshots_sorted_by_year Sample.good_day Sample.menzies_env 5
           Sample.resumed [Sample.old_sale]); [reflexivity|].
  vm_compute. apply list_elem_of_further, list_elem_of_here.
Defined.

Lemma main_never_raises_on_auction_list_witness :
  (∀ e, (Menzies.main good_day menzies_env 5 resumed).1 ≠ Raise e)
  ∧ Menzies.main good_day menzies_env 5 not_a_list
    = (Raise TypeError, add_fetched [Menzies.results_url] not_a_list).
Proof.
  split.
  - apply (proj1 (main_never_raises_on_auction_list good_day menzies_env 5
                    resumed)).
    intros empty. discriminate.
  - exact (proj2 (main_never_raises_on_auction_list good_day menzies_env 5
                    not_a_list) eq_refl).
Defined.

Lemma dh_unusable_snapshot_stops_run_witness :
  ∃ e, DH.main Sample.dh_day Sample.dh_env (mkState [] [] Garbled [])
       = (Raise e, mkState [] [] Garbled []).
Proof.
  apply (dh_unusable_snapshot_stops_run Sample.dh_day Sample.dh_env
           (mkState [] [] Garbled [])).
  right. by left.
Defined.

Lemma csv_row_ignores_auction_url_and_title_witness :
  CSVSpec.row_of Sample.sale_a (Sample.lot_of "1")
  = CSVSpec.row_of (Sample.sale "elsewhere" "Another title" "2016" "12 May 2016" [])
      (Sample.lot_of "1")
  ∧ CSVSpec.row_of Sample.sale_a (Sample.lot_of "1") !! 0
    = Some (Lot.url (Sample.lot_of "1"))
  ∧ CSVSpec.row_of Sample.sale_a (Sample.lot_of "1") !! 1
    = Some (Lot.title (Sample.lot_of "1")).
Proof.
  apply (csv_row_ignores_auction_url_and_title Sample.sale_a
           (Sample.sale "elsewhere" "Another title" "2016" "12 May 2016" [])
           (Sample.lot_of "1")); reflexivity.
Defined.

Lemma headings_after_stop_ignored_witness :
  DHRun.stops (dh_env_with dh_headings) (DH.mkHeading "2014" [dh_row "/sale-30" "Sale 30"])
  ∧ DH.scrape_past_auctions (delivers "past") (dh_env_with dh_headings)
      DH.past_url blank
    = (Ok [dh_sale_44], add_fetched [DH.past_url] blank).
Proof.
  assert (DHRun.stops (dh_env_with dh_headings)
            (DH.mkHeading "2014" [dh_row "/sale-30" "Sale 30"])) as Hstop.
  { split; [reflexivity|]. exists 2014%Z. split; [reflexivity|lia]. }
  split; [exact Hstop|].
  exact (headings_after_stop_ignored (delivers "past") (dh_env_with dh_headings)
           DH.past_url "past"
           [DH.mkHeading "2016" [dh_row "/sale-44" "Sale 44"]]
           [DH.mkHeading "2015" [dh_row "/sale-38" "Sale 38"]]
           _ blank eq_refl eq_refl Hstop).
Defined.

Lemma malformed_row_empties_discovery_witness :
  DH.visit_siblings "2016" [] [dh_row "/sale-44" "Sale 44"] = Ok [dh_sale_44]
  ∧ DHRun.malformed dh_broken_row
  ∧ DH.scrape_past_auctions (delivers "past") (dh_env_with dh_broken_headings)
      DH.past_url blank
    = (Ok [], add_fetched [DH.past_url] blank).
Proof.
  assert (DHRun.malformed dh_broken_row) as Hbad.
  { split; [reflexivity|]. split; [|by left].
    exists "/broken", "Broken". split; reflexivity. }
  split; [reflexivity|]. split; [exact Hbad|].
  apply (malformed_row_empties_discovery (delivers "past")
           (dh_env_with dh_broken_headings) DH.past_url "past" [] []
           (DH.mkHeading "2016"
              [dh_row "/sale-44" "Sale 44"; dh_broken_row;
               dh_row "/sale-45" "Sale 45"])
           [dh_row "/sale-44" "Sale 44"] [dh_row "/sale-45" "Sale 45"]
           dh_broken_row [] [dh_sale_44] blank);
    try reflexivity; [constructor| |exact Hbad].
  right. exists 2016%Z. split; [reflexivity|lia].
Defined.

Lemma dh_resume_retries_every_auction_witness :
  ∃ s',
    DH.main dh_day dh_env dh_interrupted = (Ok tt, s')
    ∧ saves s'
      = saves dh_interrupted
        ++ (DHRun.collection_after dh_day dh_env [dh_sale] <$> seq 1 1)
    ∧ ([dh_sale] ≠ [] ->
       disk s' = Json (JAuctions (DHRun.finished dh_day dh_env <$> [dh_sale])))
    ∧ ∀ a html,
        a ∈ [dh_sale] ->
        Auction.lots a = [] ->
        site dh_day (Auction.url a) = Fetched true html ->
        DHRun.finished dh_day dh_env a
        = Auction.set_lots (DHSpec.page_lots dh_day dh_env (Auction.url a) html) a.
Proof.
  apply (dh_resume_retries_every_auction dh_day dh_env dh_interrupted [dh_sale]);
    [reflexivity|done].
Defined.

Lemma dh_fresh_start_saves_discovery_first_witness :
  DHRun.discovered (delivers "page") (dh_env_with dh_headings) = [dh_sale_44]
  ∧ ∃ s',
      DH.main (delivers "page") (dh_env_with dh_headings) blank = (Ok tt, s')
      ∧ saves s'
        = saves blank
          ++ DHRun.discovered (delivers "page") (dh_env_with dh_headings)
             :: (DHRun.collection_after (delivers "page") (dh_env_with dh_headings)
                   (DHRun.discovered (delivers "page") (dh_env_with dh_headings))
                   <$> seq 1 (length (DHRun.discovered (delivers "page")
                                        (dh_env_with dh_headings))))
      ∧ disk s'
        = Json (JAuctions
                  (DHRun.finished (delivers "page") (dh_env_with dh_headings)
                     <$> DHRun.discovered (delivers "page")
                           (dh_env_with dh_headings))).
Proof.
  split; [reflexivity|].
  apply (dh_fresh_start_saves_discovery_first (delivers "page")
           (dh_env_with dh_headings) blank); [reflexivity|done].
Defined.

Lemma dh_failed_save_aborts_witness :
  ∃ s',
    DH.main dh_disk_locked dh_env dh_interrupted = (Raise OSError, s')
    ∧ saves s'
      = saves dh_interrupted ++ [DHRun.finished dh_disk_locked dh_env dh_sale :: []]
    ∧ disk s' = disk dh_interrupted.
Proof.
  apply (dh_failed_save_aborts dh_disk_locked dh_env dh_interrupted dh_sale []);
    [reflexivity|discriminate].
Defined.

Lemma csv_rows_priced_and_linked_witness :
  Forall lots_ok [Auction.set_lots [Sample.dh_lot] Sample.dh_sale; Sample.sale_c]
  ∧ Forall (λ row,
              (∃ p, row !! 13 = Some p ∧ p ≠ "")
              ∧ ∃ a, a ∈ [Auction.set_lots [Sample.dh_lot] Sample.dh_sale;
                          Sample.sale_c]
                     ∧ row !! 15 = Some (Auction.url a))
      (tail (CSV.table_of
               [Auction.set_lots [Sample.dh_lot] Sample.dh_sale; Sample.sale_c])).
Proof.
  assert (Forall lots_ok
            [Auction.set_lots [Sample.dh_lot] Sample.dh_sale; Sample.sale_c])
    as Hok.
  { repeat constructor. by exists "$2,440". }
  split; [exact Hok|].
  exact (csv_rows_priced_and_linked _ Hok).
Defined.

End EdgeRuns.
